(** * vandyvision: rating selection, metadata condensation and CSV bookkeeping

    A shallow embedding of the pure parts of [select_images.py], [ratings.py],
    [parse_exif.py], [write_metadata.py] and [demo.py], followed by the
    properties the specification states about them and by further properties
    of the code. *)

From Stdlib Require Import ZArith List Bool Lia Permutation Sorted String Ascii.
From Stdlib Require Import DecimalString.
From Stdlib Require Import SpecFloat.
Import ListNotations.

Open Scope Z_scope.

(** ** Python prelude *)

Module Py.

(** Exceptions the modelled code can raise. *)
Inductive exn : Type :=
| ValueError | IndexError | TypeError | AttributeError | KeyError
| RuntimeError | OverflowError | CalledProcessError
| FileNotFoundError | ZeroDivisionError | OSError.

(** A computation either returns a value or raises. *)
Inductive result (A : Type) : Type :=
| Ok (a : A)
| Raise (e : exn).
Arguments Ok {A} a.
Arguments Raise {A} e.

Definition bind {A B} (r : result A) (k : A -> result B) : result B :=
  match r with
  | Ok a => k a
  | Raise e => Raise e
  end.

(** [min(range(n), key=key)]: the first index whose key is minimal.
    [best] is the current candidate, [rest] the indices still to visit. *)
Fixpoint min_key_from (key : nat -> Z) (best : nat) (rest : list nat) : nat :=
  match rest with
  | [] => best
  | i :: rest' =>
      if key i <? key best then min_key_from key i rest'
      else min_key_from key best rest'
  end.

Definition min_range_key (n : nat) (key : nat -> Z) : nat :=
  match seq 0 n with
  | [] => 0%nat
  | i :: rest => min_key_from key i rest
  end.

(** *** Text.  A Python [str] is modelled by [string], one character per
    byte, i.e. text restricted to the code points below 256. *)

Definition is_space (c : ascii) : bool :=
  let n := nat_of_ascii c in
  (((9 <=? n) && (n <=? 13)) || ((28 <=? n) && (n <=? 32))
   || (n =? 133) || (n =? 160))%nat.

Fixpoint lstrip_with (p : ascii -> bool) (s : string) : string :=
  match s with
  | EmptyString => EmptyString
  | String c s' => if p c then lstrip_with p s' else s
  end.

Definition rev_string (s : string) : string :=
  string_of_list_ascii (rev (list_ascii_of_string s)).

Definition rstrip_with (p : ascii -> bool) (s : string) : string :=
  rev_string (lstrip_with p (rev_string s)).

(** [s.strip()] *)
Definition strip (s : string) : string :=
  rstrip_with is_space (lstrip_with is_space s).

Definition lower_char (c : ascii) : ascii :=
  let n := nat_of_ascii c in
  if (((65 <=? n) && (n <=? 90))
      || ((192 <=? n) && (n <=? 222) && negb (n =? 215)))%nat
  then ascii_of_nat (n + 32) else c.

(** [s.lower()] *)
Fixpoint lower (s : string) : string :=
  match s with
  | EmptyString => EmptyString
  | String c s' => String (lower_char c) (lower s')
  end.

(** [s.rfind(c)] for a one-character [c]; [None] stands for -1. *)
Fixpoint rfind_char (c : ascii) (s : string) : option nat :=
  match s with
  | EmptyString => None
  | String a s' =>
      match rfind_char c s' with
      | Some i => Some (S i)
      | None => if Ascii.eqb a c then Some 0%nat else None
      end
  end.

(** [s.split(c)] for a one-character separator: the text before the first
    separator, and the pieces after it. *)
Fixpoint split_parts (c : ascii) (s : string) : string * list string :=
  match s with
  | EmptyString => (EmptyString, [])
  | String a s' =>
      let (x, xs) := split_parts c s' in
      if Ascii.eqb a c then (EmptyString, x :: xs) else (String a x, xs)
  end.

Definition split (c : ascii) (s : string) : list string :=
  let (x, xs) := split_parts c s in x :: xs.

(** [sep.join(parts)] *)
Definition join (sep : string) (parts : list string) : string :=
  String.concat sep parts.

(** *** Values, as the JSON reader and the record builders produce them. *)

#[warnings="-register-all"]
Inductive pyval : Type :=
| VNone
| VBool (b : bool)
| VInt (z : Z)
| VFloat (f : spec_float)
| VStr (s : string)
| VList (l : list pyval)
| VTuple (l : list pyval)
| VDict (d : list (string * pyval)).

(** *** Dictionaries keep insertion order: association lists whose keys are
    kept distinct by [dict_set]. *)

Section Dict.
Context {K V : Type} (eqbK : K -> K -> bool).

Fixpoint dict_get (k : K) (d : list (K * V)) : option V :=
  match d with
  | [] => None
  | (k', v) :: d' => if eqbK k k' then Some v else dict_get k d'
  end.

Definition dict_mem (k : K) (d : list (K * V)) : bool :=
  match dict_get k d with Some _ => true | None => false end.

(** [d[k] = v]: overwrite in place, or append a new entry. *)
Fixpoint dict_set (k : K) (v : V) (d : list (K * V)) : list (K * V) :=
  match d with
  | [] => [(k, v)]
  | (k', v') :: d' =>
      if eqbK k k' then (k', v) :: d' else (k', v') :: dict_set k v d'
  end.

Definition dict_keys (d : list (K * V)) : list K := map fst d.
Definition dict_values (d : list (K * V)) : list V := map snd d.
End Dict.

(** Truth value of an object, as [if x:] and [not x] test it. *)
Definition truthy (v : pyval) : bool :=
match v with
| VNone => false
| VBool b => b
| VInt z => negb (z =? 0)
| VFloat (S754_zero _) => false
| VFloat _ => true
| VStr s => negb (String.eqb s EmptyString)
| VList l | VTuple l => match l with [] => false | _ => true end
| VDict d => match d with [] => false | _ => true end
end.

(** *** Lists *)

(** [l[i]] with Python's negative indices. *)
Definition list_index {A} (l : list A) (i : Z) : result A :=
let n := Z.of_nat (List.length l) in
let j := if i <? 0 then i + n else i in
if (j <? 0) || (n <=? j) then Raise IndexError
else match nth_error l (Z.to_nat j) with
     | Some a => Ok a
     | None => Raise IndexError
     end.

(** [sorted(l, key=...)]: stable, written as an insertion sort that puts an
  element before the first later one that is not smaller. *)
Fixpoint insert_by {A} (le : A -> A -> bool) (x : A) (l : list A) : list A :=
match l with
| [] => [x]
| y :: l' => if le x y then x :: l else y :: insert_by le x l'
end.

Fixpoint sorted {A} (le : A -> A -> bool) (l : list A) : list A :=
match l with
| [] => []
| x :: l' => insert_by le x (sorted le l')
end.

(** *** Floats: IEEE binary64, through the Standard Library's [SpecFloat]. *)

Definition prec : Z := 53.
Definition emax : Z := 1024.

(** A float object: a well-formed binary64 value. *)
Record float : Type := mkFloat {
sf : spec_float;
sf_valid : valid_binary prec emax sf = true
}.

Definition f_zero : float := mkFloat (S754_zero false) eq_refl.
Definition f_one : float := mkFloat (S754_finite false 4503599627370496 (-52)) eq_refl.
Definition f_half : float := mkFloat (S754_finite false 4503599627370496 (-53)) eq_refl.

(** [max(a, b)] and [min(a, b)]: the first argument unless the second is
  strictly better, so a NaN second argument never wins. *)
Definition float_max (a b : spec_float) : spec_float :=
if SFltb a b then b else a.
Definition float_min (a b : spec_float) : spec_float :=
if SFltb b a then b else a.

(** Conversion of an integer operand, rounding to nearest even. *)
Definition float_of_int (n : Z) : result spec_float :=
match binary_normalize prec emax n 0 false with
| S754_infinity _ => Raise OverflowError
| f => Ok f
end.

(** [x * n] for a float [x] and an integer [n]. *)
Definition float_mul_int (x : spec_float) (n : Z) : result spec_float :=
bind (float_of_int n) (fun nf => Ok (SFmul prec emax x nf)).

(** [math.ceil(x)] *)
Definition ceil (x : spec_float) : result Z :=
match x with
| S754_zero _ => Ok 0
| S754_infinity _ => Raise OverflowError
| S754_nan => Raise ValueError
| S754_finite s m e =>
    let v := cond_Zopp s (Zpos m) in
    Ok (if 0 <=? e then v * 2 ^ e else - ((- v) / 2 ^ (- e)))
end.

(** [int(x)] for a float: truncation towards zero. *)
Definition trunc (x : spec_float) : result Z :=
match x with
| S754_zero _ => Ok 0
| S754_infinity _ => Raise OverflowError
| S754_nan => Raise ValueError
| S754_finite s m e =>
    Ok (cond_Zopp s (if 0 <=? e then Zpos m * 2 ^ e else Zpos m / 2 ^ (- e)))
end.

(** *** [int(...)] *)

Definition digit_of (c : ascii) : option Z :=
let n := nat_of_ascii c in
if ((48 <=? n) && (n <=? 57))%nat then Some (Z.of_nat n - 48) else None.

(** Digits with single underscores between them; [acc] holds the digits read
  so far, the last character read being a digit. *)
Fixpoint parse_digits (acc : Z) (cs : list ascii) : option Z :=
match cs with
| [] => Some acc
| c :: cs' =>
    match digit_of c with
    | Some d => parse_digits (10 * acc + d) cs'
    | None =>
        if Ascii.eqb c "_"%char then
          match cs' with
          | c2 :: cs'' =>
              match digit_of c2 with
              | Some d => parse_digits (10 * acc + d) cs''
              | None => None
              end
          | [] => None
          end
        else None
    end
end.

Definition parse_unsigned (cs : list ascii) : option Z :=
match cs with
| c :: cs' =>
    match digit_of c with
    | Some d => parse_digits d cs'
    | None => None
    end
| [] => None
end.

(** The white space [int(...)] skips around the digits.  It is narrower than
  what [str.strip()] removes: the separators U+001C to U+001F are not part
  of it, so a text padded with one of them does not convert. *)
Definition is_int_space (c : ascii) : bool :=
let n := nat_of_ascii c in
(((9 <=? n) && (n <=? 13)) || (n =? 32) || (n =? 133) || (n =? 160))%nat.

Definition int_of_str (s : string) : result Z :=
let r :=
  match list_ascii_of_string
          (rstrip_with is_int_space (lstrip_with is_int_space s)) with
  | c :: cs' =>
      if Ascii.eqb c "-"%char then option_map Z.opp (parse_unsigned cs')
      else if Ascii.eqb c "+"%char then parse_unsigned cs'
      else parse_unsigned (c :: cs')
  | [] => None
  end in
match r with Some z => Ok z | None => Raise ValueError end.

Definition int (v : pyval) : result Z :=
match v with
| VBool b => Ok (if b then 1 else 0)
| VInt z => Ok z
| VFloat f => trunc f
| VStr s => int_of_str s
| VNone | VList _ | VTuple _ | VDict _ => Raise TypeError
end.

(** *** Printing: [str(...)] and [json.dumps(..., ensure_ascii=False)] *)

Local Open Scope string_scope.

Definition dquote : string := String "034" EmptyString.

Definition str_int (z : Z) : string := NilZero.string_of_int (Z.to_int z).

Definition hex_digit (n : nat) : ascii :=
  if (n <? 10)%nat then ascii_of_nat (48 + n) else ascii_of_nat (87 + n).

(** One character inside a JSON string: the quote, the backslash and the
    control characters are escaped, everything else is kept. *)
Definition json_escape_char (c : ascii) : string :=
  let n := nat_of_ascii c in
  if (n =? 34)%nat then "\" ++ dquote
  else if (n =? 92)%nat then "\\"
  else if (n =? 10)%nat then "\n"
  else if (n =? 13)%nat then "\r"
  else if (n =? 9)%nat then "\t"
  else if (n =? 8)%nat then "\b"
  else if (n =? 12)%nat then "\f"
  else if (n <? 32)%nat then
    "\u00" ++ String (hex_digit (n / 16)) (String (hex_digit (n mod 16)) EmptyString)
  else String c EmptyString.

Fixpoint json_escape (s : string) : string :=
  match s with
  | EmptyString => EmptyString
  | String c s' => json_escape_char c ++ json_escape s'
  end.

Definition json_string (s : string) : string := dquote ++ json_escape s ++ dquote.

Section Printing.
(** [repr(...)] of a float and of a container is left to the interpreter:
    the shortest decimal that reads back as the same float, and the literal
    syntax of the container. *)
Variable repr : pyval -> string.

Definition str (v : pyval) : string :=
  match v with
  | VNone => "None"
  | VBool true => "True"
  | VBool false => "False"
  | VInt z => str_int z
  | VStr s => s
  | VFloat _ | VList _ | VTuple _ | VDict _ => repr v
  end.

Definition json_float (f : spec_float) : string :=
  match f with
  | S754_nan => "NaN"
  | S754_infinity false => "Infinity"
  | S754_infinity true => "-Infinity"
  | _ => repr (VFloat f)
  end.

Fixpoint json_dumps (v : pyval) : string :=
  match v with
  | VNone => "null"
  | VBool true => "true"
  | VBool false => "false"
  | VInt z => str_int z
  | VFloat f => json_float f
  | VStr s => json_string s
  | VList l | VTuple l => "[" ++ join ", " (map json_dumps l) ++ "]"
  | VDict d =>
      "{" ++ join ", " (map (fun kv => json_string (fst kv) ++ ": " ++ json_dumps (snd kv)) d)
          ++ "}"
  end.
End Printing.

End Py.

(** ** ratings.py *)

Module Ratings.

Definition cuts : list Z := [1; 25; 50; 75; 99].
Definition stars : list Z := [1; 2; 3; 4; 5].

Definition _stars_from_percent (pct : Z) : Z :=
if pct <=? 0 then 0
else if pct >=? 99 then 5
else
  let closest :=
    Py.min_range_key (List.length cuts) (fun i => Z.abs (nth i cuts 0 - pct)) in
  nth closest stars 0.

End Ratings.

(** ** ratings.py: the rating of one image *)

Module WindowsRating.
Import Py.
Local Open Scope string_scope.

(** An element of a parsed XML document, as [xml.etree.ElementTree] holds
    it: the tag and the attribute names in the form [{uri}local], the text
    before the first child, the children. *)
#[warnings="-register-all"]
Inductive elem : Type :=
| Elem (tag : string) (attrib : list (string * string)) (text : option string)
       (children : list elem).

Definition tag_of (e : elem) : string := match e with Elem t _ _ _ => t end.
Definition attrib_of (e : elem) : list (string * string) :=
  match e with Elem _ a _ _ => a end.
Definition text_of (e : elem) : option string := match e with Elem _ _ t _ => t end.
Definition children_of (e : elem) : list elem := match e with Elem _ _ _ c => c end.

(** [root.iter()]: the element and its descendants, in document order. *)
Fixpoint iter (e : elem) : list elem :=
  match e with
  | Elem _ _ _ cs => e :: flat_map iter cs
  end.

(** [root.find(".//" + tag)]: the first descendant with the tag. *)
Definition find_descendant (tag : string) (root : elem) : option elem :=
  find (fun e => String.eqb (tag_of e) tag) (flat_map iter (children_of root)).

Definition startswith (p s : string) : bool := String.prefix p s.
Definition endswith (p s : string) : bool := String.prefix (rev_string p) (rev_string s).

Definition XMP_NS : string := "{http://ns.adobe.com/xap/1.0/}".
Definition MP_NS : string := "{http://ns.microsoft.com/photo/1.2/}".

(** [el.text.strip() if (el is not None and el.text) else None] *)
Definition element_text (el : option elem) : option string :=
  match el with
  | Some e =>
      match text_of e with
      | Some t => if String.eqb t "" then None else Some (strip t)
      | None => None
      end
  | None => None
  end.

(** The inner loop over the attributes of one element. *)
Definition attribute_value (ns local : string) (attrib : list (string * string))
  : option string :=
  match
    find (fun kv => startswith ns (fst kv) && endswith local (fst kv)
                    && negb (String.eqb (strip (snd kv)) ""))
         attrib
  with
  | Some kv => Some (strip (snd kv))
  | None => None
  end.

(** The outer loop over [root.iter()], left at the first value found. *)
Fixpoint first_attribute (ns local : string) (els : list elem) : option string :=
  match els with
  | [] => None
  | el :: els' =>
      match attribute_value ns local (attrib_of el) with
      | Some v => Some v
      | None => first_attribute ns local els'
      end
  end.

Record RatingInfo : Type := mkRatingInfo {
  stars : option Z;
  xmp_rating : option string;
  ms_rating_percent : option string;
  source : option string
}.

(** [int(s)] under [try: ... except ValueError: pass]. *)
Definition try_int (s : string) : option Z :=
  match int_of_str s with
  | Ok v => Some v
  | Raise _ => None
  end.

(** [_parse_xmp] on the parsed packet. *)
Definition _parse_xmp (root : elem) (source_label : string) : RatingInfo :=
  let xmp_rating := element_text (find_descendant (XMP_NS ++ "Rating") root) in
  let xmp_rating :=
    match xmp_rating with
    | None => first_attribute XMP_NS "Rating" (iter root)
    | Some _ => xmp_rating
    end in
  let mp_rating_pct := element_text (find_descendant (MP_NS ++ "RatingPercent") root) in
  let mp_rating_pct :=
    match mp_rating_pct with
    | None => first_attribute MP_NS "RatingPercent" (iter root)
    | Some _ => mp_rating_pct
    end in
  let stars :=
    match xmp_rating with
    | Some r =>
        match try_int r with
        | Some v => Some (Z.max 0 (Z.min 5 v))
        | None => None
        end
    | None => None
    end in
  let stars :=
    match stars, mp_rating_pct with
    | None, Some p =>
        match try_int p with
        | Some v => Some (Ratings._stars_from_percent v)
        | None => None
        end
    | _, _ => stars
    end in
  mkRatingInfo stars xmp_rating mp_rating_pct (Some source_label).

(** What a call sees of the image file, of its sidecar and of the XML
    parser; a packet is the text of its bytes. *)
Record ImageWorld : Type := mkImageWorld {
  open_xmp : string -> result (option string);
  fromstring : string -> result elem;
  with_suffix_xmp : string -> string;
  sidecar_exists : string -> result bool;
  sidecar_read : string -> result string
}.

Definition no_rating : RatingInfo := mkRatingInfo None None None None.

Definition get_windows_rating (w : ImageWorld) (path : string) (look_for_sidecar : bool)
  : result RatingInfo :=
  bind (open_xmp w path) (fun xmp =>
  let embedded :=
    match xmp with
    | Some b => if String.eqb b "" then None else Some b
    | None => None
    end in
  match embedded with
  | Some b => bind (fromstring w b) (fun root => Ok (_parse_xmp root "embedded"))
  | None =>
      if look_for_sidecar then
        let sidecar := with_suffix_xmp w path in
        let attempt :=
          bind (sidecar_exists w sidecar) (fun there =>
          if there
          then bind (sidecar_read w sidecar) (fun b =>
               bind (fromstring w b) (fun root => Ok (Some (_parse_xmp root "sidecar"))))
          else Ok None) in
        match attempt with
        | Ok (Some info) => Ok info
        | Ok None | Raise _ => Ok no_rating
        end
      else Ok no_rating
  end).

End WindowsRating.

(** ** select_images.py *)

Module SelectImages.

(** [_stars_from_percent] of select_images.py on an optional integer:
  [None] stays [None], and [int(pct)] is the identity on an integer. *)
Definition _stars_from_percent (pct : option Z) : option Z :=
match pct with
| None => None
| Some pct =>
    if pct <=? 0 then Some 0
    else if pct >=? 99 then Some 5
    else
      let cuts := [1; 25; 50; 75; 99] in
      let stars := [1; 2; 3; 4; 5] in
      let idx :=
        Py.min_range_key (List.length cuts) (fun i => Z.abs (nth i cuts 0 - pct)) in
      Some (nth idx stars 0)
end.

Import Py.

Definition Path : Type := string.

Record RatingRecord : Type := mkRatingRecord {
path : Path;
stars : option Z;
xmp_rating : option Z;
ms_rating : option Z;
ms_rating_percent : option Z
}.

Record FilterResult : Type := mkFilterResult {
selected : list Path;
cutoff_stars : option Z;
rated : list RatingRecord;
unrated : list RatingRecord;
stats : list (string * Z)
}.

(** What one call sees of the file system and of the external tool. *)
Record World : Type := mkWorld {
is_dir : Path -> bool;
rglob : Path -> list Path;
iterdir : Path -> list Path;
is_file : Path -> bool;
exiftool_in_path : bool;
exiftool_output : list Path -> result (list (list (string * pyval)))
}.

(** [Path(s)] for a text [s], on a POSIX system.  pathlib keeps the root (one
  slash, or two when the text starts with exactly two), drops the empty and
  the "." components and prints the empty path as ".".  A path object is
  modelled by the text [str(p)] of that normal form, which is what [==],
  [hash] and the sort key go by; the paths the file system hands out are
  path objects, hence already of that form. *)
Definition splitroot (s : string) : string * string :=
let rel := lstrip_with (fun c => Ascii.eqb c "/"%char) s in
let n := (String.length s - String.length rel)%nat in
if (n =? 0)%nat then (EmptyString, rel)
else if (n =? 2)%nat then ("//"%string, rel)
else ("/"%string, rel).

Definition Path_of (s : string) : Path :=
let '(root, rel) := splitroot s in
let parts :=
  filter (fun x => negb (String.eqb x EmptyString) && negb (String.eqb x "."))
         (split "/"%char rel) in
let text := String.append root (join "/" parts) in
if String.eqb text EmptyString then "."%string else text.

(** [p.name] and [p.suffix] of pathlib. *)
Definition name (p : Path) : string :=
match rfind_char "/"%char p with
| Some i => substring (S i) (String.length p - S i) p
| None => p
end.

Definition suffix (p : Path) : string :=
let nm := name p in
match rfind_char "."%char nm with
| Some i =>
    if ((0 <? i) && (i <? String.length nm - 1))%nat
    then substring i (String.length nm - i) nm
    else EmptyString
| None => EmptyString
end.

(** [e.lower().lstrip(".")] *)
Definition norm_ext (e : string) : string :=
lstrip_with (fun c => Ascii.eqb c "."%char) (lower e).

Definition collect_files (w : World) (folder : Path) (recursive : bool)
  (extensions : option (list string)) : result (list Path) :=
let root := folder in
if negb (is_dir w root) then Raise ValueError
else
  let it := if recursive then rglob w root else iterdir w root in
  let files := filter (is_file w) it in
  match extensions with
  | Some ((_ :: _) as exts) =>
      let extset := map norm_ext exts in
      Ok (filter (fun p => existsb (String.eqb (norm_ext (suffix p))) extset) files)
  | _ => Ok files
  end.

(** [row.get(k)] *)
Definition row_get (k : string) (row : list (string * pyval)) : pyval :=
match dict_get String.eqb k row with
| Some v => v
| None => VNone
end.

Definition _as_int (val : pyval) : option Z :=
match val with
| VNone => None
| _ => match int val with
       | Ok z => Some z
       | Raise _ => None
       end
end.

Definition _normalize_stars (exiftool_row : list (string * pyval))
: option Z * option Z * option Z * option Z :=
let xmp_rating := row_get "Rating" exiftool_row in
let ms_rating := row_get "MicrosoftPhoto:Rating" exiftool_row in
let ms_percent := row_get "MicrosoftPhoto:RatingPercent" exiftool_row in
let xr := _as_int xmp_rating in
let mr := _as_int ms_rating in
let mp := _as_int ms_percent in
let stars :=
  match xr, mr with
  | Some v, _ => Some (Z.max 0 (Z.min 5 v))
  | None, Some v => Some (Z.max 0 (Z.min 5 v))
  | None, None => None
  end in
let stars :=
  match stars with
  | None => _stars_from_percent mp
  | Some _ => stars
  end in
(stars, xr, mr, mp).

(** The loop over the rows of the tool's JSON output. *)
Fixpoint records_of_rows (rows : list (list (string * pyval)))
: result (list RatingRecord) :=
match rows with
| [] => Ok []
| row :: rows' =>
    let src := row_get "SourceFile" row in
    if negb (truthy src) then records_of_rows rows'
    else
      match src with
      | VStr src =>
          let '(stars, xr, mr, mp) := _normalize_stars row in
          bind (records_of_rows rows') (fun records =>
            Ok (mkRatingRecord (Path_of src) stars xr mr mp :: records))
      | _ => Raise TypeError
      end
end.

Definition read_ratings_with_exiftool (w : World) (files : list Path)
: result (list RatingRecord) :=
match files with
| [] => Ok []
| _ =>
    if negb (exiftool_in_path w) then Raise RuntimeError
    else bind (exiftool_output w files) records_of_rows
end.

Definition percentile_nearest_rank (values : list Z) (q : float) : result Z :=
match values with
| [] => Raise ValueError
| _ =>
    let q := float_min (sf f_one) (float_max (sf f_zero) (sf q)) in
    let vals := sorted Z.leb values in
    let n := Z.of_nat (List.length vals) in
    bind (float_mul_int q n) (fun qn =>
    bind (ceil qn) (fun c =>
    let rank := Z.max 1 c in
    list_index vals (rank - 1)))
end.

Definition default_exts : list string :=
["jpg"; "jpeg"; "tif"; "tiff"; "png"; "heic"; "cr2"; "nef"; "arw"; "dng"]%string.

(** [extensions if extensions else default_exts] *)
Definition effective_exts (extensions : option (list string)) : list string :=
match extensions with
| Some ((_ :: _) as e) => e
| _ => default_exts
end.

Definition unrated_record (f : Path) : RatingRecord :=
mkRatingRecord f None None None None.

(** [by_path]: the dict comprehension over the records, then the loop that
  adds the files the tool skipped. *)
Definition by_path_of (files : list Path) (records : list RatingRecord)
: list (Path * RatingRecord) :=
let by_path :=
  fold_left (fun d r => dict_set String.eqb (path r) r d) records [] in
fold_left
  (fun d f =>
     if dict_mem String.eqb f d then d
     else dict_set String.eqb f (unrated_record f) d)
  files by_path.

Definition is_rated (r : RatingRecord) : bool :=
match stars r with Some _ => true | None => false end.

Definition rated_of (by_path : list (Path * RatingRecord)) : list RatingRecord :=
filter is_rated (dict_values by_path).

Definition unrated_of (by_path : list (Path * RatingRecord)) : list RatingRecord :=
filter (fun r => negb (is_rated r)) (dict_values by_path).

(** [[r.stars for r in rated if r.stars is not None]] *)
Definition star_values (rs : list RatingRecord) : list Z :=
flat_map (fun r => match stars r with Some s => [s] | None => [] end) rs.

Definition at_or_above (cutoff : Z) (r : RatingRecord) : bool :=
match stars r with Some s => cutoff <=? s | None => false end.

(** Order by [str(p).lower()]. *)
Definition path_le (a b : Path) : bool := String.leb (lower a) (lower b).
Definition record_le (a b : RatingRecord) : bool := path_le (path a) (path b).

Section Filter.
(** The iteration order of [set(selected)]: decided by the hashes, so it is
    left open here; any order of the distinct elements may come out. *)
Variable set_order : list Path -> list Path.

Definition filter_images_by_rating (w : World) (folder : Path)
    (percentile : float) (include_unrated_in_result : bool)
    (recursive : bool) (extensions : option (list string))
  : result FilterResult :=
  let exts := effective_exts extensions in
  bind (collect_files w folder recursive (Some exts)) (fun files =>
  match files with
  | [] =>
      Ok (mkFilterResult [] None [] []
            [("total_scanned", 0); ("rated", 0); ("unrated", 0); ("selected", 0)]%string)
  | _ =>
      bind (read_ratings_with_exiftool w files) (fun records =>
      let by_path := by_path_of files records in
      let rated := rated_of by_path in
      let unrated := unrated_of by_path in
      bind (match rated with
            | [] => Ok None
            | _ => bind (percentile_nearest_rank (star_values rated) percentile)
                        (fun c => Ok (Some c))
            end) (fun cutoff =>
      let selected :=
        match cutoff with
        | Some c => map path (filter (at_or_above c) rated)
        | None => []
        end in
      let selected :=
        if include_unrated_in_result then selected ++ map path unrated
        else selected in
      let selected := sorted path_le (set_order selected) in
      let stats :=
        [("total_scanned", Z.of_nat (List.length files));
         ("rated", Z.of_nat (List.length rated));
         ("unrated", Z.of_nat (List.length unrated));
         ("selected", Z.of_nat (List.length selected))]%string in
      Ok (mkFilterResult selected cutoff
            (sorted record_le rated) (sorted record_le unrated) stats)))
  end).
End Filter.

End SelectImages.

(** ** parse_exif.py *)

Module ParseExif.
Import Py.
Local Open Scope string_scope.

Definition Meta : Type := list (string * pyval).

Definition get (k : string) (d : Meta) : option pyval := dict_get String.eqb k d.
Definition set (k : string) (v : pyval) (d : Meta) : Meta := dict_set String.eqb k v d.

(** [d.get(k)] as a value: an absent key reads as [None]. *)
Definition get_or_none (k : string) (d : Meta) : pyval :=
  match get k d with
  | Some v => v
  | None => VNone
  end.

Fixpoint _first_present (meta : Meta) (keys : list string) : pyval :=
  match keys with
  | [] => VNone
  | k :: keys' =>
      match get k meta with
      | Some VNone | None => _first_present meta keys'
      | Some v => v
      end
  end.

Definition is_str (x : pyval) : bool :=
  match x with VStr _ => true | _ => false end.

Definition is_dict (x : pyval) : bool :=
  match x with VDict _ => true | _ => false end.

(** [x.get(child_key)] for the entries of a list of dicts that have the key
    with a value other than [None]. *)
Definition child_values (child_key : string) (parent : list pyval) : list pyval :=
  flat_map
    (fun x =>
       match x with
       | VDict d =>
           match get child_key d with
           | Some VNone | None => []
           | Some v => [v]
           end
       | _ => []
       end)
    parent.

Definition _extract_nested (meta : Meta) (parent_keys : list string)
    (child_key : string) : pyval :=
  let parent := _first_present meta parent_keys in
  match parent with
  | VNone => VNone
  | VList l =>
      if forallb is_str l then parent
      else if forallb is_dict l then
        match child_values child_key l with
        | [] => VNone
        | [v] => v
        | vals => VList vals
        end
      else parent
  | VDict d => get_or_none child_key d
  | _ => parent
  end.

(** [v[i]] *)
Definition subscript (v : pyval) (i : Z) : result pyval :=
  match v with
  | VStr s =>
      bind (list_index (list_ascii_of_string s) i)
           (fun c => Ok (VStr (String c EmptyString)))
  | VList l | VTuple l => list_index l i
  | VDict _ => Raise KeyError
  | VNone | VBool _ | VInt _ | VFloat _ => Raise TypeError
  end.

(** [v[:len(v) - 1]], used once [v[-1]] has been read. *)
Definition drop_last (v : pyval) : pyval :=
  match v with
  | VStr s => VStr (substring 0 (String.length s - 1) s)
  | VList l => VList (firstn (List.length l - 1) l)
  | VTuple l => VTuple (firstn (List.length l - 1) l)
  | _ => v
  end.

Definition size (v : pyval) : nat :=
  match v with
  | VStr s => String.length s
  | VList l | VTuple l | VDict l => List.length l
  | _ => 0%nat
  end.

Definition is_blank (v : pyval) : bool :=
  match v with
  | VStr s => String.eqb s " "
  | _ => false
  end.

(** [while t[-1] == " ": t = t[:len(t) - 1]]; every turn shortens [t], so
    [size t + 1] turns are never used up. *)
Fixpoint drop_trailing_blanks (fuel : nat) (t : pyval) : result pyval :=
  match fuel with
  | O => Raise RuntimeError
  | S fuel' =>
      bind (subscript t (-1))
           (fun c => if is_blank c then drop_trailing_blanks fuel' (drop_last t)
                     else Ok t)
  end.

(** [s.replace(a, b)] for one-character [a] and [b]. *)
Fixpoint replace_char (a b : ascii) (s : string) : string :=
  match s with
  | EmptyString => EmptyString
  | String c s' => String (if Ascii.eqb c a then b else c) (replace_char a b s')
  end.

(** [s.find("  ") != -1] *)
Fixpoint has_double_space (s : string) : bool :=
  match s with
  | String a ((String b _) as s') =>
      (Ascii.eqb a " " && Ascii.eqb b " ") || has_double_space s'
  | _ => false
  end.

(** [s.replace("  ", " ")]: the occurrences are taken from the left and do
    not overlap. *)
Fixpoint replace_double_space (s : string) : string :=
  match s with
  | String a ((String b s'') as s') =>
      if Ascii.eqb a " " && Ascii.eqb b " "
      then String " " (replace_double_space s'')
      else String a (replace_double_space s')
  | _ => s
  end.

(** [while s.find("  ") != -1: s = s.replace("  ", " ")] *)
Fixpoint collapse_spaces (fuel : nat) (s : string) : string :=
  match fuel with
  | O => s
  | S fuel' =>
      if has_double_space s then collapse_spaces fuel' (replace_double_space s)
      else s
  end.

Definition newline : ascii := "010"%char.

(** The title lines of [condense_metadata]. *)
Definition condense_title (meta : Meta) : result pyval :=
  let title :=
    _first_present meta
      ["XMP-dc:Description"; "IFD0:ImageDescription"; "Description"; "ImageDescription"] in
  match title with
  | VNone => Ok VNone
  | _ =>
      bind (drop_trailing_blanks (S (size title)) title) (fun title =>
      match title with
      | VStr s =>
          let s := replace_char newline " " s in
          Ok (VStr (collapse_spaces (String.length s) s))
      | _ => Raise AttributeError
      end)
  end.

(** [temp += " " + person] *)
Definition add_person (temp person : pyval) : result pyval :=
  match person with
  | VStr p =>
      match temp with
      | VStr t => Ok (VStr (t ++ " " ++ p))
      | VList l =>
          Ok (VList (l ++ map (fun c => VStr (String c EmptyString))
                              (list_ascii_of_string (" " ++ p)))%list)
      | _ => Raise TypeError
      end
  | _ => Raise TypeError
  end.

Fixpoint add_people (temp : pyval) (people : list pyval) : result pyval :=
  match people with
  | [] => Ok temp
  | person :: people' => bind (add_person temp person) (fun temp => add_people temp people')
  end.

(** The people lines of [condense_metadata]. *)
Definition condense_people (meta : Meta) : result pyval :=
  let people := _first_present meta ["XMP-iptcExt:PersonInImage"] in
  match people with
  | VList l =>
      bind (list_index l 0) (fun temp => add_people temp (tl l))
  | _ => Ok people
  end.

(** [sep.join(pieces)] on values: every piece has to be a string. *)
Fixpoint strings_of (l : list pyval) : result (list string) :=
  match l with
  | [] => Ok []
  | VStr s :: l' => bind (strings_of l') (fun ss => Ok (s :: ss))
  | _ :: _ => Raise TypeError
  end.

(** The location lines of [condense_metadata]. *)
Definition condense_location (meta : Meta) : result pyval :=
  let loc := _first_present meta ["XMP-iptcCore:Location"] in
  match loc with
  | VDict d =>
      let pieces :=
        filter truthy
          (map (fun k => get_or_none k d)
               ["Sublocation"; "City"; "ProvinceState"; "CountryName"]) in
      match pieces with
      | [] => Ok loc
      | _ => bind (strings_of pieces) (fun ss => Ok (VStr (join ", " ss)))
      end
  | _ => Ok loc
  end.

Definition condense_metadata (meta : Meta) : result Meta :=
  bind (condense_title meta) (fun title =>
  let out := set "title" title [] in
  let out := set "begin"
                 (_first_present meta ["EXIF:CreateDate"; "CreateDate"; "XMP-xmp:CreateDate"])
                 out in
  let out := set "people_agent_header_1"
                 (_first_present meta ["IPTC:By-line"; "IFD0:Artist"; "Creator"; "Artist"])
                 out in
  bind (condense_people meta) (fun people =>
  let out := set "people_agent_header_2" people out in
  let out := set "subject_1_term"
                 (_extract_nested meta ["XMP-plus:ImageSupplier"] "ImageSupplierName")
                 out in
  bind (condense_location meta) (fun n_odd =>
  let out := set "n_odd" n_odd out in
  let out := set "n_abstract" (_first_present meta ["XMP-photoshop:Headline"]) out in
  Ok out))).

Definition _non_null (x : pyval) : bool :=
  match x with
  | VNone => false
  | VStr s => negb (String.eqb (strip s) EmptyString)
  | VList l | VTuple l => (0 <? Z.of_nat (List.length l))%Z
  | VDict d => (0 <? Z.of_nat (List.length d))%Z
  | VBool _ | VInt _ | VFloat _ => true
  end.

(** [if _non_null(out.get(key)): out[k1] = v1; out[k2] = v2] *)
Definition add_pair (key k1 v1 k2 v2 : string) (out : Meta) : Meta :=
  if _non_null (get_or_none key out)
  then set k2 (VStr v2) (set k1 (VStr v1) out)
  else out.

Section Augment.
(** The file system and the float arithmetic of the size are left open:
    [stat_size p] is [p.stat().st_size], and [rounded_ratio b d r] is
    [round(b / d, r)]. *)
Variable stat_size : string -> result Z.
Variable rounded_ratio : Z -> Z -> Z -> result pyval.

Definition augment_condensed_metadata (image_path : string) (condensed : Meta)
    (hierarchy : pyval) (mb_base round_digits : Z) : result Meta :=
  let out := condensed in
  let out := set "hierarchy" hierarchy out in
  let number :=
    bind (stat_size image_path) (fun size_bytes =>
    rounded_ratio size_bytes (mb_base ^ 2) round_digits) in
  let sized :=
    match number with
    | Ok mb => Ok (set "extent_type" (VStr "MB") (set "number" mb out))
    | Raise FileNotFoundError =>
        Ok (set "extent_type" (VStr "MB") (set "number" VNone out))
    | Raise e => Raise e
    end in
  bind sized (fun out =>
  let out := set "restrictions_flag" (VStr "Yes") out in
  let out :=
    set "processing_note"
        (VStr "This picture was held in VandyVision, the digital asset management system called PhotoShelter.")
        out in
  let out := set "portion" (VStr "1") out in
  let out := set "type_2" (VStr "Item") out in
  let out := set "p_acqinfo" (VStr "Yes") out in
  let out := set "n_acqinfo" (VStr "PhotoShelter https://www.photoshelter.com") out in
  let out := add_pair "begin" "dates_label" "creation" "date_type" "single" out in
  let out :=
    add_pair "people_agent_header_1" "people_agent_role_1" "creator"
             "people_agent_relator_1" "photographer" out in
  let out :=
    add_pair "people_agent_header_2" "people_agent_role_2" "subject"
             "people_agent_relator_2" "associated name" out in
  let out := add_pair "n_odd" "p_odd" "Yes" "l_odd" "location" out in
  let out :=
    add_pair "subject_1_term" "subject_1_type" "topical"
             "subject_1_source" "local sources" out in
  Ok out).
End Augment.

End ParseExif.

(** ** parse_exif.py: reading the metadata of one image *)

Module ReadMetadata.
Import Py ParseExif.
Local Open Scope string_scope.

(** What a call sees of the outside: whether [exiftool] is in the path, the
    objects of the JSON it prints for a file (with [-n] or without), and
    what the Pillow reader gathers, which swallows every error of its
    own. *)
Record MetaWorld : Type := mkMetaWorld {
  exiftool_found : bool;
  exiftool_json : string -> bool -> result (list Meta);
  _read_with_pillow : string -> Meta
}.

(** [row.pop(key, None)] *)
Definition pop (key : string) (row : Meta) : Meta :=
  filter (fun kv => negb (String.eqb key (fst kv))) row.

Definition _read_with_exiftool (w : MetaWorld) (path : string)
    (numeric keep_sourcefile_key : bool) : result Meta :=
  bind (exiftool_json w path numeric) (fun blobs =>
  match blobs with
  | [] => Ok []
  | blob :: _ =>
      let row := blob in
      Ok (if negb keep_sourcefile_key then pop "SourceFile" row else row)
  end).

Definition read_all_metadata (w : MetaWorld) (image_path : string)
    (numeric prefer_exiftool keep_sourcefile_key : bool) : result Meta :=
  if prefer_exiftool && exiftool_found w
  then _read_with_exiftool w image_path numeric keep_sourcefile_key
  else Ok (_read_with_pillow w image_path).

End ReadMetadata.

(** ** write_metadata.py *)

Module WriteMetadata.
Import Py.
Local Open Scope string_scope.

(** [isinstance(x, (str, int, float, bool, type(None)))] *)
Definition is_scalar (x : pyval) : bool :=
  match x with
  | VStr _ | VInt _ | VFloat _ | VBool _ | VNone => true
  | VList _ | VTuple _ | VDict _ => false
  end.

(** A parsed CSV file: the header row and the data rows as [DictReader]
    yields them, each a dict from header to cell text. *)
Record CsvTable : Type := mkCsvTable {
  fieldnames : list string;
  body : list (list (string * string))
}.

(** What ends up in the output file: the header row and the cells of every
    data row, one per header. *)
Record CsvOutput : Type := mkCsvOutput {
  header : list string;
  data : list (list string)
}.

Definition mem (k : string) (l : list string) : bool := existsb (String.eqb k) l.

(** [None] stands for a file that does not exist or is empty. *)
Definition _read_existing_csv (input_csv : option CsvTable)
  : list (list (string * string)) * list string :=
  match input_csv with
  | Some t => (body t, fieldnames t)
  | None => ([], [])
  end.

(** The loop [for k in rec.keys(): if k not in seen: ...] on the pair
    [(headers, seen)]. *)
Definition add_new_keys (keys : list string) (st : list string * list string)
  : list string * list string :=
  fold_left
    (fun st k =>
       let '(headers, seen) := st in
       if mem k seen then (headers, seen) else ((headers ++ [k])%list, k :: seen))
    keys st.

Definition add_record_keys {V : Type} (records : list (list (string * V)))
    (st : list string * list string) : list string * list string :=
  fold_left (fun st rec => add_new_keys (dict_keys rec) st) records st.

Definition _compute_headers {V : Type} (existing_headers : list string)
    (new_records : list (list (string * V))) (add_missing_columns : bool)
  : list string :=
  let headers := existing_headers in
  if add_missing_columns
  then fst (add_record_keys new_records (headers, headers))
  else headers.

(** [row.get(h, "")] *)
Definition row_get (h : string) (row : list (string * string)) : string :=
  match dict_get String.eqb h row with
  | Some c => c
  | None => ""
  end.

Section Writer.
Variable repr : pyval -> string.

Definition _normalize_cell (value : pyval) : string :=
  match value with
  | VNone => ""
  | VList l | VTuple l =>
      if forallb is_scalar l
      then join "; " (map (fun x => match x with VNone => "" | _ => str repr x end) l)
      else json_dumps repr value
  | VDict _ => json_dumps repr value
  | VBool _ | VInt _ | VFloat _ | VStr _ => str repr value
  end.

(** One pass of the loop that builds the row of a record; [headers] is the
    shared list, which the loop may extend. *)
Definition build_row (add_missing_columns : bool) (rec : list (string * pyval))
    (headers : list string) : list string * list (string * string) :=
  let row := fold_left (fun row h => dict_set String.eqb h "" row) headers [] in
  fold_left
    (fun st kv =>
       let '(headers, row) := st in
       let '(k, v) := kv in
       if negb (mem k headers) then
         if add_missing_columns
         then ((headers ++ [k])%list, dict_set String.eqb k (_normalize_cell v) row)
         else (headers, row)
       else (headers, dict_set String.eqb k (_normalize_cell v) row))
    rec (headers, row).

Definition build_rows (add_missing_columns : bool)
    (records : list (list (string * pyval))) (headers : list string)
  : list string * list (list (string * string)) :=
  fold_left
    (fun st rec =>
       let '(headers, new_rows) := st in
       let '(headers, row) := build_row add_missing_columns rec headers in
       (headers, (new_rows ++ [row])%list))
    records (headers, []).

(** The local function [pad]. *)
Definition pad (headers : list string) (row : list (string * string))
  : list (string * string) :=
  let row :=
    fold_left
      (fun row h => if dict_mem String.eqb h row then row
                    else dict_set String.eqb h "" row)
      headers row in
  fold_left (fun d h => dict_set String.eqb h (row_get h row) d) headers [].

(** The table [append_records_to_csv] writes; [DictWriter] prints, for each
    row, the cell of every header, an absent one as the empty string. *)
Definition append_records_to_csv (input_csv : option CsvTable)
    (records : list (list (string * pyval)))
    (add_missing_columns keep_existing_rows : bool) : CsvOutput :=
  let '(existing_rows, existing_headers) := _read_existing_csv input_csv in
  let headers := _compute_headers existing_headers records add_missing_columns in
  let headers :=
    match headers with
    | [] => fst (add_record_keys records ([], []))
    | _ => headers
    end in
  let '(headers, new_rows) := build_rows add_missing_columns records headers in
  let existing_rows :=
    if add_missing_columns then map (pad headers) existing_rows else existing_rows in
  let new_rows :=
    if add_missing_columns then map (pad headers) new_rows else new_rows in
  let final_rows := ((if keep_existing_rows then existing_rows else []) ++ new_rows)%list in
  mkCsvOutput headers
    (map (fun row => map (fun h => row_get h row) headers) final_rows).
End Writer.

End WriteMetadata.

(** ** The file written, read again *)

Module CsvFile.
Import Py WriteMetadata.
Local Open Scope string_scope.

(** [dict(zip(fieldnames, row))], the dict [csv.DictReader] builds for a row
    that has one cell for each field name. *)
Definition zip_row (fieldnames cells : list string) : list (string * string) :=
  fold_left (fun d hc => dict_set String.eqb (fst hc) (snd hc) d)
            (combine fieldnames cells) [].

(** What [_read_existing_csv] finds in a file that [append_records_to_csv]
    wrote: the header row and one dict per data row.  Without a single
    column every line of the file is blank, and blank lines are passed
    over. *)
Definition read_back (out : CsvOutput) : CsvTable :=
  mkCsvTable (header out)
             (match header out with
              | [] => []
              | _ :: _ => map (zip_row (header out)) (data out)
              end).

End CsvFile.

(** ** demo.py *)

Module DemoPy.
Import Py.
Local Open Scope string_scope.

Section Run.
(** What the run takes from outside: the iteration order of a set, the
    reader of an image's metadata, the size of a file and its rounding, the
    printing of floats, and the template file as it is parsed. *)
Variable set_order : list SelectImages.Path -> list SelectImages.Path.
Variable read_all_metadata : SelectImages.Path -> result ParseExif.Meta.
Variable stat_size : string -> result Z.
Variable rounded_ratio : Z -> Z -> Z -> result pyval.
Variable repr : pyval -> string.

(** The body of the loop over the selected paths. *)
Definition image_record (hierarchy : pyval) (path : SelectImages.Path)
  : result ParseExif.Meta :=
  bind (read_all_metadata path) (fun all_metadata =>
  bind (ParseExif.condense_metadata all_metadata) (fun condensed_metadata =>
  ParseExif.augment_condensed_metadata stat_size rounded_ratio path condensed_metadata
    hierarchy 1024 3)).

Fixpoint image_records (hierarchy : pyval) (image_paths : list SelectImages.Path)
  : result (list ParseExif.Meta) :=
  match image_paths with
  | [] => Ok []
  | path :: image_paths' =>
      bind (image_record hierarchy path) (fun augmented_metadata =>
      bind (image_records hierarchy image_paths') (fun image_metadata =>
      Ok (augmented_metadata :: image_metadata)))
  end.

(** [generate_metadata]: the table written to [output_path], or the error
    that ends the run before anything is written. *)
Definition generate_metadata (w : SelectImages.World)
    (image_directory : SelectImages.Path) (metadata_template : option WriteMetadata.CsvTable)
    (include_percentile : float) (hierarchy : pyval)
  : result WriteMetadata.CsvOutput :=
  bind (SelectImages.filter_images_by_rating set_order w image_directory
          include_percentile true true None) (fun filter_results =>
  let image_paths := SelectImages.selected filter_results in
  bind (image_records hierarchy image_paths) (fun image_metadata =>
  Ok (WriteMetadata.append_records_to_csv repr metadata_template image_metadata
        true true))).
End Run.

End DemoPy.

(** ** A demonstration folder *)

Module Demo.
Import Py SelectImages.
Open Scope string_scope.

Definition folder : Path := "photos".

Definition listing : list Path :=
["photos/a.jpg"; "photos/b.JPG"; "photos/C.jpg"; "photos/sub";
 "photos/d.png"; "photos/e.jpeg"; "photos/f.jpg"; "photos/notes.txt"].

(** The rows the tool prints: it skips f.jpg, and one row has no source. *)
Definition rows : list (list (string * pyval)) :=
[[("SourceFile", VStr "photos/a.jpg"); ("Rating", VInt 1)];
 [("SourceFile", VStr "photos/b.JPG"); ("MicrosoftPhoto:Rating", VStr "1")];
 [("SourceFile", VStr "photos/C.jpg"); ("Rating", VInt 2);
  ("MicrosoftPhoto:RatingPercent", VInt 25)];
 [("Rating", VInt 5)];
 [("SourceFile", VStr "photos/d.png"); ("MicrosoftPhoto:RatingPercent", VInt 50)];
 [("SourceFile", VStr "photos/e.jpeg"); ("Rating", VInt 7)]].

Definition world : World :=
mkWorld (fun p => String.eqb p "photos")
        (fun _ => listing)
        (fun _ => listing)
        (fun p => negb (String.eqb p "photos/sub"))
        true
        (fun _ => Ok rows).

Definition files : list Path :=
["photos/a.jpg"; "photos/b.JPG"; "photos/C.jpg";
 "photos/d.png"; "photos/e.jpeg"; "photos/f.jpg"].

Definition records : list RatingRecord :=
[mkRatingRecord "photos/a.jpg" (Some 1) (Some 1) None None;
 mkRatingRecord "photos/b.JPG" (Some 1) None (Some 1) None;
 mkRatingRecord "photos/C.jpg" (Some 2) (Some 2) None (Some 25);
 mkRatingRecord "photos/d.png" (Some 3) None None (Some 50);
 mkRatingRecord "photos/e.jpeg" (Some 5) (Some 7) None None].

End Demo.

(** ** Further sample worlds *)

Module Samples.
Import Py SelectImages.
Open Scope string_scope.

(** The demonstration folder when the tool reports nothing. *)
Definition silent_world : World :=
mkWorld (is_dir Demo.world) (rglob Demo.world) (iterdir Demo.world) (is_file Demo.world)
        true (fun _ => Ok []).

(** The demonstration folder on a machine without the tool. *)
Definition bare_world : World :=
mkWorld (is_dir Demo.world) (rglob Demo.world) (iterdir Demo.world) (is_file Demo.world)
        false (exiftool_output Demo.world).

(** What the filter returns for the demonstration folder at the median. *)
Definition median_result : FilterResult :=
mkFilterResult
  ["photos/C.jpg"; "photos/d.png"; "photos/e.jpeg"; "photos/f.jpg"]
  (Some 2)
  [mkRatingRecord "photos/a.jpg" (Some 1) (Some 1) None None;
   mkRatingRecord "photos/b.JPG" (Some 1) None (Some 1) None;
   mkRatingRecord "photos/C.jpg" (Some 2) (Some 2) None (Some 25);
   mkRatingRecord "photos/d.png" (Some 3) None None (Some 50);
   mkRatingRecord "photos/e.jpeg" (Some 5) (Some 7) None None]
  [mkRatingRecord "photos/f.jpg" None None None None]
  [("total_scanned", 6); ("rated", 5); ("unrated", 1); ("selected", 4)].

(** The demonstration folder when the tool spells the sources its own way
    (a leading "./", a doubled slash, a "." component), reports one file
    twice and pads a rating with blanks. *)
Definition respelled_rows : list (list (string * pyval)) :=
[[("SourceFile", VStr "./photos/a.jpg"); ("Rating", VStr " 1 ")];
 [("SourceFile", VStr "photos//b.JPG"); ("MicrosoftPhoto:Rating", VStr "1")];
 [("SourceFile", VStr "photos/./C.jpg"); ("Rating", VInt 4)];
 [("Rating", VInt 5)];
 [("SourceFile", VStr "photos/d.png"); ("MicrosoftPhoto:RatingPercent", VInt 50)];
 [("SourceFile", VStr "./photos/e.jpeg"); ("Rating", VInt 7)];
 [("SourceFile", VStr "photos/C.jpg"); ("Rating", VInt 2);
  ("MicrosoftPhoto:RatingPercent", VInt 25)]].

Definition respelled_world : World :=
mkWorld (is_dir Demo.world) (rglob Demo.world) (iterdir Demo.world) (is_file Demo.world)
        true (fun _ => Ok respelled_rows).

Definition respelled_records : list RatingRecord :=
[mkRatingRecord "photos/a.jpg" (Some 1) (Some 1) None None;
 mkRatingRecord "photos/b.JPG" (Some 1) None (Some 1) None;
 mkRatingRecord "photos/C.jpg" (Some 4) (Some 4) None None;
 mkRatingRecord "photos/d.png" (Some 3) None None (Some 50);
 mkRatingRecord "photos/e.jpeg" (Some 5) (Some 7) None None;
 mkRatingRecord "photos/C.jpg" (Some 2) (Some 2) None (Some 25)].

(** The demonstration folder when the tool finds no rating it can use: two
    rows, their sources respelled, one with a rating padded by the separator
    U+001C, which [int] does not take. *)
Definition unrated_rows : list (list (string * pyval)) :=
[[("SourceFile", VStr "./photos/a.jpg")];
 [("SourceFile", VStr "photos//f.jpg"); ("Rating", VStr (String "028" "5"))]].

Definition unrated_world : World :=
mkWorld (is_dir Demo.world) (rglob Demo.world) (iterdir Demo.world) (is_file Demo.world)
        true (fun _ => Ok unrated_rows).

Definition unrated_records : list RatingRecord :=
[mkRatingRecord "photos/a.jpg" None None None None;
 mkRatingRecord "photos/f.jpg" None None None None].

(** A reader that finds a description equal to the path and nothing else. *)
Definition plain_reader (p : SelectImages.Path) : result ParseExif.Meta :=
  Ok [("Description", VStr p)].

(** A reader that finds an empty description in one of the files. *)
Definition blank_reader (p : SelectImages.Path) : result ParseExif.Meta :=
  if String.eqb p "photos/d.png" then Ok [("Description", VStr "")]
  else Ok [("Description", VStr p)].

Definition template : WriteMetadata.CsvTable :=
  WriteMetadata.mkCsvTable ["title"; "hierarchy"] [[("title", "old"); ("hierarchy", "1")]].

(** Two records for the writer: they share the title, and the second brings
    a key before any key of the template it lacks. *)
Definition two_records : list (list (string * pyval)) :=
  [[("title", VStr "Sunset"); ("begin", VStr "2021"); ("number", VInt 3)];
   [("n_odd", VStr "Nashville, TN"); ("title", VStr "Lawn")]].

End Samples.

Module SamplePackets.
Import Py WindowsRating.
Open Scope string_scope.

(** A packet with the rating as an attribute and the percent as an
    element. *)
Definition packet : elem :=
  Elem "{adobe:ns:meta/}xmpmeta" [] None
    [Elem "{http://www.w3.org/1999/02/22-rdf-syntax-ns#}RDF" [] None
       [Elem "{http://www.w3.org/1999/02/22-rdf-syntax-ns#}Description"
          [("{http://ns.adobe.com/xap/1.0/}Rating", " 7 ")] None
          [Elem "{http://ns.microsoft.com/photo/1.2/}RatingPercent" [] (Some "25") []]]].

(** An image without embedded XMP whose sidecar holds the packet. *)
Definition good_sidecar : ImageWorld :=
  mkImageWorld (fun _ => Ok None) (fun _ => Ok packet)
               (fun p => p ++ ".xmp") (fun _ => Ok true) (fun _ => Ok "<x:xmpmeta/>").

(** An image without embedded XMP whose sidecar cannot be parsed. *)
Definition broken_sidecar : ImageWorld :=
  mkImageWorld (fun _ => Ok None) (fun _ => Raise ValueError)
               (fun p => p ++ ".xmp") (fun _ => Ok true) (fun _ => Ok "<x").

End SamplePackets.

(** ** Auxiliary notions used by the proofs *)

Module Aux.
Import Py.

(** [by_path] is keyed by the path of the record it holds, each path once. *)
Definition keyed (d : list (SelectImages.Path * SelectImages.RatingRecord)) : Prop :=
NoDup (map fst d) /\ forall k r, In (k, r) d -> SelectImages.path r = k.

(** The record the filter holds for the path [p]: the last one the tool gave
  for [p] or, for a scanned file the tool gave none for, the unrated
  record. *)
Definition held (files : list SelectImages.Path)
  (records : list SelectImages.RatingRecord)
  (p : SelectImages.Path) (r : SelectImages.RatingRecord) : Prop :=
(exists before after,
   records = (before ++ r :: after)%list /\ SelectImages.path r = p /\
   Forall (fun r' => SelectImages.path r' <> p) after) \/
(Forall (fun r' => SelectImages.path r' <> p) records /\ In p files /\
 r = SelectImages.mkRatingRecord p None None None None).

(** What the record of a row of the tool holds: the path object of its
  source, and the four values [_normalize_stars] gives. *)
Definition record_of_row (row : list (string * pyval)) (r : SelectImages.RatingRecord)
  : Prop :=
exists src,
  SelectImages.row_get "SourceFile" row = VStr src /\ src <> EmptyString /\
  SelectImages.path r = SelectImages.Path_of src /\
  SelectImages._normalize_stars row =
    (SelectImages.stars r, SelectImages.xmp_rating r, SelectImages.ms_rating r,
     SelectImages.ms_rating_percent r).

(** The state of the right shifter of [SpecFloat] after [j] steps from
  [(m, false, false)]: the quotient, and no sticky or round bit unless a
  remainder was dropped. *)
Definition shifted (m j : Z) (st : shr_record) : Prop :=
shr_m st = m / 2 ^ j /\
(shr_r st || shr_s st = true -> m mod 2 ^ j <> 0).

(** The clamp [min(1.0, max(0.0, q))] of [percentile_nearest_rank]. *)
Definition clamp (q : float) : spec_float :=
float_min (sf f_one) (float_max (sf f_zero) (sf q)).

(** The keys of a list of records in the order a reader meets them. *)
Definition all_keys {V : Type} (records : list (list (string * V))) : list string :=
flat_map (dict_keys (K:=string)) records.

(** First-seen order: every key once, at the place of its first occurrence. *)
Fixpoint first_seen (l : list string) : list string :=
match l with
| [] => []
| k :: l' => k :: filter (fun x => negb (String.eqb x k)) (first_seen l')
end.

(** The columns a run adds to the header [H] for the records [R]. *)
Definition new_columns {V : Type} (H : list string) (R : list (list (string * V)))
  : list string :=
first_seen (filter (fun k => negb (WriteMetadata.mem k H)) (all_keys R)).

(** The elements of a list, tuple or dict that holds scalar values only, as
  the specification's cell rule reads: a dict is a structure, its elements
  are its values. *)
Definition scalar_elements (v : pyval) : option (list pyval) :=
match v with
| VList l | VTuple l => if forallb WriteMetadata.is_scalar l then Some l else None
| VDict d =>
    if forallb WriteMetadata.is_scalar (dict_values d) then Some (dict_values d) else None
| _ => None
end.

(** The text of one element of a joined cell. *)
Definition element_text (repr : pyval -> string) (x : pyval) : string :=
match x with
| VNone => EmptyString
| _ => str repr x
end.

Definition is_nil {A : Type} (l : list A) : bool :=
match l with
| [] => true
| _ :: _ => false
end.

(** [n] spaces. *)
Fixpoint spaces (n : nat) : string :=
match n with
| O => EmptyString
| S n' => String " " (spaces n')
end.

(** Whitespace only (the empty string included). *)
Definition all_space (s : string) : bool :=
forallb is_space (list_ascii_of_string s).

(** The condensed field that decides each pair of descriptor fields, with
  the two fields and their values. *)
Definition descriptor_pairs : list (string * (string * string) * (string * string)) :=
[ ("begin", ("dates_label", "creation"), ("date_type", "single"));
  ("people_agent_header_1", ("people_agent_role_1", "creator"),
                            ("people_agent_relator_1", "photographer"));
  ("people_agent_header_2", ("people_agent_role_2", "subject"),
                            ("people_agent_relator_2", "associated name"));
  ("n_odd", ("p_odd", "Yes"), ("l_odd", "location"));
  ("subject_1_term", ("subject_1_type", "topical"),
                     ("subject_1_source", "local sources")) ]%string.

(** The size of the file can be had: it is missing, or it is there and the
  ratio to the base is computed. *)
Definition size_settled (stat_size : string -> result Z)
  (rounded_ratio : Z -> Z -> Z -> result pyval)
  (image_path : string) (mb_base round_digits : Z) : Prop :=
stat_size image_path = Raise FileNotFoundError \/
exists size_bytes mb,
  stat_size image_path = Ok size_bytes /\
  rounded_ratio size_bytes (mb_base ^ 2) round_digits = Ok mb.

(** The cell a record has under a header: its stringified value, or the
    empty string when it has no such key. *)
Definition cell_of (repr : pyval -> string) (rec : list (string * pyval)) (h : string)
  : string :=
  match dict_get String.eqb h rec with
  | Some v => WriteMetadata._normalize_cell repr v
  | None => EmptyString
  end.

End Aux.

(** ** Shapes of metadata and fields of a record *)

Module Shapes.
Import Py ParseExif.
Local Open Scope string_scope.

(** Some character of the string is not a plain space. *)
Definition has_ink (s : string) : bool :=
  existsb (fun c => negb (Ascii.eqb c " ")) (list_ascii_of_string s).

Definition has_char (c : ascii) (s : string) : bool :=
  existsb (Ascii.eqb c) (list_ascii_of_string s).

Definition ends_with_space (s : string) : bool :=
  match rev (list_ascii_of_string s) with
  | c :: _ => Ascii.eqb c " "
  | [] => false
  end.

Definition is_list (x : pyval) : bool :=
  match x with VList _ => true | _ => false end.

(** The title sources [condense_metadata] gets through: nothing, or a
    string with a character other than the space. *)
Definition title_ok (title : pyval) : bool :=
  match title with
  | VNone => true
  | VStr s => has_ink s
  | _ => false
  end.

(** The people sources it gets through: anything but a list, a list of one
    entry, or a list of strings behind a first entry that is a string or a
    list. *)
Definition people_ok (people : pyval) : bool :=
  match people with
  | VList [] => false
  | VList [_] => true
  | VList (x :: rest) => (is_str x || is_list x) && forallb is_str rest
  | _ => true
  end.

(** The location sources it gets through: anything but a dict, or a dict
    whose named parts are strings where they are not empty or missing. *)
Definition location_ok (loc : pyval) : bool :=
  match loc with
  | VDict d =>
      forallb (fun k => let x := get_or_none k d in negb (truthy x) || is_str x)
              ["Sublocation"; "City"; "ProvinceState"; "CountryName"]
  | _ => true
  end.

Definition condensed_keys : list string :=
  ["title"; "begin"; "people_agent_header_1"; "people_agent_header_2";
   "subject_1_term"; "n_odd"; "n_abstract"].

End Shapes.

Module Fields.
Import Py ParseExif.
Local Open Scope string_scope.

(** The fields [augment_condensed_metadata] may write. *)
Definition augment_keys : list string :=
  ["hierarchy"; "number"; "extent_type"; "restrictions_flag"; "processing_note";
   "portion"; "type_2"; "p_acqinfo"; "n_acqinfo";
   "dates_label"; "date_type"; "people_agent_role_1"; "people_agent_relator_1";
   "people_agent_role_2"; "people_agent_relator_2"; "p_odd"; "l_odd";
   "subject_1_type"; "subject_1_source"].

(** The fields it always writes, with the values that do not depend on the
    call. *)
Definition standard_fields : list (string * pyval) :=
  [("extent_type", VStr "MB"); ("restrictions_flag", VStr "Yes");
   ("processing_note",
    VStr "This picture was held in VandyVision, the digital asset management system called PhotoShelter.");
   ("portion", VStr "1"); ("type_2", VStr "Item"); ("p_acqinfo", VStr "Yes");
   ("n_acqinfo", VStr "PhotoShelter https://www.photoshelter.com")].

End Fields.

(** * Properties *)

Module RatingsFacts.
Import Ratings.

(** The nearest-cut search written out as thresholds. *)
Lemma stars_thresholds (p : Z) :
0 < p < 99 ->
_stars_from_percent p =
  if p <=? 13 then 1 else if p <=? 37 then 2
  else if p <=? 62 then 3 else if p <=? 87 then 4 else 5.
Proof.
intros Hp. unfold _stars_from_percent.
destruct (p <=? 0) eqn:E0; [apply Z.leb_le in E0; lia|].
destruct (p >=? 99) eqn:E1; [apply Z.geb_le in E1; lia|].
unfold Py.min_range_key, cuts, stars. cbn [List.length seq Py.min_key_from nth].
repeat match goal with
       | |- context [?a <? ?b] => destruct (Z.ltb_spec a b)
       | |- context [?a <=? ?b] => destruct (Z.leb_spec a b)
       end; cbn [nth]; try reflexivity; exfalso; lia.
Qed.

Lemma min_key_from_seq (key : nat -> Z) :
forall (k a best : nat),
  (best < a)%nat ->
  (forall j, (best < j < a)%nat -> key best <= key j) ->
  let r := Py.min_key_from key best (seq a k) in
  (best <= r < a + k)%nat /\
  (forall j, (best <= j < a + k)%nat -> key r <= key j) /\
  (forall j, (best <= j < r)%nat -> key r < key j).
Proof.
induction k as [|k IH]; intros a best Hlt Hbest; cbn [seq Py.min_key_from].
- repeat split; try lia.
  intros j Hj. destruct (Nat.eq_dec j best) as [->|Hne]; [lia|].
  apply Hbest; lia.
- destruct (Z.ltb_spec (key a) (key best)) as [Hlow|Hhigh].
  + destruct (IH (S a) a) as (Hr & Hmin & Hfirst); [lia | intros; lia |].
    set (r := Py.min_key_from key a (seq (S a) k)) in *.
    assert (Hbelow : forall j, (best <= j < a)%nat -> key r < key j).
    { intros j Hj. specialize (Hmin a ltac:(lia)).
      destruct (Nat.eq_dec j best) as [->|Hne]; [lia|].
      specialize (Hbest j ltac:(lia)). lia. }
    repeat split; try lia.
    * intros j Hj. destruct (Nat.lt_ge_cases j a) as [Hja|Hja].
      -- specialize (Hbelow j ltac:(lia)). lia.
      -- apply Hmin; lia.
    * intros j Hj. destruct (Nat.lt_ge_cases j a) as [Hja|Hja].
      -- apply Hbelow; lia.
      -- apply Hfirst; lia.
  + destruct (IH (S a) best) as (Hr & Hmin & Hfirst); [lia | |].
    { intros j Hj. destruct (Nat.eq_dec j a) as [->|Hne]; [lia|].
      apply Hbest; lia. }
    repeat split; try lia.
    * intros j Hj. apply Hmin; lia.
    * intros j Hj. apply Hfirst; lia.
Qed.

Lemma min_range_key_spec (n : nat) (key : nat -> Z) :
(0 < n)%nat ->
let r := Py.min_range_key n key in
(r < n)%nat /\
(forall j, (j < n)%nat -> key r <= key j) /\
(forall j, (j < r)%nat -> key r < key j).
Proof.
intros Hn. destruct n as [|n]; [lia|].
unfold Py.min_range_key. cbn [seq].
destruct (min_key_from_seq key n 1 0) as (Hr & Hmin & Hfirst);
  [lia | intros; lia |].
repeat split; try lia.
- intros j Hj. apply Hmin; lia.
- intros j Hj. apply Hfirst; lia.
Qed.

Lemma stars_range (p : Z) : 0 <= _stars_from_percent p <= 5.
Proof.
destruct (Z.le_gt_cases p 0) as [H0|H0].
{ unfold _stars_from_percent. destruct (Z.leb_spec p 0); lia. }
destruct (Z.le_gt_cases 99 p) as [H1|H1].
{ unfold _stars_from_percent. destruct (Z.leb_spec p 0); [lia|].
  destruct (p >=? 99) eqn:E; [lia|]. rewrite Z.geb_leb in E.
  apply Z.leb_gt in E. lia. }
rewrite stars_thresholds by lia.
repeat match goal with
       | |- context [?a <=? ?b] => destruct (Z.leb_spec a b)
       end; lia.
Qed.

Lemma stars_low (p : Z) : p <= 0 -> _stars_from_percent p = 0.
Proof.
intros H. unfold _stars_from_percent. destruct (Z.leb_spec p 0); [reflexivity|lia].
Qed.

Lemma stars_high (p : Z) : 99 <= p -> _stars_from_percent p = 5.
Proof.
intros H. unfold _stars_from_percent. destruct (Z.leb_spec p 0); [lia|].
destruct (p >=? 99) eqn:E; [reflexivity|].
rewrite Z.geb_leb in E. apply Z.leb_gt in E. lia.
Qed.

Lemma stars_monotone (p p' : Z) :
p <= p' -> _stars_from_percent p <= _stars_from_percent p'.
Proof.
intros Hle.
destruct (Z.le_gt_cases p 0) as [H0|H0].
{ rewrite (stars_low p H0). apply stars_range. }
destruct (Z.le_gt_cases 99 p') as [H1|H1].
{ rewrite (stars_high p' H1). apply stars_range. }
rewrite !stars_thresholds by lia.
repeat match goal with
       | |- context [?a <=? ?b] => destruct (Z.leb_spec a b)
       end; lia.
Qed.

(** C3: the percent-to-stars mapping of both modules lands in 0..5, is
  non-decreasing, sends every p <= 0 to 0 and every p >= 99 to 5, and
  strictly between picks the star of the cut in 1, 25, 50, 75, 99 that is
  nearest by absolute distance, the lower index winning a tie. *)
Theorem stars_from_percent_nearest_cut (p p' : Z) :
SelectImages._stars_from_percent (Some p) = Some (_stars_from_percent p) /\
In (_stars_from_percent p) [0; 1; 2; 3; 4; 5] /\
(p <= p' -> _stars_from_percent p <= _stars_from_percent p') /\
(p <= 0 -> _stars_from_percent p = 0) /\
(99 <= p -> _stars_from_percent p = 5) /\
(0 < p < 99 ->
 exists i : nat,
   (i < 5)%nat /\
   _stars_from_percent p = nth i stars 0 /\
   nth i stars 0 = Z.of_nat i + 1 /\
   (forall j, (j < 5)%nat ->
              Z.abs (nth i cuts 0 - p) <= Z.abs (nth j cuts 0 - p)) /\
   (forall j, (j < i)%nat ->
              Z.abs (nth i cuts 0 - p) < Z.abs (nth j cuts 0 - p))).
Proof.
split; [|split; [|split; [|split; [|split]]]].
- unfold SelectImages._stars_from_percent, _stars_from_percent, cuts, stars.
  destruct (p <=? 0); [reflexivity|]. destruct (p >=? 99); reflexivity.
- pose proof (stars_range p) as Hr. cbn [In].
  assert (H : _stars_from_percent p = 0 \/ _stars_from_percent p = 1 \/
              _stars_from_percent p = 2 \/ _stars_from_percent p = 3 \/
              _stars_from_percent p = 4 \/ _stars_from_percent p = 5) by lia.
  intuition congruence.
- apply stars_monotone.
- apply stars_low.
- apply stars_high.
- intros Hp.
  pose proof (min_range_key_spec (List.length cuts)
                (fun i => Z.abs (nth i cuts 0 - p))) as Hspec.
  cbv zeta in Hspec. destruct Hspec as (Hr & Hmin & Hfirst); [cbn; lia|].
  exists (Py.min_range_key (List.length cuts) (fun i => Z.abs (nth i cuts 0 - p))).
  set (i := Py.min_range_key _ _) in *.
  change (List.length cuts) with 5%nat in *.
  split; [exact Hr|]. split.
  + unfold _stars_from_percent.
    destruct (Z.leb_spec p 0); [lia|].
    destruct (p >=? 99) eqn:E; [rewrite Z.geb_leb in E; apply Z.leb_le in E; lia|].
    reflexivity.
  + split; [|split; [exact Hmin | exact Hfirst]].
    destruct i as [|[|[|[|[|i]]]]]; try reflexivity; lia.
Qed.

(** Witness for C3 at p = 37, p' = 38: the tie-free neighbours of the
  boundary between two and three stars. *)
Lemma stars_from_percent_nearest_cut_witness :
_stars_from_percent 37 <= _stars_from_percent 38 /\
_stars_from_percent 0 = 0 /\
_stars_from_percent 99 = 5 /\
exists i : nat, (i < 5)%nat /\ _stars_from_percent 37 = nth i stars 0.
Proof.
split; [|split; [|split]].
- apply (stars_from_percent_nearest_cut 37 38). lia.
- apply (stars_from_percent_nearest_cut 0 0). lia.
- apply (stars_from_percent_nearest_cut 99 99). lia.
- destruct (stars_from_percent_nearest_cut 37 37) as (_ & _ & _ & _ & _ & H).
  destruct (H ltac:(lia)) as (i & Hi & Hs & _).
  exists i. split; assumption.
Defined.

End RatingsFacts.

(** ** Floating-point facts behind the rank computation *)

Module FloatFacts.
Import Py Aux.

Lemma digits2_size (p : positive) : digits2_pos p = Pos.size p.
Proof. induction p; cbn; congruence. Qed.

Lemma digits_upper (p : positive) : Zpos p < 2 ^ Zpos (digits2_pos p).
Proof.
rewrite digits2_size. pose proof (Pos.size_gt p) as H.
apply Pos2Z.pos_lt_pos in H. rewrite Pos2Z.inj_pow in H. exact H.
Qed.

Lemma digits_lower (p : positive) : 2 ^ (Zpos (digits2_pos p) - 1) <= Zpos p.
Proof.
rewrite digits2_size. pose proof (Pos.size_le p) as H.
apply Pos2Z.pos_le_pos in H. rewrite Pos2Z.inj_pow in H.
change (Zpos p~0) with (2 * Zpos p) in H.
replace (Zpos (Pos.size p)) with (Z.succ (Zpos (Pos.size p) - 1)) in H by lia.
rewrite Z.pow_succ_r in H by lia. lia.
Qed.

Lemma digits_le_of_lt (p : positive) (a : Z) :
0 <= a -> Zpos p < 2 ^ a -> Zpos (digits2_pos p) <= a.
Proof.
intros Ha Hlt. pose proof (digits_lower p) as Hl.
destruct (Z.le_gt_cases (Zpos (digits2_pos p)) a) as [H|H]; [exact H|].
exfalso. assert (2 ^ a <= 2 ^ (Zpos (digits2_pos p) - 1)).
{ apply Z.pow_le_mono_r; lia. }
lia.
Qed.

Lemma shr_1_shifted (m j : Z) (st : shr_record) :
0 <= m -> 0 <= j -> shifted m j st -> shifted m (j + 1) (shr_1 st).
Proof.
intros Hm Hj [Hq Hrs]. destruct st as [m' r s]. cbn [shr_m shr_r shr_s] in *.
assert (Hpow : 2 ^ (j + 1) = 2 ^ j * 2) by (rewrite Z.pow_add_r by lia; lia).
assert (Hpos : 0 < 2 ^ j) by (apply Z.pow_pos_nonneg; lia).
assert (Hdiv : m / 2 ^ (j + 1) = m' / 2).
{ rewrite Hpow, <- Z.div_div by lia. congruence. }
assert (Hm' : 0 <= m') by (subst m'; apply Z.div_pos; lia).
assert (Hzero : m mod 2 ^ (j + 1) = 0 -> m mod 2 ^ j = 0 /\ m' mod 2 = 0).
{ intros H0. rewrite Hpow in H0.
  rewrite Z.rem_mul_r in H0 by lia.
  pose proof (Z.mod_pos_bound m (2 ^ j) Hpos).
  pose proof (Z.mod_pos_bound (m / 2 ^ j) 2 ltac:(lia)).
  subst m'. nia. }
assert (Hs : r || s = true -> m mod 2 ^ (j + 1) <> 0).
{ intros Hr H0. apply Hrs; [exact Hr | apply Hzero, H0]. }
unfold shifted.
destruct m' as [|[p|p|]|p]; cbn [shr_1 shr_m shr_r shr_s]; try lia.
- split; [rewrite Hdiv; reflexivity|].
  intros H. rewrite orb_false_l in H. apply Hs; exact H.
- split; [rewrite Hdiv, Pos2Z.inj_xI; apply Z.div_unique with 1; lia|].
  intros _ H0. apply Hzero in H0. destruct H0 as [_ H0].
  rewrite Pos2Z.inj_xI in H0. rewrite Z.add_comm, Z.mul_comm, Z.mod_add in H0 by lia.
  discriminate.
- split; [rewrite Hdiv, Pos2Z.inj_xO; apply Z.div_unique with 0; lia|].
  intros H. rewrite orb_false_l in H. apply Hs; exact H.
- split; [rewrite Hdiv; reflexivity|].
  intros _ H0. apply Hzero in H0. destruct H0 as [_ H0]. discriminate.
Qed.

Lemma iter_shr_1_shifted (m : Z) (Hm : 0 <= m) :
forall (p : positive) (j : Z) (st : shr_record),
  0 <= j -> shifted m j st -> shifted m (j + Zpos p) (iter_pos shr_1 p st).
Proof.
induction p as [p IH|p IH|]; intros j st Hj Hst; cbn [iter_pos].
- replace (j + Zpos p~1) with (((j + 1) + Zpos p) + Zpos p) by lia.
  apply IH; [lia|]. apply IH; [lia|]. apply shr_1_shifted; assumption.
- replace (j + Zpos p~0) with ((j + Zpos p) + Zpos p) by lia.
  apply IH; [lia|]. apply IH; assumption.
- apply shr_1_shifted; assumption.
Qed.

Lemma shr_spec (m e n : Z) :
0 <= m ->
exists st, shr (Build_shr_record m false false) e n = (st, e + Z.max 0 n) /\
           shifted m (Z.max 0 n) st.
Proof.
intros Hm.
assert (H0 : shifted m 0 (Build_shr_record m false false)).
{ split; cbn; [rewrite Z.div_1_r; reflexivity | discriminate]. }
destruct n as [|p|p]; cbn [shr].
- exists (Build_shr_record m false false). rewrite Z.add_0_r. split; [reflexivity | exact H0].
- exists (iter_pos shr_1 p (Build_shr_record m false false)).
  rewrite Z.max_r by lia. split; [reflexivity|].
  apply (iter_shr_1_shifted m Hm p 0); [lia | exact H0].
- exists (Build_shr_record m false false). rewrite Z.max_l by lia.
  rewrite Z.add_0_r. split; [reflexivity | exact H0].
Qed.

Lemma round_after_shift (m k t : Z) (st : shr_record) :
0 <= m -> 0 <= k -> shifted m k st -> m <= t * 2 ^ k ->
let c := round_nearest_even (shr_m st) (loc_of_shr_record st) in
0 <= c <= t /\ (m mod 2 ^ k = 0 -> c = m / 2 ^ k).
Proof.
intros Hm Hk [Hq Hrs] Ht c.
assert (Hpos : 0 < 2 ^ k) by (apply Z.pow_pos_nonneg; lia).
pose proof (Z.div_mod m (2 ^ k) ltac:(lia)) as Hdm.
pose proof (Z.mod_pos_bound m (2 ^ k) Hpos) as Hmod.
assert (Hq0 : 0 <= m / 2 ^ k) by (apply Z.div_pos; lia).
destruct st as [m' r s]. cbn [shr_m shr_r shr_s] in *. subst m'.
assert (Hexact : r || s = false -> c = m / 2 ^ k).
{ intros H. apply orb_false_elim in H. destruct H; subst r s. reflexivity. }
assert (Hup : c <= m / 2 ^ k + 1 /\ m / 2 ^ k <= c).
{ subst c. destruct r, s; cbn [loc_of_shr_record round_nearest_even]; try lia.
  destruct (Z.even (m / 2 ^ k)); lia. }
split.
- destruct (r || s) eqn:Ers.
  + specialize (Hrs eq_refl). split; [lia|]. nia.
  + rewrite (Hexact eq_refl). split; [lia|]. nia.
- intros H0. apply Hexact. destruct (r || s); [|reflexivity].
  exfalso. apply Hrs; [reflexivity | exact H0].
Qed.

Lemma fexp_le_0 (d : Z) : d <= 53 -> fexp prec emax d <= 0.
Proof. unfold fexp, emin, prec, emax. lia. Qed.

Lemma Zdigits2_le (c a : Z) : 0 <= c -> 0 <= a -> c < 2 ^ a -> Zdigits2 c <= a.
Proof.
intros Hc Ha Hlt. destruct c as [|p|p]; cbn [Zdigits2]; [lia | | lia].
apply digits_le_of_lt; assumption.
Qed.

(** Rounding a positive product that does not exceed the integer [n] gives
  a float whose ceiling does not exceed [n] either. *)
Lemma round_aux_upper (M : positive) (E n : Z) :
E <= 0 -> 0 < n < 2 ^ 53 -> Zpos M <= n * 2 ^ (- E) ->
exists c, ceil (binary_round_aux prec emax false (Zpos M) E loc_Exact) = Ok c /\
          0 <= c <= n.
Proof.
intros HE Hn HM. unfold binary_round_aux, shr_fexp.
cbn [shr_record_of_loc].
destruct (shr_spec (Zpos M) E (fexp prec emax (Zdigits2 (Zpos M) + E) - E) ltac:(lia))
  as (st & Hshr & Hst).
rewrite Hshr. set (k := Z.max 0 (fexp prec emax (Zdigits2 (Zpos M) + E) - E)) in *.
assert (Hk : 0 <= k) by (unfold k; lia).
assert (HpE : 0 < 2 ^ (- E)) by (apply Z.pow_pos_nonneg; lia).
assert (HMlt : Zpos M < 2 ^ (53 - E)).
{ replace (53 - E) with (53 + - E) by lia. rewrite Z.pow_add_r by lia. nia. }
assert (He' : E + k <= 0).
{ pose proof (Zdigits2_le (Zpos M) (53 - E) ltac:(lia) ltac:(lia) HMlt) as Hd.
  pose proof (fexp_le_0 (Zdigits2 (Zpos M) + E) ltac:(lia)). unfold k. lia. }
set (e' := E + k) in *.
assert (Hpe' : 0 < 2 ^ (- e')) by (apply Z.pow_pos_nonneg; lia).
assert (Hsplit : 2 ^ (- E) = 2 ^ (- e') * 2 ^ k).
{ rewrite <- Z.pow_add_r by lia. f_equal. unfold e'. lia. }
destruct (round_after_shift (Zpos M) k (n * 2 ^ (- e')) st ltac:(lia) Hk Hst)
  as [Hc _]; [rewrite <- Z.mul_assoc, <- Hsplit; exact HM|].
set (c1 := round_nearest_even (shr_m st) (loc_of_shr_record st)) in *.
destruct (shr_spec c1 e' (fexp prec emax (Zdigits2 c1 + e') - e') ltac:(lia))
  as (st2 & Hshr2 & Hst2).
rewrite Hshr2. set (k2 := Z.max 0 (fexp prec emax (Zdigits2 c1 + e') - e')) in *.
assert (Hk2 : 0 <= k2) by (unfold k2; lia).
assert (Hc1lt : c1 < 2 ^ (53 - e')).
{ replace (53 - e') with (53 + - e') by lia. rewrite Z.pow_add_r by lia. nia. }
assert (He2 : e' + k2 <= 0).
{ pose proof (Zdigits2_le c1 (53 - e') ltac:(lia) ltac:(lia) Hc1lt) as Hd.
  pose proof (fexp_le_0 (Zdigits2 c1 + e') ltac:(lia)). unfold k2. lia. }
set (e2 := e' + k2) in *.
assert (Hpe2 : 0 < 2 ^ (- e2)) by (apply Z.pow_pos_nonneg; lia).
assert (Hpk2 : 0 < 2 ^ k2) by (apply Z.pow_pos_nonneg; lia).
assert (Hsplit2 : 2 ^ (- e') = 2 ^ (- e2) * 2 ^ k2).
{ rewrite <- Z.pow_add_r by lia. f_equal. unfold e2. lia. }
destruct Hst2 as [Hm2 _].
assert (Hm2le : 0 <= shr_m st2 <= n * 2 ^ (- e2)).
{ rewrite Hm2. split; [apply Z.div_pos; lia|].
  apply Z.div_le_upper_bound; [lia|]. rewrite Hsplit2 in Hc. nia. }
destruct (shr_m st2) as [|m|m] eqn:Em; [| |lia].
- exists 0. cbn. split; [reflexivity | lia].
- replace (e2 <=? emax - prec) with true
    by (symmetry; apply Z.leb_le; unfold emax, prec; lia).
  cbn [ceil cond_Zopp]. eexists. split; [reflexivity|].
  destruct (Z.leb_spec 0 e2) as [H0|H0].
  + assert (e2 = 0) by lia. replace (- e2) with 0 in * by lia.
    rewrite H. cbn in Hm2le |- *. lia.
  + assert (Hdiv : - n <= - Zpos m / 2 ^ (- e2)).
    { apply Z.div_le_lower_bound; [lia|]. nia. }
    assert (Hneg : - Zpos m / 2 ^ (- e2) < 0).
    { apply Z.div_lt_upper_bound; lia. }
    lia.
Qed.

Lemma digits_unique (p : positive) (d : Z) :
2 ^ (d - 1) <= Zpos p < 2 ^ d -> Zpos (digits2_pos p) = d.
Proof.
intros [Hl Hu]. pose proof (digits_lower p) as Hl'. pose proof (digits_upper p) as Hu'.
assert (Hd : 0 < d).
{ destruct (Z.lt_ge_cases 0 d) as [H|H]; [exact H|].
  destruct (Z.eq_dec d 0) as [->|Hne]; [cbn in Hu; lia|].
  rewrite Z.pow_neg_r in Hu by lia. lia. }
destruct (Z.lt_trichotomy (Zpos (digits2_pos p)) d) as [H|[H|H]]; [|exact H|].
- assert (2 ^ Zpos (digits2_pos p) <= 2 ^ (d - 1)) by (apply Z.pow_le_mono_r; lia). lia.
- assert (2 ^ d <= 2 ^ (Zpos (digits2_pos p) - 1)) by (apply Z.pow_le_mono_r; lia). lia.
Qed.

(** A mantissa that already sits at its canonical exponent is left alone. *)
Lemma round_aux_canonical (s : bool) (m : positive) (e : Z) :
fexp prec emax (Zpos (digits2_pos m) + e) = e -> e <= emax - prec ->
binary_round_aux prec emax s (Zpos m) e loc_Exact = S754_finite s m e.
Proof.
intros Hc He. unfold binary_round_aux, shr_fexp. cbn [Zdigits2 shr_record_of_loc].
rewrite Hc, Z.sub_diag. cbn [shr shr_m loc_of_shr_record round_nearest_even Zdigits2].
rewrite Hc, Z.sub_diag. cbn [shr shr_m].
apply Z.leb_le in He. rewrite He. reflexivity.
Qed.

Lemma iter_xO_value (p d : positive) :
Zpos (Pos.iter xO p d) = Zpos p * 2 ^ Zpos d.
Proof.
induction d as [|d IH] using Pos.peano_ind.
- cbn. lia.
- rewrite Pos.iter_succ, Pos2Z.inj_xO, IH, Pos2Z.inj_succ, Z.pow_succ_r by lia. lia.
Qed.

(** Conversion of a positive integer below 2^53 is exact. *)
Lemma float_of_int_exact (n : Z) :
0 < n < 2 ^ 53 ->
exists (m : positive) (e : Z),
  float_of_int n = Ok (S754_finite false m e) /\
  - 52 <= e <= 0 /\ Zpos m = n * 2 ^ (- e) /\ Zpos (digits2_pos m) = 53.
Proof.
intros Hn. destruct n as [|p|p]; try lia.
unfold float_of_int, binary_normalize, binary_round.
pose proof (digits_lower p) as Hl. pose proof (digits_upper p) as Hu.
pose proof (digits_le_of_lt p 53 ltac:(lia) ltac:(lia)) as Hd.
set (d := Zpos (digits2_pos p)) in *.
assert (Hfexp : fexp prec emax (d + 0) = d - 53).
{ unfold fexp, emin, prec, emax. lia. }
rewrite Hfexp. unfold shl_align. rewrite Z.sub_0_r.
destruct (d - 53) as [|k|k] eqn:Ek; try lia.
- assert (Hd53 : d = 53) by lia.
  rewrite round_aux_canonical.
  + exists p, 0. repeat split; lia.
  + fold d. rewrite Hd53. reflexivity.
  + unfold emax, prec. lia.
- assert (Hval : Zpos (Pos.iter xO p k) = Zpos p * 2 ^ (53 - d)).
  { rewrite iter_xO_value. f_equal. f_equal. lia. }
  assert (Hpow : 2 ^ 53 = 2 ^ d * 2 ^ (53 - d)).
  { rewrite <- Z.pow_add_r by lia. f_equal. lia. }
  assert (Hpow' : 2 ^ 52 = 2 ^ (d - 1) * 2 ^ (53 - d)).
  { rewrite <- Z.pow_add_r by lia. f_equal. lia. }
  assert (Hpp : 0 < 2 ^ (53 - d)) by (apply Z.pow_pos_nonneg; lia).
  assert (Hdig : Zpos (digits2_pos (Pos.iter xO p k)) = 53).
  { apply digits_unique. rewrite Hval. change (53 - 1) with 52. nia. }
  rewrite round_aux_canonical.
  + exists (Pos.iter xO p k), (Zneg k). repeat split; try lia.
    rewrite Hval. f_equal. f_equal. lia.
  + rewrite Hdig. unfold fexp, emin, prec, emax. lia.
  + unfold emax, prec. lia.
Qed.

(** Multiplying a 53-bit mantissa by 2^52 and rounding at an exponent 52
  lower gives the mantissa back: the product by 1.0 is exact. *)
Lemma round_aux_times_one (m : positive) (e : Z) :
Zpos (digits2_pos m) = 53 -> - 52 <= e <= 0 ->
binary_round_aux prec emax false (Zpos (4503599627370496 * m)) (- 52 + e) loc_Exact
= S754_finite false m e.
Proof.
intros Hd He.
pose proof (digits_lower m) as Hl. pose proof (digits_upper m) as Hu.
rewrite Hd in Hl, Hu. change (53 - 1) with 52 in Hl.
assert (HM : Zpos (4503599627370496 * m) = Zpos m * 2 ^ 52).
{ rewrite Pos2Z.inj_mul. change (Zpos 4503599627370496) with (2 ^ 52). lia. }
assert (HdM : Zpos (digits2_pos (4503599627370496 * m)) = 105).
{ apply digits_unique. rewrite HM. change (105 - 1) with (52 + 52).
  change 105 with (53 + 52). rewrite !Z.pow_add_r by lia.
  assert (0 < 2 ^ 52) by (apply Z.pow_pos_nonneg; lia). nia. }
unfold binary_round_aux, shr_fexp. cbn [Zdigits2 shr_record_of_loc].
rewrite HdM.
replace (fexp prec emax (105 + (- 52 + e)) - (- 52 + e)) with 52
  by (unfold fexp, emin, prec, emax; lia).
destruct (shr_spec (Zpos (4503599627370496 * m)) (- 52 + e) 52 ltac:(lia))
  as (st & Hshr & Hst).
rewrite Hshr. change (Z.max 0 52) with 52 in *.
assert (Hmod : Zpos (4503599627370496 * m) mod 2 ^ 52 = 0).
{ rewrite HM. apply Z.mod_mul. lia. }
assert (Hquo : Zpos (4503599627370496 * m) / 2 ^ 52 = Zpos m).
{ rewrite HM. apply Z.div_mul. lia. }
destruct (round_after_shift (Zpos (4503599627370496 * m)) 52 (Zpos m) st
            ltac:(lia) ltac:(lia) Hst) as [_ Hc].
{ rewrite HM. lia. }
rewrite (Hc Hmod), Hquo.
replace (- 52 + e + 52) with e by lia.
cbn [Zdigits2]. rewrite Hd.
replace (fexp prec emax (53 + e) - e) with 0
  by (unfold fexp, emin, prec, emax; lia).
cbn [shr shr_m].
replace (e <=? emax - prec) with true
  by (symmetry; apply Z.leb_le; unfold emax, prec; lia).
reflexivity.
Qed.

Lemma clamp_cases (q : float) :
clamp q = S754_zero false \/
clamp q = sf f_one \/
exists m e, clamp q = S754_finite false m e /\ sf q = S754_finite false m e /\
            e <= - 53 /\ Zpos m < 2 ^ (- e).
Proof.
destruct q as [x Hv]. unfold clamp. cbn [sf].
destruct x as [s|s| |s m e].
- left. reflexivity.
- destruct s; [left | right; left]; reflexivity.
- left. reflexivity.
- destruct s; [left; reflexivity|].
  change (bounded prec emax m e = true) in Hv.
  unfold bounded, canonical_mantissa in Hv.
  apply andb_prop in Hv. destruct Hv as [Hcan _]. apply Z.eqb_eq in Hcan.
  pose proof (digits_lower m) as Hl. pose proof (digits_upper m) as Hu.
  assert (Hd : Zpos (digits2_pos m) <= 53).
  { unfold fexp, emin, prec, emax in Hcan. lia. }
  assert (Hm53 : Zpos m < 2 ^ 53).
  { assert (2 ^ Zpos (digits2_pos m) <= 2 ^ 53) by (apply Z.pow_le_mono_r; lia). lia. }
  assert (Hmax : float_max (sf f_zero) (S754_finite false m e) = S754_finite false m e)
    by reflexivity.
  rewrite Hmax. unfold float_min, SFltb. cbn [f_one sf SFcompare].
  destruct (Z.compare_spec e (-52)) as [He|He|He].
  + rewrite Pos.compare_cont_spec.
    destruct (Pos.compare_spec m 4503599627370496) as [Ec|Ec|Ec];
      cbn [Pos.switch_Eq].
    * right; left; reflexivity.
    * exfalso.
      assert (Hlt : Zpos m < 2 ^ 52).
      { change (2 ^ 52) with (Zpos 4503599627370496).
        apply Pos2Z.pos_lt_pos. exact Ec. }
      pose proof (digits_le_of_lt m 52 ltac:(clear; lia) Hlt) as Hd52.
      unfold fexp, emin, prec, emax in Hcan. clear - Hcan Hd52 He. lia.
    * right; left; reflexivity.
  + right; right. exists m, e.
    assert (2 ^ 53 <= 2 ^ (- e)) by (apply Z.pow_le_mono_r; lia).
    split; [reflexivity|]. split; [reflexivity|]. split; lia.
  + right; left. reflexivity.
Qed.

(** [ceil(q * n)] for the clamped [q] exists and lies between 0 and [n]. *)
Lemma ceil_mul_bound (q : float) (n : Z) :
0 < n < 2 ^ 53 ->
exists c, bind (float_mul_int (clamp q) n) ceil = Ok c /\ 0 <= c <= n.
Proof.
intros Hn. destruct (float_of_int_exact n Hn) as (mn & en & Hf & Hen & Hmn & Hdn).
unfold float_mul_int. rewrite Hf. cbn [bind].
assert (Hpen : 0 < 2 ^ (- en)) by (apply Z.pow_pos_nonneg; lia).
assert (Hone : forall m e, e < 0 -> Zpos m <= 2 ^ (- e) ->
          exists c, ceil (SFmul prec emax (S754_finite false m e) (S754_finite false mn en)) = Ok c
                    /\ 0 <= c <= n).
{ intros m e He Hm. cbn [SFmul xorb].
  apply round_aux_upper; [lia | exact Hn |].
  rewrite Pos2Z.inj_mul, Hmn.
  replace (- (e + en)) with (- e + - en) by lia.
  rewrite Z.pow_add_r by lia.
  assert (0 < 2 ^ (- e)) by (apply Z.pow_pos_nonneg; lia). nia. }
destruct (clamp_cases q) as [Hq|[Hq|(m & e & Hq & _ & He & Hm)]]; rewrite Hq.
- exists 0. cbn. split; [reflexivity | lia].
- apply Hone; [clear; lia | apply Z.leb_le; vm_compute; reflexivity].
- apply Hone; lia.
Qed.

Lemma ceil_mul_one (n : Z) :
0 < n < 2 ^ 53 -> bind (float_mul_int (sf f_one) n) ceil = Ok n.
Proof.
intros Hn. destruct (float_of_int_exact n Hn) as (mn & en & Hf & Hen & Hmn & Hdn).
unfold float_mul_int. rewrite Hf. cbn [bind f_one sf SFmul xorb].
rewrite round_aux_times_one by assumption.
cbn [ceil cond_Zopp]. f_equal.
assert (Hpen : 0 < 2 ^ (- en)) by (apply Z.pow_pos_nonneg; lia).
destruct (Z.leb_spec 0 en) as [H0|H0].
- assert (en = 0) by lia. subst en. cbn in Hmn |- *. lia.
- rewrite Hmn. rewrite <- Z.mul_opp_l, Z.div_mul by lia. lia.
Qed.

Lemma ceil_mul_zero (n : Z) :
0 < n < 2 ^ 53 -> bind (float_mul_int (S754_zero false) n) ceil = Ok 0.
Proof.
intros Hn. destruct (float_of_int_exact n Hn) as (mn & en & Hf & _).
unfold float_mul_int. rewrite Hf. reflexivity.
Qed.

End FloatFacts.

(** ** Sorting *)

Module SortFacts.
Import Py.

Section Sort.
Context {A : Type} (le : A -> A -> bool).
Hypothesis le_total : forall a b, le a b = true \/ le b a = true.

Lemma insert_by_perm (x : A) (l : list A) :
  Permutation (insert_by le x l) (x :: l).
Proof.
  induction l as [|y l IH]; cbn [insert_by]; [reflexivity|].
  destruct (le x y); [reflexivity|].
  rewrite IH. apply perm_swap.
Qed.

Lemma sorted_perm (l : list A) : Permutation (sorted le l) l.
Proof.
  induction l as [|x l IH]; cbn [sorted]; [reflexivity|].
  rewrite insert_by_perm. apply perm_skip, IH.
Qed.

Lemma sorted_length (l : list A) : List.length (sorted le l) = List.length l.
Proof. apply Permutation_length, sorted_perm. Qed.

Lemma insert_by_hd (R : A -> A -> Prop) (a x : A) (l : list A) :
  R a x -> HdRel R a l -> HdRel R a (insert_by le x l).
Proof.
  intros Hax Hl. destruct l as [|y l]; cbn [insert_by].
  - constructor. exact Hax.
  - destruct (le x y); constructor; [exact Hax|].
    inversion Hl; assumption.
Qed.

Lemma insert_by_sorted (x : A) (l : list A) :
  Sorted (fun a b => le a b = true) l ->
  Sorted (fun a b => le a b = true) (insert_by le x l).
Proof.
  induction l as [|y l IH]; intros Hs; cbn [insert_by].
  - repeat constructor.
  - destruct (le x y) eqn:Exy.
    + constructor; [exact Hs | constructor; exact Exy].
    + inversion Hs as [|? ? Hs' Hhd]; subst.
      constructor; [apply IH; exact Hs'|].
      apply insert_by_hd; [|exact Hhd].
      destruct (le_total x y) as [H|H]; [congruence | exact H].
Qed.

Lemma sorted_sorted (l : list A) :
  Sorted (fun a b => le a b = true) (sorted le l).
Proof.
  induction l as [|x l IH]; cbn [sorted]; [constructor|].
  apply insert_by_sorted, IH.
Qed.
End Sort.

Lemma strongly_sorted_nth {A} (R : A -> A -> Prop) (l : list A) :
StronglySorted R l ->
forall i j a b, (i < j)%nat ->
  nth_error l i = Some a -> nth_error l j = Some b -> R a b.
Proof.
induction 1 as [|x l Hs IH Hall]; intros i j a b Hij Hi Hj.
- destruct i; discriminate.
- destruct j as [|j]; [lia|]. cbn [nth_error] in Hj.
  destruct i as [|i]; cbn [nth_error] in Hi.
  + injection Hi as <-. rewrite Forall_forall in Hall.
    apply Hall. eapply nth_error_In; eassumption.
  + apply (IH i j); [lia | assumption | assumption].
Qed.

Lemma sorted_Z_strongly (l : list Z) : StronglySorted Z.le (sorted Z.leb l).
Proof.
apply Sorted_StronglySorted; [intros a b c; apply Z.le_trans|].
assert (H : Sorted (fun a b => (a <=? b) = true) (sorted Z.leb l)).
{ apply sorted_sorted. intros a b.
  destruct (Z.le_ge_cases a b) as [H|H]; [left | right]; apply Z.leb_le; exact H. }
induction H as [|x l' Hs IH Hhd]; constructor; [exact IH|].
destruct Hhd; constructor. apply Z.leb_le. assumption.
Qed.

Lemma list_index_nth {A} (l : list A) (i : Z) :
0 <= i < Z.of_nat (List.length l) ->
exists a, list_index l i = Ok a /\ nth_error l (Z.to_nat i) = Some a.
Proof.
intros Hi. unfold list_index.
destruct (Z.ltb_spec i 0) as [H|_]; [lia|].
destruct (Z.ltb_spec i 0) as [H|_]; [lia|].
destruct (Z.leb_spec (Z.of_nat (List.length l)) i) as [H|_]; [lia|].
cbn [orb].
destruct (nth_error l (Z.to_nat i)) as [a|] eqn:E.
- exists a. split; reflexivity.
- apply nth_error_None in E. lia.
Qed.

End SortFacts.

(** ** select_images.py: the percentile *)

Module PercentileFacts.
Import Py Aux SelectImages FloatFacts SortFacts.

(** The body of [percentile_nearest_rank] on a non-empty list, with the
  clamp named. *)
Lemma percentile_unfold (values : list Z) (q : float) :
values <> [] ->
percentile_nearest_rank values q =
  bind (float_mul_int (clamp q) (Z.of_nat (List.length (sorted Z.leb values))))
    (fun qn => bind (ceil qn) (fun c =>
       list_index (sorted Z.leb values) (Z.max 1 c - 1))).
Proof. intros Hne. destruct values; [congruence | reflexivity]. Qed.

Lemma bind_ceil_ok (x : spec_float) (n c : Z) :
bind (float_mul_int x n) ceil = Ok c ->
forall (B : Type) (k : Z -> result B),
  bind (float_mul_int x n) (fun qn => bind (ceil qn) k) = k c.
Proof.
intros H B k. destruct (float_mul_int x n) as [qn|e]; cbn [bind] in *; [|discriminate].
rewrite H. reflexivity.
Qed.

(** C2: on a non-empty list (shorter than 2^53, as every list is) the
  percentile is the element of rank max(1, ceil(q*n)) in the ascending sort,
  q clamped into [0,1] and the product taken in binary64; the rank lies in
  1..n, so the result is an element of the list; q = 1.0 gives
  the maximum and q = 0.0 the minimum. *)
Theorem percentile_nearest_rank_spec (values : list Z) (q : float) :
values <> [] ->
Z.of_nat (List.length values) < 2 ^ 53 ->
exists (c v : Z) (vals : list Z),
  (clamp q = S754_zero false \/ clamp q = sf f_one \/
   exists m e, clamp q = S754_finite false m e /\ sf q = S754_finite false m e /\
               e <= - 53 /\ Zpos m < 2 ^ (- e)) /\
  bind (float_mul_int (clamp q) (Z.of_nat (List.length values))) ceil = Ok c /\
  1 <= Z.max 1 c <= Z.of_nat (List.length values) /\
  Permutation vals values /\ StronglySorted Z.le vals /\
  nth_error vals (Z.to_nat (Z.max 1 c - 1)) = Some v /\
  percentile_nearest_rank values q = Ok v /\
  In v values /\
  (sf q = sf f_one ->
   Z.max 1 c = Z.of_nat (List.length values) /\ forall x, In x values -> x <= v) /\
  (sf q = sf f_zero ->
   Z.max 1 c = 1 /\ forall x, In x values -> v <= x).
Proof.
intros Hne Hlen.
set (n := Z.of_nat (List.length values)) in *.
assert (Hn : 0 < n < 2 ^ 53).
{ split; [|exact Hlen]. unfold n. destruct values; [congruence | cbn [List.length]; lia]. }
destruct (ceil_mul_bound q n Hn) as (c & Hc & Hcn).
set (vals := sorted Z.leb values).
assert (Hperm : Permutation vals values) by apply sorted_perm.
assert (Hvlen : Z.of_nat (List.length vals) = n).
{ unfold n, vals. rewrite sorted_length. reflexivity. }
destruct (list_index_nth vals (Z.max 1 c - 1)) as (v & Hidx & Hnth); [lia|].
assert (Hss : StronglySorted Z.le vals) by apply sorted_Z_strongly.
assert (Hin : In v values).
{ eapply Permutation_in; [exact Hperm|]. eapply nth_error_In; exact Hnth. }
exists c, v, vals.
split; [apply clamp_cases|]. split; [exact Hc|]. split; [lia|].
split; [exact Hperm|]. split; [exact Hss|]. split; [exact Hnth|].
split.
{ rewrite percentile_unfold by exact Hne. fold vals. rewrite Hvlen.
  rewrite (bind_ceil_ok _ _ _ Hc). exact Hidx. }
split; [exact Hin|]. split.
- intros Hq.
  assert (Hcl : clamp q = sf f_one) by (unfold clamp; rewrite Hq; reflexivity).
  rewrite Hcl, ceil_mul_one in Hc by exact Hn. injection Hc as <-.
  split; [lia|]. intros x Hx.
  apply (Permutation_in _ (Permutation_sym Hperm)) in Hx.
  apply In_nth_error in Hx. destruct Hx as [i Hi].
  assert (Hil : (i < List.length vals)%nat) by (apply nth_error_Some; congruence).
  destruct (Nat.eq_dec i (Z.to_nat (Z.max 1 n - 1))) as [->|Hne'].
  + rewrite Hnth in Hi. injection Hi as ->. lia.
  + apply (strongly_sorted_nth Z.le vals Hss i (Z.to_nat (Z.max 1 n - 1)));
      [lia | exact Hi | exact Hnth].
- intros Hq.
  assert (Hcl : clamp q = S754_zero false) by (unfold clamp; rewrite Hq; reflexivity).
  rewrite Hcl, ceil_mul_zero in Hc by exact Hn. injection Hc as <-.
  split; [lia|]. intros x Hx.
  apply (Permutation_in _ (Permutation_sym Hperm)) in Hx.
  apply In_nth_error in Hx. destruct Hx as [i Hi].
  change (Z.to_nat (Z.max 1 0 - 1)) with 0%nat in Hnth.
  destruct i as [|i].
  + rewrite Hnth in Hi. injection Hi as ->. lia.
  + apply (strongly_sorted_nth Z.le vals Hss 0 (S i)); [lia | exact Hnth | exact Hi].
Qed.

(** Witness for C2: the five ratings of the specification's scenario at
  q = 0.5. *)
Lemma percentile_nearest_rank_spec_witness :
exists (c v : Z) (vals : list Z),
  bind (float_mul_int (clamp f_half) 5) ceil = Ok c /\
  nth_error vals (Z.to_nat (Z.max 1 c - 1)) = Some v /\
  percentile_nearest_rank [1; 1; 2; 3; 5] f_half = Ok v /\
  In v [1; 1; 2; 3; 5].
Proof.
destruct (percentile_nearest_rank_spec [1; 1; 2; 3; 5] f_half)
  as (c & v & vals & _ & Hc & _ & _ & _ & Hnth & Hp & Hin & _).
- discriminate.
- reflexivity.
- exists c, v, vals. repeat split; assumption.
Defined.

End PercentileFacts.

(** ** select_images.py: the filter *)

Module FilterFacts.
Import Py Aux SelectImages FloatFacts SortFacts.

(** The percentile of a non-empty list is defined and is one of its
  elements. *)
Lemma percentile_returns (values : list Z) (q : float) :
values <> [] -> Z.of_nat (List.length values) < 2 ^ 53 ->
exists v, percentile_nearest_rank values q = Ok v /\ In v values.
Proof.
intros Hne Hlen.
assert (Hn : 0 < Z.of_nat (List.length values) < 2 ^ 53).
{ split; [|exact Hlen]. destruct values; [congruence | cbn [List.length]; lia]. }
destruct (ceil_mul_bound q _ Hn) as (c & Hc & Hcn).
destruct (list_index_nth (sorted Z.leb values) (Z.max 1 c - 1)) as (v & Hidx & Hnth).
{ rewrite sorted_length. lia. }
exists v. split.
- destruct values as [|x values]; [congruence|].
  unfold percentile_nearest_rank. rewrite sorted_length.
  fold (clamp q).
  destruct (float_mul_int (clamp q) (Z.of_nat (List.length (x :: values)))) as [qn|e];
    cbn [bind] in *; [|discriminate].
  rewrite Hc. cbn [bind]. exact Hidx.
- eapply Permutation_in; [apply (sorted_perm Z.leb)|].
  eapply nth_error_In; exact Hnth.
Qed.

Lemma star_values_rated (rs : list RatingRecord) :
Forall (fun r => is_rated r = true) rs ->
List.length (star_values rs) = List.length rs.
Proof.
induction 1 as [|r rs Hr _ IH]; [reflexivity|].
unfold star_values in *. cbn [flat_map]. unfold is_rated in Hr.
destruct (stars r); [|discriminate]. cbn [app List.length]. rewrite IH. reflexivity.
Qed.

Lemma rated_of_rated (bp : list (Path * RatingRecord)) :
Forall (fun r => is_rated r = true) (rated_of bp).
Proof.
apply Forall_forall. intros r Hr. unfold rated_of in Hr.
apply filter_In in Hr. tauto.
Qed.

Lemma in_sorted {A} (le : A -> A -> bool) (l : list A) (x : A) :
In x (sorted le l) <-> In x l.
Proof.
split; apply Permutation_in; [|apply Permutation_sym]; apply sorted_perm.
Qed.

Lemma path_le_total (a b : Path) : path_le a b = true \/ path_le b a = true.
Proof. unfold path_le. apply String.leb_total. Qed.

Lemma dict_set_in (k : Path) (v : RatingRecord) (d : list (Path * RatingRecord)) :
forall k' v', In (k', v') (dict_set String.eqb k v d) ->
              (k' = k /\ v' = v) \/ In (k', v') d.
Proof.
induction d as [|[k0 v0] d IH]; intros k' v' Hin; cbn [dict_set] in Hin.
- destruct Hin as [H|[]]. injection H as <- <-. left. auto.
- destruct (String.eqb_spec k k0) as [->|Hne].
  + destruct Hin as [H|H]; [injection H as <- <-; left; auto | right; right; exact H].
  + destruct Hin as [H|H]; [right; left; exact H|].
    destruct (IH _ _ H) as [H'|H']; [left; exact H' | right; right; exact H'].
Qed.

Lemma dict_set_keys (k : Path) (v : RatingRecord) (d : list (Path * RatingRecord)) :
forall k', In k' (map fst (dict_set String.eqb k v d)) <-> k' = k \/ In k' (map fst d).
Proof.
induction d as [|[k0 v0] d IH]; intros k'; cbn [dict_set].
- cbn. intuition congruence.
- destruct (String.eqb_spec k k0) as [->|Hne]; cbn [map fst In].
  + intuition congruence.
  + rewrite IH. intuition congruence.
Qed.

Lemma dict_set_keyed (k : Path) (v : RatingRecord) (d : list (Path * RatingRecord)) :
path v = k -> keyed d -> keyed (dict_set String.eqb k v d).
Proof.
intros Hk [Hnd Hp]. split.
- clear Hp Hk. induction d as [|[k0 v0] d IH]; cbn [dict_set].
  + repeat constructor. intros [].
  + cbn [map fst] in Hnd. inversion Hnd as [|? ? Hnin Hnd']; subst.
    destruct (String.eqb_spec k k0) as [->|Hne]; cbn [map fst].
    * constructor; assumption.
    * constructor; [|apply IH; exact Hnd'].
      rewrite dict_set_keys. intros [H|H]; [congruence | contradiction].
- intros k' r Hin. destruct (dict_set_in _ _ _ _ _ Hin) as [[-> ->]|H];
    [exact Hk | apply Hp; exact H].
Qed.

Lemma by_path_keyed (files : list Path) (records : list RatingRecord) :
keyed (by_path_of files records).
Proof.
unfold by_path_of.
assert (H1 : forall rs d, keyed d ->
          keyed (fold_left (fun d r => dict_set String.eqb (path r) r d) rs d)).
{ induction rs as [|r rs IH]; intros d Hd; cbn [fold_left]; [exact Hd|].
  apply IH, dict_set_keyed; [reflexivity | exact Hd]. }
assert (H2 : forall fs d, keyed d ->
          keyed (fold_left
                   (fun d f => if dict_mem String.eqb f d then d
                               else dict_set String.eqb f (unrated_record f) d) fs d)).
{ induction fs as [|f fs IH]; intros d Hd; cbn [fold_left]; [exact Hd|].
  apply IH. destruct (dict_mem String.eqb f d); [exact Hd|].
  apply dict_set_keyed; [reflexivity | exact Hd]. }
apply H2, H1. split; [constructor | intros k r []].
Qed.

Lemma NoDup_keys_inj {V : Type} (d : list (Path * V)) (k : Path) (v v' : V) :
NoDup (map fst d) -> In (k, v) d -> In (k, v') d -> v = v'.
Proof.
induction d as [|[k0 v0] d IH]; intros Hnd Hin Hin'; [destruct Hin|].
cbn [map fst] in Hnd. inversion Hnd as [|? ? Hnin Hnd']; subst.
destruct Hin as [H|H], Hin' as [H'|H'].
- congruence.
- injection H as -> ->. exfalso. apply Hnin. apply in_map_iff. exists (k, v'). auto.
- injection H' as -> ->. exfalso. apply Hnin. apply in_map_iff. exists (k, v). auto.
- apply IH; assumption.
Qed.

Lemma keyed_values_inj (d : list (Path * RatingRecord)) (r r' : RatingRecord) :
keyed d -> In r (dict_values d) -> In r' (dict_values d) -> path r = path r' -> r = r'.
Proof.
intros [Hnd Hp] Hr Hr' Heq. unfold dict_values in *.
apply in_map_iff in Hr. destruct Hr as ([k v] & Hv & Hin).
apply in_map_iff in Hr'. destruct Hr' as ([k' v'] & Hv' & Hin').
cbn [snd] in *. subst v v'.
pose proof (Hp _ _ Hin) as Hk. pose proof (Hp _ _ Hin') as Hk'.
assert (Hkk : k' = k) by congruence. rewrite Hkk in Hin'.
exact (NoDup_keys_inj d k r r' Hnd Hin Hin').
Qed.

Lemma in_star_values (rs : list RatingRecord) (s : Z) :
In s (star_values rs) <-> exists r, In r rs /\ stars r = Some s.
Proof.
unfold star_values. rewrite in_flat_map. split.
- intros (r & Hr & Hs). exists r. split; [exact Hr|].
  destruct (stars r) as [s'|]; [|destruct Hs]. destruct Hs as [->|[]]. reflexivity.
- intros (r & Hr & Es). exists r. split; [exact Hr|]. rewrite Es. left. reflexivity.
Qed.

Lemma cutoff_of_rated (rated : list RatingRecord) (q : float) :
rated <> [] ->
match rated with
| [] => Ok None
| _ :: _ => bind (percentile_nearest_rank (star_values rated) q) (fun c => Ok (Some c))
end = bind (percentile_nearest_rank (star_values rated) q) (fun c => Ok (Some c)).
Proof. destruct rated; [congruence | reflexivity]. Qed.

(** *** The table of records, and the record it holds for a path *)

Lemma get_set_record (p k : Path) (v : RatingRecord) (d : list (Path * RatingRecord)) :
dict_get String.eqb p (dict_set String.eqb k v d)
= if String.eqb p k then Some v else dict_get String.eqb p d.
Proof.
induction d as [|[k0 v0] d IH]; cbn [dict_set dict_get].
- reflexivity.
- destruct (String.eqb_spec k k0) as [->|Hne]; cbn [dict_get].
  + destruct (String.eqb p k0); reflexivity.
  + destruct (String.eqb_spec p k0) as [->|Hne'].
    * destruct (String.eqb_spec k0 k) as [E|_]; [congruence | reflexivity].
    * exact IH.
Qed.

Lemma get_fold_records (p : Path) (r : RatingRecord) (records : list RatingRecord) :
forall d,
  dict_get String.eqb p
    (fold_left (fun d r => dict_set String.eqb (path r) r d) records d) = Some r <->
  (exists before after,
     records = (before ++ r :: after)%list /\ path r = p /\
     Forall (fun r' => path r' <> p) after) \/
  (Forall (fun r' => path r' <> p) records /\ dict_get String.eqb p d = Some r).
Proof.
induction records as [|x records IH]; intros d; cbn [fold_left].
- split.
  + intros H. right. split; [constructor | exact H].
  + intros [(before & after & E & _)|[_ H]]; [|exact H].
    destruct before; discriminate.
- rewrite IH, get_set_record. split.
  + intros [(before & after & E & Hp & Hall)|[Hall H]].
    * left. exists (x :: before), after. rewrite E. auto.
    * destruct (String.eqb_spec p (path x)) as [E|Hne].
      -- injection H as <-. left. exists [], records. auto.
      -- right. split; [constructor; [congruence | exact Hall] | exact H].
  + intros [(before & after & E & Hp & Hall)|[Hall H]].
    * destruct before as [|b before]; cbn [app] in E; injection E as -> ->.
      -- right. split; [exact Hall|]. rewrite <- Hp, String.eqb_refl. reflexivity.
      -- left. exists before, after. auto.
    * inversion Hall as [|? ? Hx Hall']; subst. right. split; [exact Hall'|].
      destruct (String.eqb_spec p (path x)) as [E|_]; [congruence | exact H].
Qed.

Lemma get_fold_files (p : Path) (r : RatingRecord) (files : list Path) :
forall d,
  dict_get String.eqb p
    (fold_left (fun d f => if dict_mem String.eqb f d then d
                           else dict_set String.eqb f (unrated_record f) d) files d)
  = Some r <->
  dict_get String.eqb p d = Some r \/
  (dict_get String.eqb p d = None /\ In p files /\ r = unrated_record p).
Proof.
induction files as [|f files IH]; intros d; cbn [fold_left In].
- intuition.
- rewrite IH. unfold dict_mem.
  destruct (dict_get String.eqb f d) as [v|] eqn:Ef.
  + split.
    * intros [H|(Hn & Hin & Hr)]; [left; exact H | right; auto].
    * intros [H|(Hn & [E|Hin] & Hr)]; [left; exact H | congruence | right; auto].
  + rewrite get_set_record. destruct (String.eqb_spec p f) as [->|Hne].
    * split.
      -- intros [H|(Hn & _)]; [|discriminate]. injection H as <-. right. auto.
      -- intros [H|(_ & _ & ->)]; [congruence | left; reflexivity].
    * split.
      -- intros [H|(Hn & Hin & Hr)]; [left; exact H | right; auto].
      -- intros [H|(Hn & [E|Hin] & Hr)]; [left; exact H | congruence | right; auto].
Qed.

Lemma last_with_path (p : Path) (records : list RatingRecord) :
(exists x, In x records /\ path x = p) ->
exists r before after,
  records = (before ++ r :: after)%list /\ path r = p /\
  Forall (fun r' => path r' <> p) after.
Proof.
induction records as [|x records IH]; intros (x0 & Hin & Hp); [destruct Hin|].
destruct (existsb (fun r => String.eqb (path r) p) records) eqn:Ex.
- apply existsb_exists in Ex. destruct Ex as (y & Hy & Ey). apply String.eqb_eq in Ey.
  destruct IH as (r & before & after & E & Hr & Hall); [exists y; auto|].
  exists r, (x :: before), after. rewrite E. auto.
- assert (Hall : Forall (fun r' => path r' <> p) records).
  { apply Forall_forall. intros y Hy Ey.
    assert (H : existsb (fun r => String.eqb (path r) p) records = true).
    { apply existsb_exists. exists y. split; [exact Hy | apply String.eqb_eq; exact Ey]. }
    congruence. }
  destruct Hin as [->|Hin].
  + exists x0, [], records. auto.
  + rewrite Forall_forall in Hall. exfalso. exact (Hall _ Hin Hp).
Qed.

Lemma by_path_held (files : list Path) (records : list RatingRecord)
  (p : Path) (r : RatingRecord) :
dict_get String.eqb p (by_path_of files records) = Some r <-> held files records p r.
Proof.
unfold by_path_of, held. rewrite get_fold_files. split.
- intros [H|(Hn & Hin & ->)].
  + apply get_fold_records in H. destruct H as [H|[_ H]]; [left; exact H | discriminate].
  + right. split; [|auto].
    apply Forall_forall. intros r' Hr' Hp.
    destruct (last_with_path p records) as (r'' & before & after & E' & Hp'' & Hall);
      [exists r'; auto|].
    assert (Hget : dict_get String.eqb p
              (fold_left (fun d r => dict_set String.eqb (path r) r d) records [])
              = Some r'').
    { apply get_fold_records. left. exists before, after. auto. }
    congruence.
- intros [H|(Hall & Hin & ->)].
  + left. apply get_fold_records. left. exact H.
  + right. split; [|auto].
    destruct (dict_get String.eqb p
                (fold_left (fun d r => dict_set String.eqb (path r) r d) records []))
      as [r'|] eqn:E; [|reflexivity].
    apply get_fold_records in E. destruct E as [(before & after & E & Hp & _)|[_ E]];
      [|discriminate].
    rewrite Forall_forall in Hall. exfalso. apply (Hall r'); [|exact Hp].
    rewrite E. apply in_elt.
Qed.

Lemma keyed_get (d : list (Path * RatingRecord)) (k : Path) (r : RatingRecord) :
NoDup (map fst d) -> (In (k, r) d <-> dict_get String.eqb k d = Some r).
Proof.
induction d as [|[k0 v0] d IH]; intros Hnd; cbn [dict_get In].
- split; [intros [] | discriminate].
- cbn [map fst] in Hnd. inversion Hnd as [|? ? Hnin Hnd']; subst.
  destruct (String.eqb_spec k k0) as [->|Hne].
  + split.
    * intros [H|H]; [congruence|]. exfalso. apply Hnin.
      apply in_map_iff. exists (k0, r). auto.
    * intros H. left. congruence.
  + rewrite <- (IH Hnd'). split; [|auto]. intros [H|H]; [congruence | exact H].
Qed.

Lemma held_path files records p r : held files records p r -> path r = p.
Proof. intros [(_ & _ & _ & H & _)|(_ & _ & ->)]; [exact H | reflexivity]. Qed.

Lemma held_functional files records p r r' :
held files records p r -> held files records p r' -> r = r'.
Proof. intros H H'. apply by_path_held in H, H'. congruence. Qed.

Lemma values_held (files : list Path) (records : list RatingRecord) (r : RatingRecord) :
In r (dict_values (by_path_of files records)) <-> held files records (path r) r.
Proof.
pose proof (by_path_keyed files records) as [Hnd Hk].
rewrite <- by_path_held, <- (keyed_get _ _ _ Hnd). unfold dict_values. split.
- intros H. apply in_map_iff in H. destruct H as ([k v] & Hv & Hin). cbn [snd] in Hv.
  subst v. rewrite (Hk _ _ Hin). exact Hin.
- intros H. apply in_map_iff. exists (path r, r). auto.
Qed.

Lemma dict_set_length (k : Path) (v : RatingRecord) (d : list (Path * RatingRecord)) :
(List.length (dict_set String.eqb k v d) <= S (List.length d))%nat.
Proof.
induction d as [|[k0 v0] d IH]; [cbn; lia|].
cbn [dict_set]. destruct (String.eqb k k0); cbn [List.length] in *; unfold Path in *; lia.
Qed.

Lemma by_path_length (files : list Path) (records : list RatingRecord) :
(List.length (by_path_of files records) <= List.length files + List.length records)%nat.
Proof.
unfold by_path_of.
assert (H1 : forall rs d,
  (List.length (fold_left (fun d r => dict_set String.eqb (path r) r d) rs d)
   <= List.length rs + List.length d)%nat).
{ induction rs as [|x rs IH]; intros d; cbn [fold_left List.length]; [lia|].
  specialize (IH (dict_set String.eqb (path x) x d)).
  pose proof (dict_set_length (path x) x d). unfold Path in *. lia. }
assert (H2 : forall fs d,
  (List.length (fold_left (fun d f => if dict_mem String.eqb f d then d
                           else dict_set String.eqb f (unrated_record f) d) fs d)
   <= List.length fs + List.length d)%nat).
{ induction fs as [|f fs IH]; intros d; cbn [fold_left List.length]; [lia|].
  destruct (dict_mem String.eqb f d).
  - specialize (IH d). unfold Path in *. lia.
  - specialize (IH (dict_set String.eqb f (unrated_record f) d)).
    pose proof (dict_set_length f (unrated_record f) d). unfold Path in *. lia. }
specialize (H2 files (fold_left (fun d r => dict_set String.eqb (path r) r d) records [])).
specialize (H1 records []). cbn [List.length] in H1. unfold Path in *. lia.
Qed.

Lemma rated_length (files : list Path) (records : list RatingRecord) :
(List.length (rated_of (by_path_of files records))
 <= List.length files + List.length records)%nat.
Proof.
unfold rated_of, dict_values.
pose proof (filter_length_le is_rated (map snd (by_path_of files records))) as H.
rewrite length_map in H. pose proof (by_path_length files records).
unfold Path in *. lia.
Qed.

Section Filter.
Variable set_order : list Path -> list Path.
(** Iterating over a set visits each distinct element once. *)
Hypothesis set_order_perm :
  forall l, Permutation (set_order l) (nodup string_dec l).

Lemma in_set_order (l : list Path) (p : Path) : In p (set_order l) <-> In p l.
Proof.
  rewrite <- (nodup_In string_dec l p).
  split; apply Permutation_in; [|apply Permutation_sym]; apply set_order_perm.
Qed.

Lemma NoDup_sorted_set_order (l : list Path) :
  NoDup (sorted path_le (set_order l)).
Proof.
  eapply Permutation_NoDup; [apply Permutation_sym, (sorted_perm path_le)|].
  eapply Permutation_NoDup; [apply Permutation_sym, set_order_perm|].
  apply NoDup_nodup.
Qed.

(** When the table has a rated record the call returns, and its result is
    made from the rated and the unrated records of the table. *)
Lemma filter_by_table
    (w : World) (folder : Path) (q : float) (include_unrated recursive : bool)
    (extensions : option (list string))
    (files : list Path) (records : list RatingRecord) :
  collect_files w folder recursive (Some (effective_exts extensions)) = Ok files ->
  read_ratings_with_exiftool w files = Ok records ->
  rated_of (by_path_of files records) <> [] ->
  Z.of_nat (List.length (rated_of (by_path_of files records))) < 2 ^ 53 ->
  let rated := rated_of (by_path_of files records) in
  let unrated := unrated_of (by_path_of files records) in
  exists (res : FilterResult) (cutoff : Z),
    filter_images_by_rating set_order w folder q include_unrated recursive extensions
      = Ok res /\
    percentile_nearest_rank (star_values rated) q = Ok cutoff /\
    In cutoff (star_values rated) /\
    cutoff_stars res = Some cutoff /\
    (forall p,
       In p (selected res) <->
       (exists r s, In r rated /\ path r = p /\ stars r = Some s /\ cutoff <= s) \/
       (include_unrated = true /\ exists r, In r unrated /\ path r = p)) /\
    NoDup (selected res) /\
    Sorted (fun a b => String.leb (lower a) (lower b) = true) (selected res) /\
    (sorted Z.leb (star_values rated) = [1; 1; 2; 3; 5] -> sf q = sf f_half ->
     cutoff = 2 /\
     forall r s, In r rated -> stars r = Some s ->
                 (In (path r) (selected res) <-> s = 2 \/ s = 3 \/ s = 5)).
Proof.
  intros Hcollect Hread Hrated Hlen rated unrated.
  assert (Hsv : List.length (star_values rated) = List.length rated)
    by apply star_values_rated, rated_of_rated.
  destruct (percentile_returns (star_values rated) q) as (cutoff & Hp & Hcin).
  { intros H. apply Hrated. apply length_zero_iff_nil.
    fold rated. rewrite <- Hsv, H. reflexivity. }
  { rewrite Hsv. exact Hlen. }
  assert (Hfiles : files <> []).
  { intros ->. apply Hrated. cbn in Hread. injection Hread as <-. reflexivity. }
  set (sel := (map path (filter (at_or_above cutoff) rated)
               ++ (if include_unrated then map path unrated else []))%list).
  exists (mkFilterResult
            (sorted path_le (set_order
               (if include_unrated
                then map path (filter (at_or_above cutoff) rated) ++ map path unrated
                else map path (filter (at_or_above cutoff) rated))))
            (Some cutoff) (sorted record_le rated) (sorted record_le unrated)
            [("total_scanned", Z.of_nat (List.length files));
             ("rated", Z.of_nat (List.length rated));
             ("unrated", Z.of_nat (List.length unrated));
             ("selected", Z.of_nat (List.length
                (sorted path_le (set_order
                   (if include_unrated
                    then map path (filter (at_or_above cutoff) rated) ++ map path unrated
                    else map path (filter (at_or_above cutoff) rated))))))]%string),
    cutoff.
  assert (Hmem : forall p,
    In p (if include_unrated
          then map path (filter (at_or_above cutoff) rated) ++ map path unrated
          else map path (filter (at_or_above cutoff) rated)) <->
    (exists r s, In r rated /\ path r = p /\ stars r = Some s /\ cutoff <= s) \/
    (include_unrated = true /\ exists r, In r unrated /\ path r = p)).
  { intros p.
    assert (Hsel : In p (map path (filter (at_or_above cutoff) rated)) <->
                   exists r s, In r rated /\ path r = p /\ stars r = Some s /\ cutoff <= s).
    { rewrite in_map_iff. split.
      - intros (r & Hpr & Hr). apply filter_In in Hr. destruct Hr as [Hr Hab].
        unfold at_or_above in Hab. destruct (stars r) as [s|] eqn:Es; [|discriminate].
        exists r, s. apply Z.leb_le in Hab. auto.
      - intros (r & s & Hr & Hpr & Es & Hle). exists r. split; [exact Hpr|].
        apply filter_In. split; [exact Hr|]. unfold at_or_above. rewrite Es.
        apply Z.leb_le. exact Hle. }
    destruct include_unrated.
    - rewrite in_app_iff, Hsel, in_map_iff. split.
      + intros [H|(r & Hpr & Hr)]; [left; exact H | right; split; [reflexivity|]].
        exists r. auto.
      + intros [H|[_ (r & Hr & Hpr)]]; [left; exact H | right]. exists r. auto.
    - rewrite Hsel. split; [auto|]. intros [H|[H _]]; [exact H | discriminate]. }
  split.
  { unfold filter_images_by_rating. cbv zeta. rewrite Hcollect. cbn [bind].
    destruct files as [|f files']; [congruence|].
    rewrite Hread. cbn [bind].
    rewrite (cutoff_of_rated _ q Hrated). fold rated unrated.
    rewrite Hp. cbn [bind]. reflexivity. }
  split; [exact Hp|]. split; [exact Hcin|]. split; [reflexivity|].
  cbn [selected]. split.
  { intros p. rewrite in_sorted, in_set_order. apply Hmem. }
  split; [apply NoDup_sorted_set_order|].
  split; [apply (sorted_sorted path_le path_le_total)|].
  intros Hstars Hq.
  assert (Hc2 : cutoff = 2).
  { assert (Hne : star_values rated <> []) by (intros H; rewrite H in Hcin; destruct Hcin).
    destruct (star_values rated) as [|x xs] eqn:Esv; [congruence|].
    unfold percentile_nearest_rank in Hp. rewrite Hstars, Hq in Hp.
    vm_compute in Hp. congruence. }
  split; [exact Hc2|]. subst cutoff.
  intros r s Hr Es.
  assert (Hs : In s [1; 1; 2; 3; 5]).
  { rewrite <- Hstars. apply in_sorted. apply in_star_values. exists r. auto. }
  assert (Hs' : s = 1 \/ s = 2 \/ s = 3 \/ s = 5) by (cbn [In] in Hs; intuition congruence).
  pose proof (by_path_keyed files records) as Hkeyed.
  rewrite in_sorted, in_set_order, Hmem. split.
  - intros [(r' & s' & Hr' & Hpr & Es' & Hle)|[_ (r' & Hr' & Hpr)]].
    + assert (r' = r).
      { apply (keyed_values_inj _ r' r Hkeyed); [| |exact Hpr].
        - unfold rated, rated_of in Hr'. apply filter_In in Hr'. tauto.
        - unfold rated, rated_of in Hr. apply filter_In in Hr. tauto. }
      subst r'. assert (s' = s) by congruence. subst s'. lia.
    + exfalso. assert (r' = r).
      { apply (keyed_values_inj _ r' r Hkeyed); [| |exact Hpr].
        - unfold unrated, unrated_of in Hr'. apply filter_In in Hr'. tauto.
        - unfold rated, rated_of in Hr. apply filter_In in Hr. tauto. }
      subst r'. unfold unrated, unrated_of in Hr'. apply filter_In in Hr'.
      destruct Hr' as [_ Hun]. unfold is_rated in Hun. rewrite Es in Hun. discriminate.
  - intros H. left. exists r, s. repeat split; try assumption. lia.
Qed.

(** C9: a root that is not a directory is a [ValueError]; a directory in
    which no file carries an allowed extension gives the empty result. *)
Theorem filter_bad_root_or_empty_folder
    (w : World) (folder : Path) (q : float) (include_unrated recursive : bool)
    (extensions : option (list string)) :
  (is_dir w folder = false ->
   filter_images_by_rating set_order w folder q include_unrated recursive extensions
     = Raise ValueError) /\
  (is_dir w folder = true ->
   (forall p, In p (if recursive then rglob w folder else iterdir w folder) ->
              is_file w p = true ->
              existsb (String.eqb (norm_ext (suffix p)))
                      (map norm_ext (effective_exts extensions)) = false) ->
   filter_images_by_rating set_order w folder q include_unrated recursive extensions
     = Ok (mkFilterResult [] None [] []
             [("total_scanned", 0); ("rated", 0); ("unrated", 0); ("selected", 0)]%string)).
Proof.
  split.
  - intros Hdir. unfold filter_images_by_rating, collect_files. cbv zeta.
    rewrite Hdir. reflexivity.
  - intros Hdir Hnone.
    assert (Hcollect : collect_files w folder recursive (Some (effective_exts extensions))
                       = Ok []).
    { unfold collect_files. rewrite Hdir. cbn [negb].
      assert (Hexts : exists e es, effective_exts extensions = e :: es).
      { unfold effective_exts, default_exts.
        destruct extensions as [[|e es]|]; do 2 eexists; reflexivity. }
      destruct Hexts as (e & es & He). rewrite He in *. f_equal.
      set (files := filter (is_file w) _).
      assert (Hall : forall p, In p files ->
                existsb (String.eqb (norm_ext (suffix p))) (map norm_ext (e :: es)) = false).
      { intros p Hp. apply filter_In in Hp. destruct Hp. apply Hnone; assumption. }
      clearbody files. induction files as [|p files IH]; [reflexivity|].
      cbn [filter]. rewrite (Hall p (or_introl eq_refl)).
      apply IH. intros p' Hp'. apply Hall. right. exact Hp'. }
    unfold filter_images_by_rating. cbv zeta. rewrite Hcollect. reflexivity.
Qed.
End Filter.

(** Witness for C9: a missing root, and the demonstration folder searched
  for an extension no file carries. *)
Lemma filter_bad_root_or_empty_folder_witness :
filter_images_by_rating (nodup string_dec) Demo.world "nowhere"%string f_half true true None
  = Raise ValueError /\
filter_images_by_rating (nodup string_dec) Demo.world Demo.folder f_half true true
  (Some ["gif"%string])
  = Ok (mkFilterResult [] None [] []
          [("total_scanned", 0); ("rated", 0); ("unrated", 0); ("selected", 0)]%string).
Proof.
split.
- apply (filter_bad_root_or_empty_folder (nodup string_dec) Demo.world "nowhere"%string).
  reflexivity.
- apply (filter_bad_root_or_empty_folder (nodup string_dec) Demo.world Demo.folder).
  + reflexivity.
  + intros p Hp _. cbn [Demo.world rglob Demo.listing] in Hp.
    repeat (destruct Hp as [<-|Hp]; [reflexivity|]). destruct Hp.
Defined.

(** The demonstration folder evaluated: cutoff 2, the files rated 2, 3 and
  5 and the unrated one selected, in case-insensitive path order. *)
Example demo_filter_result :
filter_images_by_rating (nodup string_dec) Demo.world Demo.folder f_half true true None
= Ok (mkFilterResult
        ["photos/C.jpg"; "photos/d.png"; "photos/e.jpeg"; "photos/f.jpg"]%string
        (Some 2)
        [mkRatingRecord "photos/a.jpg" (Some 1) (Some 1) None None;
         mkRatingRecord "photos/b.JPG" (Some 1) None (Some 1) None;
         mkRatingRecord "photos/C.jpg" (Some 2) (Some 2) None (Some 25);
         mkRatingRecord "photos/d.png" (Some 3) None None (Some 50);
         mkRatingRecord "photos/e.jpeg" (Some 5) (Some 7) None None]%string
        [mkRatingRecord "photos/f.jpg" None None None None]%string
        [("total_scanned", 6); ("rated", 5); ("unrated", 1); ("selected", 4)]%string).
Proof. vm_compute. reflexivity. Qed.

End FilterFacts.

(** ** write_metadata.py *)

Module WriteFacts.
Import Py WriteMetadata Aux.
Local Open Scope string_scope.

Lemma mem_In (k : string) (l : list string) : mem k l = true <-> In k l.
Proof.
unfold mem. rewrite existsb_exists. split.
- intros [x [Hx He]]. apply String.eqb_eq in He. subst. exact Hx.
- intros Hk. exists k. split; [exact Hk | apply String.eqb_refl].
Qed.

Lemma mem_app (k : string) (l1 l2 : list string) :
  mem k (l1 ++ l2)%list = mem k l1 || mem k l2.
Proof. unfold mem. apply existsb_app. Qed.

Lemma filter_filter {A} (p q : A -> bool) (l : list A) :
  filter p (filter q l) = filter (fun x => q x && p x) l.
Proof.
induction l as [|a l IH]; simpl; [reflexivity|].
destruct (q a); simpl; [destruct (p a)|]; rewrite IH; reflexivity.
Qed.

Lemma first_seen_filter (p : string -> bool) (l : list string) :
  filter p (first_seen l) = first_seen (filter p l).
Proof.
induction l as [|k l IH]; simpl; [reflexivity|].
destruct (p k) eqn:Hk; simpl.
- rewrite <- IH. f_equal. rewrite !filter_filter. apply filter_ext.
  intros x. apply andb_comm.
- rewrite <- IH. rewrite filter_filter. apply filter_ext. intros x.
  destruct (String.eqb x k) eqn:Hx; simpl; [|reflexivity].
  apply String.eqb_eq in Hx. subst. symmetry. exact Hk.
Qed.

Lemma first_seen_In (l : list string) (k : string) : In k (first_seen l) <-> In k l.
Proof.
induction l as [|a l IH]; simpl; [tauto|].
rewrite filter_In, IH. split.
- intros [H|[H _]]; auto.
- intros [H|H]; auto.
  destruct (String.eqb k a) eqn:E.
  + apply String.eqb_eq in E. auto.
  + right. split; [exact H | reflexivity].
Qed.

Lemma first_seen_NoDup (l : list string) : NoDup (first_seen l).
Proof.
induction l as [|a l IH]; simpl; constructor.
- rewrite filter_In. intros [_ H]. rewrite String.eqb_refl in H. discriminate.
- apply NoDup_filter. exact IH.
Qed.

(** The first occurrences come in the order of the list: whatever precedes
    the first occurrence of [k] in [l] is what precedes [k] in [first_seen l]. *)
Lemma first_seen_split (l1 l2 : list string) (k : string) :
  ~ In k l1 ->
  first_seen (l1 ++ k :: l2)
  = (first_seen l1 ++ k :: filter (fun x => negb (mem x (k :: l1))) (first_seen l2))%list.
Proof.
revert l2. induction l1 as [|a l1 IH]; intros l2 Hk; simpl.
- f_equal. apply filter_ext. intros x. rewrite orb_false_r. reflexivity.
- f_equal. rewrite IH by (intros H; apply Hk; right; exact H).
  rewrite filter_app. f_equal. simpl.
  assert (Hak : String.eqb k a = false).
  { apply String.eqb_neq. intros E. apply Hk. left. symmetry. exact E. }
  rewrite Hak. simpl. f_equal. rewrite filter_filter. apply filter_ext.
  intros x. destruct (String.eqb x k), (String.eqb x a), (mem x l1); reflexivity.
Qed.

Lemma add_new_keys_app (k1 k2 : list string) st :
  add_new_keys (k1 ++ k2) st = add_new_keys k2 (add_new_keys k1 st).
Proof. unfold add_new_keys. apply fold_left_app. Qed.

Lemma add_record_keys_flat {V} (R : list (list (string * V))) st :
  add_record_keys R st = add_new_keys (all_keys R) st.
Proof.
revert st. induction R as [|r R IH]; intros st; [reflexivity|].
unfold all_keys. simpl. rewrite add_new_keys_app.
unfold add_record_keys in *. simpl. rewrite IH. reflexivity.
Qed.

Lemma add_new_keys_spec (keys headers seen : list string) :
  (forall k, mem k seen = mem k headers) ->
  fst (add_new_keys keys (headers, seen))
  = (headers ++ first_seen (filter (fun k => negb (mem k headers)) keys))%list.
Proof.
revert headers seen. induction keys as [|k keys IH]; intros headers seen Hs.
- simpl. rewrite app_nil_r. reflexivity.
- unfold add_new_keys in *. simpl. rewrite Hs.
  destruct (mem k headers) eqn:Hk; simpl.
  + apply IH. exact Hs.
  + rewrite (IH (headers ++ [k])%list (k :: seen)).
    * rewrite <- app_assoc. simpl. do 2 f_equal.
      rewrite first_seen_filter, filter_filter. f_equal. apply filter_ext.
      intros x. rewrite mem_app. simpl. rewrite orb_false_r.
      destruct (mem x headers), (String.eqb x k); reflexivity.
    * intros x. rewrite mem_app. simpl. rewrite Hs, orb_false_r.
      apply orb_comm.
Qed.

Lemma compute_headers_spec {V} (H : list string) (R : list (list (string * V)))
    (add : bool) :
  _compute_headers H R add = (H ++ if add then new_columns H R else [])%list.
Proof.
unfold _compute_headers, new_columns. destruct add.
- rewrite add_record_keys_flat. apply add_new_keys_spec. reflexivity.
- rewrite app_nil_r. reflexivity.
Qed.

Section Rows.
Variable repr : pyval -> string.

Lemma build_row_headers (add : bool) (rec : list (string * pyval))
    (headers : list string) :
  add = false \/ (forall k, In k (dict_keys rec) -> In k headers) ->
  fst (build_row repr add rec headers) = headers.
Proof.
unfold build_row. generalize (fold_left (fun row h => dict_set String.eqb h "" row) headers []).
induction rec as [|[k v] rec IH]; intros row Hc; [reflexivity|].
simpl. destruct (mem k headers) eqn:Hk; simpl.
- apply IH. destruct Hc as [Hc|Hc]; [left; exact Hc|right].
  intros x Hx. apply Hc. right. exact Hx.
- destruct Hc as [Hc|Hc].
  + subst add. apply IH. left. reflexivity.
  + exfalso. assert (Hin : In k headers) by (apply Hc; left; reflexivity).
    apply mem_In in Hin. congruence.
Qed.

Lemma build_rows_headers (add : bool) (R : list (list (string * pyval)))
    (headers : list string) :
  add = false \/ (forall k, In k (all_keys R) -> In k headers) ->
  fst (build_rows repr add R headers) = headers.
Proof.
intros Hc. unfold build_rows.
match goal with
| |- fst (fold_left ?f R (headers, [])) = _ =>
    enough (Hg : forall rows, fst (fold_left f R (headers, rows)) = headers)
      by apply Hg
end.
induction R as [|rec R IH]; intros rows; [reflexivity|].
simpl. destruct (build_row repr add rec headers) as [h row] eqn:Hb.
assert (Hh : h = headers).
{ change h with (fst (h, row)). rewrite <- Hb. apply build_row_headers.
  destruct Hc as [Hc|Hc]; [left; exact Hc|right].
  intros k Hk. apply Hc. unfold all_keys. simpl. apply in_or_app. left. exact Hk. }
subst h. apply IH.
destruct Hc as [Hc|Hc]; [left; exact Hc|right].
intros k Hk. apply Hc. unfold all_keys. simpl. apply in_or_app. right. exact Hk.
Qed.


Lemma new_columns_cover {V} (H : list string) (R : list (list (string * V))) k :
  In k (all_keys R) -> In k (H ++ new_columns H R)%list.
Proof.
intros Hk. apply in_or_app. destruct (mem k H) eqn:Hm.
- left. apply mem_In. exact Hm.
- right. unfold new_columns. apply first_seen_In. apply filter_In.
  split; [exact Hk|]. rewrite Hm. reflexivity.
Qed.

Lemma append_header (input : option CsvTable) (R : list (list (string * pyval)))
    (add keep : bool) :
  let H := snd (_read_existing_csv input) in
  header (append_records_to_csv repr input R add keep)
  = (H ++ if add || is_nil H then new_columns H R else [])%list.
Proof.
intros H. unfold append_records_to_csv.
destruct (_read_existing_csv input) as [rows0 H0] eqn:Hr. simpl in H. subst H.
rewrite compute_headers_spec.
set (hs := match (H0 ++ (if add then new_columns H0 R else []))%list with
           | [] => fst (add_record_keys R ([], []))
           | _ :: _ => (H0 ++ (if add then new_columns H0 R else []))%list
           end).
assert (Hhs : hs = (H0 ++ if add || is_nil H0 then new_columns H0 R else [])%list).
{ subst hs. destruct add; simpl.
  - destruct (H0 ++ new_columns H0 R)%list eqn:E; [|reflexivity].
    rewrite add_record_keys_flat, add_new_keys_spec by reflexivity.
    apply app_eq_nil in E. destruct E as [E1 E2]. subst H0.
    simpl. exact E2.
  - rewrite app_nil_r. destruct H0; [|simpl; rewrite app_nil_r; reflexivity]. simpl.
    rewrite add_record_keys_flat, add_new_keys_spec by reflexivity.
    reflexivity. }
destruct (build_rows repr add R hs) as [h rows] eqn:Hb. simpl.
change h with (fst (h, rows)). rewrite <- Hb, build_rows_headers; [exact Hhs|].
destruct add; [right|left; reflexivity].
intros k Hk. rewrite Hhs. simpl. apply new_columns_cover. exact Hk.
Qed.

End Rows.

Lemma filter_all {A} (p : A -> bool) (l : list A) :
  (forall x, p x = true) -> filter p l = l.
Proof.
intros Hp. induction l as [|a l IH]; simpl; [reflexivity|].
rewrite Hp, IH. reflexivity.
Qed.

Lemma new_columns_nil {V} (R : list (list (string * V))) :
  new_columns [] R = first_seen (all_keys R).
Proof. unfold new_columns. rewrite filter_all; reflexivity. Qed.

Lemma new_columns_covered {V} (H : list string) (R : list (list (string * V))) :
  (forall k, In k (all_keys R) -> In k H) -> new_columns H R = [].
Proof.
intros Hc. unfold new_columns.
replace (filter (fun k => negb (mem k H)) (all_keys R)) with (@nil string); [reflexivity|].
symmetry. induction (all_keys R) as [|k l IH]; [reflexivity|]. simpl.
assert (Hk : mem k H = true) by (apply mem_In, Hc; left; reflexivity).
rewrite Hk. simpl. apply IH. intros x Hx. apply Hc. right. exact Hx.
Qed.

Lemma first_occurrence (l : list string) (k : string) :
  In k l -> exists a b, l = (a ++ k :: b)%list /\ ~ In k a.
Proof.
induction l as [|x l IH]; intros Hk; [destruct Hk|].
destruct (string_dec x k) as [E|E].
- subst. exists [], l. split; [reflexivity | intros []].
- destruct Hk as [Hk|Hk]; [contradiction|].
  destruct (IH Hk) as [a [b [Hl Ha]]]. exists (x :: a), b. split.
  + simpl. rewrite Hl. reflexivity.
  + intros [H|H]; [contradiction | exact (Ha H)].
Qed.

(** A key with an occurrence ahead of every occurrence of another key comes
    first in first-seen order. *)
Lemma first_seen_before (l a b : list string) (k1 k2 : string) :
  l = (a ++ k1 :: b)%list -> ~ In k2 a -> k1 <> k2 -> In k2 l ->
  exists x y z, first_seen l = (x ++ k1 :: y ++ k2 :: z)%list.
Proof.
intros Hl Ha Hne H2.
assert (H1 : In k1 l) by (rewrite Hl; apply in_or_app; right; left; reflexivity).
destruct (first_occurrence l k1 H1) as [a' [b' [Hl' Ha']]].
assert (Hpre : ~ In k2 a').
{ intros Hin.
  assert (Hsplit : forall (u v u' v' : list string), (u ++ k1 :: v = u' ++ k1 :: v')%list ->
            ~ In k1 u' -> forall y, In y u' -> In y u).
  { clear. intros u. induction u as [|c u IH]; intros v u' v' E Hn y Hy.
    - destruct u' as [|c' u']; [destruct Hy|]. simpl in E. injection E as E1 _.
      exfalso. apply Hn. left. symmetry. exact E1.
    - destruct u' as [|c' u']; [destruct Hy|]. simpl in E. injection E as E1 E2.
      subst c'. destruct Hy as [Hy|Hy]; [left; exact Hy|right].
      apply (IH v u' v' E2); [intros Hx; apply Hn; right; exact Hx | exact Hy]. }
  apply Ha. apply (Hsplit a b a' b'); [rewrite <- Hl, <- Hl'; reflexivity| exact Ha' | exact Hin]. }
rewrite Hl', first_seen_split by exact Ha'.
assert (Hin : In k2 (filter (fun x => negb (mem x (k1 :: a'))) (first_seen b'))).
{ apply filter_In. split.
  - apply first_seen_In. rewrite Hl' in H2. apply in_app_or in H2.
    destruct H2 as [H2|[H2|H2]]; [contradiction | contradiction | exact H2].
  - destruct (mem k2 (k1 :: a')) eqn:Hm; [|reflexivity].
    apply mem_In in Hm. destruct Hm as [Hm|Hm]; contradiction. }
apply in_split in Hin. destruct Hin as [y [z Hyz]].
exists (first_seen a'), y, z. rewrite Hyz. reflexivity.
Qed.

Lemma new_columns_before {V} (H : list string) (R : list (list (string * V)))
    (a b : list string) (k1 k2 : string) :
  all_keys R = (a ++ k1 :: b)%list -> ~ In k2 a -> k1 <> k2 ->
  In k1 (new_columns H R) -> In k2 (new_columns H R) ->
  exists x y z, new_columns H R = (x ++ k1 :: y ++ k2 :: z)%list.
Proof.
unfold new_columns. intros Hl Ha Hne H1 H2.
apply (proj1 (first_seen_In _ _)) in H1. apply (proj1 (first_seen_In _ _)) in H2.
apply filter_In in H1. destruct H1 as [_ Hp1].
apply (first_seen_before _ (filter (fun k => negb (mem k H)) a)
                           (filter (fun k => negb (mem k H)) b)); try assumption.
- rewrite Hl, filter_app. simpl. rewrite Hp1. reflexivity.
- intros Hin. apply filter_In in Hin. apply Ha. apply Hin.
Qed.

Section Output.
Variable repr : pyval -> string.

(** What [append_records_to_csv] writes as the header, from the header its
    reader returned. *)
Lemma header_of_reader (input : option CsvTable)
    (R : list (list (string * pyval))) (add keep : bool) :
  let H := snd (_read_existing_csv input) in
  let out := append_records_to_csv repr input R add keep in
  let extra := if add || is_nil H then new_columns H R else [] in
  _compute_headers H R add = (H ++ if add then new_columns H R else [])%list /\
  header out = (H ++ extra)%list /\
  NoDup extra /\
  (forall k, In k extra -> In k (all_keys R) /\ ~ In k H) /\
  (forall k, In k (all_keys R) -> ~ In k H -> add || is_nil H = true -> In k extra) /\
  (forall a b k1 k2, all_keys R = (a ++ k1 :: b)%list -> ~ In k2 a -> k1 <> k2 ->
     In k1 extra -> In k2 extra ->
     exists x y z, extra = (x ++ k1 :: y ++ k2 :: z)%list) /\
  (forall rows2,
     header (append_records_to_csv repr (Some (mkCsvTable (header out) rows2)) R true true)
     = (header out ++ if add || is_nil H then [] else new_columns H R)%list).
Proof.
intros H out extra.
assert (Hout : header out = (H ++ extra)%list) by apply append_header.
assert (Hin : forall k, In k extra -> In k (all_keys R) /\ ~ In k H).
{ subst extra. intros k Hk. destruct (add || is_nil H); [|destruct Hk].
  unfold new_columns in Hk. apply (proj1 (first_seen_In _ _)) in Hk.
  apply filter_In in Hk.
  destruct Hk as [Hk Hm]. split; [exact Hk|].
  intros Hc. apply mem_In in Hc. rewrite Hc in Hm. discriminate. }
split; [apply compute_headers_spec|].
split; [exact Hout|].
split; [subst extra; destruct (add || is_nil H);
        [apply first_seen_NoDup | constructor]|].
split; [exact Hin|].
split.
{ intros k Hk Hn Hc. subst extra. rewrite Hc. unfold new_columns.
  apply first_seen_In, filter_In. split; [exact Hk|].
  destruct (mem k H) eqn:Hm; [apply mem_In in Hm; contradiction|reflexivity]. }
split.
{ subst extra. destruct (add || is_nil H).
  - intros a b k1 k2. apply new_columns_before.
  - intros a b k1 k2 _ _ _ []. }
intros rows2. rewrite append_header. simpl. rewrite Hout. subst extra.
destruct (add || is_nil H) eqn:Hc.
- rewrite (new_columns_covered (H ++ new_columns H R)%list R); [reflexivity|].
  intros k Hk. apply new_columns_cover. exact Hk.
- rewrite app_nil_r. reflexivity.
Qed.

(** C4.  Whatever the header [H] of the input file (none for a file that is
    missing or empty) and the records [R] are, the header row
    [append_records_to_csv] writes starts with [H] in its order, and what
    follows consists of keys of [R] that are not in [H], each once, in the
    order in which the records first show them; [_compute_headers] itself
    returns [H] followed by those keys when columns may be added.  A second
    run over the written header with the same records, adding columns and
    keeping rows, starts with the whole first header, and equals it when the
    first run could add columns: no column is dropped or moved. *)
Theorem csv_header_stable (input : option CsvTable)
    (R : list (list (string * pyval))) (add keep : bool) :
  let H := match input with Some t => fieldnames t | None => [] end in
  let out := append_records_to_csv repr input R add keep in
  let extra := if add || is_nil H then new_columns H R else [] in
  _compute_headers H R add = (H ++ if add then new_columns H R else [])%list /\
  header out = (H ++ extra)%list /\
  NoDup extra /\
  (forall k, In k extra -> In k (all_keys R) /\ ~ In k H) /\
  (forall k, In k (all_keys R) -> ~ In k H -> add || is_nil H = true -> In k extra) /\
  (forall a b k1 k2, all_keys R = (a ++ k1 :: b)%list -> ~ In k2 a -> k1 <> k2 ->
     In k1 extra -> In k2 extra ->
     exists x y z, extra = (x ++ k1 :: y ++ k2 :: z)%list) /\
  (forall rows2,
     header (append_records_to_csv repr (Some (mkCsvTable (header out) rows2)) R true true)
     = (header out ++ if add || is_nil H then [] else new_columns H R)%list).
Proof.
destruct input as [t|].
- exact (header_of_reader (Some t) R add keep).
- exact (header_of_reader None R add keep).
Qed.

(** C10.  With no existing header (the input file is missing or empty) and
    [add_missing_columns] off, the header row written is still made of the
    keys of the records in first-seen order; it holds every key of every
    record, so it is not empty as soon as one record has a key. *)
Theorem header_inferred_from_records (input : option CsvTable)
    (R : list (list (string * pyval))) (keep : bool) :
  snd (_read_existing_csv input) = [] ->
  let out := append_records_to_csv repr input R false keep in
  _compute_headers (V:=pyval) [] R false = [] /\
  header out = first_seen (all_keys R) /\
  (forall rec k, In rec R -> In k (dict_keys rec) -> In k (header out) /\ header out <> []) /\
  Forall (fun row => List.length row = List.length (header out)) (data out).
Proof.
intros H0 out.
assert (Hh : header out = first_seen (all_keys R)).
{ subst out. rewrite append_header, H0. simpl. apply new_columns_nil. }
split; [reflexivity|]. split; [exact Hh|]. split.
- intros rec k Hrec Hk.
  assert (Hin : In k (header out)).
  { rewrite Hh. apply first_seen_In. unfold all_keys. apply in_flat_map.
    exists rec. split; assumption. }
  split; [exact Hin|]. intros E. rewrite E in Hin. destruct Hin.
- subst out. unfold append_records_to_csv.
  destruct (_read_existing_csv input) as [rows0 hs0].
  destruct (build_rows repr false R _) as [h rows]. simpl.
  apply Forall_forall. intros row Hrow. apply in_map_iff in Hrow.
  destruct Hrow as [r [Hr _]]. subst row. apply length_map.
Qed.

(** C6, as the code has it.  [None] gives the empty string; a list or tuple
    of scalars gives its elements joined by "; ", a [None] element giving
    the empty string; a list or tuple with a nested container and every
    dict, also one of scalars only, give their JSON text; any other value
    gives [str(value)]. *)
Theorem normalize_cell_cases (v : pyval) :
  (v = VNone -> _normalize_cell repr v = "") /\
  (forall l, v = VList l \/ v = VTuple l -> forallb is_scalar l = true ->
     _normalize_cell repr v = join "; " (map (element_text repr) l)) /\
  (forall ss, v = VList (map VStr ss) \/ v = VTuple (map VStr ss) ->
     _normalize_cell repr v = join "; " ss) /\
  (forall l, v = VList l \/ v = VTuple l -> forallb is_scalar l = false ->
     _normalize_cell repr v = "[" ++ join ", " (map (json_dumps repr) l) ++ "]") /\
  (forall d, v = VDict d ->
     _normalize_cell repr v
     = "{" ++ join ", " (map (fun kv => json_string (fst kv) ++ ": " ++ json_dumps repr (snd kv)) d)
           ++ "}") /\
  (is_scalar v = true -> v <> VNone -> _normalize_cell repr v = str repr v).
Proof.
assert (Hj : forall l, forallb is_scalar l = true ->
             _normalize_cell repr (VList l) = join "; " (map (element_text repr) l)
             /\ _normalize_cell repr (VTuple l) = join "; " (map (element_text repr) l)).
{ intros l Hl. simpl. rewrite Hl. split; reflexivity. }
assert (Hs : forall ss, forallb is_scalar (map VStr ss) = true
                        /\ map (element_text repr) (map VStr ss) = ss).
{ induction ss as [|s ss [IH1 IH2]]; simpl; [split; reflexivity|].
  rewrite IH1, IH2. split; reflexivity. }
split; [intros ->; reflexivity|].
split; [intros l [-> | ->] Hl; apply (Hj l Hl)|].
split.
{ intros ss Hv. destruct (Hs ss) as [H1 H2].
  destruct Hv as [-> | ->]; [rewrite (proj1 (Hj _ H1)) | rewrite (proj2 (Hj _ H1))];
    rewrite H2; reflexivity. }
split; [intros l [-> | ->] Hl; simpl; rewrite Hl; reflexivity|].
split; [intros d ->; reflexivity|].
intros Hsc Hn. destruct v; try reflexivity; try discriminate. contradiction.
Qed.

End Output.

(** Witness for C4: a file with the columns title and hierarchy and one row,
    and two records: the header written keeps those two in front and adds begin,
    number and n_odd as the records show them; a second run over the table
    written gives the same header; without the right to add columns the
    header stays as it was. *)
Lemma csv_header_stable_witness :
  header (append_records_to_csv (fun _ => "") (Some Samples.template)
            Samples.two_records true true)
  = ["title"; "hierarchy"; "begin"; "number"; "n_odd"] /\
  header (append_records_to_csv (fun _ => "")
            (Some (mkCsvTable ["title"; "hierarchy"; "begin"; "number"; "n_odd"] []))
            Samples.two_records true true)
  = ["title"; "hierarchy"; "begin"; "number"; "n_odd"] /\
  header (append_records_to_csv (fun _ => "") (Some Samples.template)
            Samples.two_records false true)
  = ["title"; "hierarchy"].
Proof.
split; [|split].
- exact (proj1 (proj2 (csv_header_stable (fun _ => "") (Some Samples.template)
                         Samples.two_records true true))).
- exact (proj2 (proj2 (proj2 (proj2 (proj2 (proj2
           (csv_header_stable (fun _ => "") (Some Samples.template)
              Samples.two_records true true)))))) []).
- exact (proj1 (proj2 (csv_header_stable (fun _ => "") (Some Samples.template)
                         Samples.two_records false true))).
Defined.

Lemma header_inferred_from_records_witness :
  header (append_records_to_csv (fun _ => "") None
            [[("title", VStr "Sunset"); ("begin", VStr "2021")];
             [("title", VStr "Lawn"); ("n_odd", VStr "Nashville, TN")]] false true)
  = ["title"; "begin"; "n_odd"].
Proof.
exact (proj1 (proj2 (header_inferred_from_records (fun _ => "") None
        [[("title", VStr "Sunset"); ("begin", VStr "2021")];
         [("title", VStr "Lawn"); ("n_odd", VStr "Nashville, TN")]] true eq_refl))).
Defined.

Lemma normalize_cell_cases_witness :
  _normalize_cell (fun _ => "") (VList [VStr "a"; VNone; VInt 2; VBool true]) = "a; ; 2; True".
Proof.
exact (proj1 (proj2 (normalize_cell_cases (fun _ => "")
                       (VList [VStr "a"; VNone; VInt 2; VBool true])))
             _ (or_introl eq_refl) eq_refl).
Defined.

(** C6 as stated fails on a dict of scalars: the cell holds its JSON text,
    not its values joined by "; ". *)
Lemma normalize_cell_dict_not_joined :
  ~ (forall (repr : pyval -> string) (v : pyval) (elems : list pyval),
       scalar_elements v = Some elems ->
       _normalize_cell repr v = join "; " (map (element_text repr) elems)).
Proof.
intros H.
specialize (H (fun _ => "") (VDict [("a", VInt 1)]) [VInt 1] eq_refl).
vm_compute in H. discriminate H.
Qed.

End WriteFacts.

(** ** parse_exif.py *)

Module ParseFacts.
Import Py ParseExif Aux.
Local Open Scope string_scope.

Lemma get_set (k k' : string) (v : pyval) (d : Meta) :
  get k (set k' v d) = if String.eqb k k' then Some v else get k d.
Proof.
unfold get, set. induction d as [|[a w] d IH]; simpl.
- reflexivity.
- destruct (String.eqb k' a) eqn:E; simpl.
  + apply String.eqb_eq in E. subst a.
    destruct (String.eqb k k'); reflexivity.
  + rewrite IH. destruct (String.eqb k a) eqn:Ea; [|reflexivity].
    apply String.eqb_eq in Ea. subst a.
    rewrite String.eqb_sym, E. reflexivity.
Qed.

Lemma get_set_other (k k' : string) (v : pyval) (d : Meta) :
  k <> k' -> get k (set k' v d) = get k d.
Proof.
intros Hn. rewrite get_set. apply String.eqb_neq in Hn. rewrite Hn. reflexivity.
Qed.

Lemma get_set_same (k : string) (v : pyval) (d : Meta) :
  get k (set k v d) = Some v.
Proof. rewrite get_set, String.eqb_refl. reflexivity. Qed.

Lemma get_add_pair_other (k key k1 v1 k2 v2 : string) (out : Meta) :
  k <> k1 -> k <> k2 -> get k (add_pair key k1 v1 k2 v2 out) = get k out.
Proof.
intros H1 H2. unfold add_pair. destruct (_non_null _); [|reflexivity].
rewrite !get_set_other by assumption. reflexivity.
Qed.

Lemma get_add_pair_first (key k1 v1 k2 v2 : string) (out : Meta) :
  k1 <> k2 ->
  get k1 (add_pair key k1 v1 k2 v2 out)
  = if _non_null (get_or_none key out) then Some (VStr v1) else get k1 out.
Proof.
intros Hn. unfold add_pair. destruct (_non_null _); [|reflexivity].
rewrite get_set_other by exact Hn. apply get_set_same.
Qed.

Lemma get_add_pair_second (key k1 v1 k2 v2 : string) (out : Meta) :
  get k2 (add_pair key k1 v1 k2 v2 out)
  = if _non_null (get_or_none key out) then Some (VStr v2) else get k2 out.
Proof.
unfold add_pair. destruct (_non_null _); [|reflexivity]. apply get_set_same.
Qed.

(** *** Whitespace *)

Lemma lstrip_empty (p : ascii -> bool) (s : string) :
  lstrip_with p s = EmptyString <-> forallb p (list_ascii_of_string s) = true.
Proof.
induction s as [|c s IH]; simpl.
- split; reflexivity.
- destruct (p c); simpl; [exact IH|]. split; discriminate.
Qed.

Lemma lstrip_chars (p : ascii -> bool) (s : string) :
  forallb p (list_ascii_of_string (lstrip_with p s))
  = forallb p (list_ascii_of_string s).
Proof.
induction s as [|c s IH]; simpl; [reflexivity|].
destruct (p c) eqn:E; simpl; [exact IH | rewrite E; reflexivity].
Qed.

Lemma forallb_rev {A} (p : A -> bool) (l : list A) :
  forallb p (rev l) = forallb p l.
Proof.
induction l as [|a l IH]; simpl; [reflexivity|].
rewrite forallb_app, IH. simpl. rewrite andb_true_r. apply andb_comm.
Qed.

Lemma rev_string_empty (s : string) : rev_string s = EmptyString <-> s = EmptyString.
Proof.
unfold rev_string. split.
- intros H. destruct s as [|c s]; [reflexivity|].
  apply (f_equal list_ascii_of_string) in H.
  rewrite list_ascii_of_string_of_list_ascii in H. simpl in H.
  destruct (rev (list_ascii_of_string s)); discriminate.
- intros ->. reflexivity.
Qed.

Lemma strip_empty (s : string) : strip s = EmptyString <-> all_space s = true.
Proof.
unfold strip, rstrip_with, all_space.
rewrite rev_string_empty, lstrip_empty. unfold rev_string.
rewrite list_ascii_of_string_of_list_ascii, forallb_rev, lstrip_chars.
reflexivity.
Qed.

(** [_non_null], in the words of its docstring. *)
Lemma non_null_spec (x : pyval) :
  _non_null x = true <->
  x <> VNone /\
  (forall s, x = VStr s -> all_space s = false) /\
  x <> VList [] /\ x <> VTuple [] /\ x <> VDict [].
Proof.
destruct x as [|b|z|f|s|l|l|d]; simpl.
- split; [discriminate | intros [H _]; contradiction].
- split; [intros _|reflexivity]. repeat split; try discriminate.
- split; [intros _|reflexivity]. repeat split; try discriminate.
- split; [intros _|reflexivity]. repeat split; try discriminate.
- rewrite negb_true_iff. split.
  + intros H. repeat split; try discriminate.
    intros s' E. injection E as <-.
    destruct (all_space s) eqn:Ha; [|reflexivity].
    apply strip_empty in Ha. rewrite Ha in H. discriminate.
  + intros [_ [H _]]. specialize (H s eq_refl).
    apply String.eqb_neq. intros E. apply strip_empty in E. congruence.
- destruct l; simpl.
  + split; [discriminate | intros [_ [_ [H _]]]; contradiction].
  + split; [intros _|reflexivity]. repeat split; discriminate.
- destruct l; simpl.
  + split; [discriminate | intros [_ [_ [_ [H _]]]]; contradiction].
  + split; [intros _|reflexivity]. repeat split; discriminate.
- destruct d; simpl.
  + split; [discriminate | intros [_ [_ [_ [_ H]]]]; contradiction].
  + split; [intros _|reflexivity]. repeat split; discriminate.
Qed.

(** *** The title loop *)

Lemma nth_error_spaces (n : nat) :
  nth_error (list_ascii_of_string (spaces (S n))) n = Some " "%char.
Proof. induction n as [|n IH]; [reflexivity | exact IH]. Qed.

Lemma length_spaces (n : nat) : String.length (spaces n) = n.
Proof. induction n as [|n IH]; simpl; [reflexivity | rewrite IH; reflexivity]. Qed.

Lemma length_chars (s : string) :
  List.length (list_ascii_of_string s) = String.length s.
Proof. induction s as [|c s IH]; simpl; [reflexivity | rewrite IH; reflexivity]. Qed.

Lemma substring_spaces (n : nat) : substring 0 n (spaces (S n)) = spaces n.
Proof. induction n as [|n IH]; [reflexivity | simpl in *; rewrite IH; reflexivity]. Qed.

Lemma last_of_spaces (n : nat) :
  subscript (VStr (spaces (S n))) (-1) = Ok (VStr " ").
Proof.
unfold subscript, list_index. rewrite length_chars, length_spaces.
change (-1 <? 0)%Z with true. cbv iota.
destruct ((-1 + Z.of_nat (S n) <? 0)%Z
          || (Z.of_nat (S n) <=? -1 + Z.of_nat (S n))%Z) eqn:E.
- apply orb_true_iff in E.
  destruct E as [E|E]; [apply Z.ltb_lt in E | apply Z.leb_le in E]; lia.
- replace (Z.to_nat (-1 + Z.of_nat (S n))) with n by lia.
  rewrite nth_error_spaces. reflexivity.
Qed.

(** On a title made of spaces only the loop strips every character and then
    reads the last character of the empty string. *)
Lemma drop_trailing_blanks_spaces (n fuel : nat) :
  (n < fuel)%nat -> drop_trailing_blanks fuel (VStr (spaces n)) = Raise IndexError.
Proof.
revert fuel. induction n as [|n IH]; intros fuel Hf.
- destruct fuel as [|fuel]; [lia | reflexivity].
- destruct fuel as [|fuel]; [lia|].
  cbn [drop_trailing_blanks]. rewrite last_of_spaces. cbn [bind is_blank].
  rewrite String.eqb_refl. cbn [drop_last].
  rewrite length_spaces. replace (S n - 1)%nat with n by lia.
  rewrite substring_spaces. apply IH. lia.
Qed.

Lemma subscript_size (t c : pyval) : subscript t (-1) = Ok c -> (0 < size t)%nat.
Proof.
destruct t as [|b|z|f|s|l|l|d]; simpl; try discriminate.
- destruct s; [discriminate | simpl; lia].
- destruct l; [discriminate | simpl; lia].
- destruct l; [discriminate | simpl; lia].
Qed.

Lemma length_substring_0 (s : string) (n : nat) :
  (n <= String.length s)%nat -> String.length (substring 0 n s) = n.
Proof.
revert n. induction s as [|c s IH]; intros n Hn; simpl in *.
- destruct n; [reflexivity | lia].
- destruct n as [|n]; [reflexivity|]. simpl. rewrite IH by lia. reflexivity.
Qed.

Lemma size_drop_last (t c : pyval) :
  subscript t (-1) = Ok c -> size (drop_last t) = (size t - 1)%nat.
Proof.
destruct t as [|b|z|f|s|l|l|d]; simpl; try discriminate; intros _.
- apply length_substring_0. lia.
- apply firstn_length_le. lia.
- apply firstn_length_le. lia.
Qed.

(** The loop never uses up the turns it is given. *)
Lemma drop_trailing_blanks_fuel (fuel : nat) (t : pyval) :
  (size t < fuel)%nat -> drop_trailing_blanks fuel t <> Raise RuntimeError.
Proof.
revert t. induction fuel as [|fuel IH]; intros t Hf; [lia|].
cbn [drop_trailing_blanks].
destruct (subscript t (-1)) as [c|e] eqn:Hs; cbn [bind].
- pose proof (size_drop_last t c Hs) as Hd.
  apply subscript_size in Hs. destruct (is_blank c); [|discriminate].
  apply IH. lia.
- destruct t as [|b|z|f|s|l|l|d]; simpl in Hs; try (injection Hs as <-; discriminate).
  + unfold list_index in Hs.
    destruct (_ || _); [injection Hs as <-; discriminate|].
    destruct (nth_error _ _); [discriminate | injection Hs as <-; discriminate].
  + unfold list_index in Hs.
    destruct (_ || _); [injection Hs as <-; discriminate|].
    destruct (nth_error _ _); [discriminate | injection Hs as <-; discriminate].
  + unfold list_index in Hs.
    destruct (_ || _); [injection Hs as <-; discriminate|].
    destruct (nth_error _ _); [discriminate | injection Hs as <-; discriminate].
Qed.

Lemma replace_double_space_cons (a b : ascii) (s : string) :
  replace_double_space (String a (String b s))
  = if Ascii.eqb a " " && Ascii.eqb b " "
    then String " " (replace_double_space s)
    else String a (replace_double_space (String b s)).
Proof. reflexivity. Qed.

Lemma has_double_space_cons (a b : ascii) (s : string) :
  has_double_space (String a (String b s))
  = (Ascii.eqb a " " && Ascii.eqb b " ") || has_double_space (String b s).
Proof. reflexivity. Qed.

(** Every turn of the loop that collapses the spaces shortens the string, so
    the turns given, one per character, are enough: no doubled space is left. *)
Lemma replace_double_space_length (n : nat) (s : string) :
  (String.length s <= n)%nat ->
  (String.length (replace_double_space s) <= String.length s)%nat /\
  (has_double_space s = true ->
   (String.length (replace_double_space s) < String.length s)%nat).
Proof.
revert s. induction n as [|n IH]; intros s Hn.
- destruct s; [|simpl in Hn; lia]. simpl. split; [lia | discriminate].
- destruct s as [|a [|b s'']].
  + simpl. split; [lia | discriminate].
  + simpl. split; [lia | discriminate].
  + rewrite replace_double_space_cons, has_double_space_cons.
    destruct (Ascii.eqb a " " && Ascii.eqb b " ").
    * destruct (IH s'') as [H1 _]; [simpl in Hn; lia|].
      cbn [String.length]. split; intros; lia.
    * destruct (IH (String b s'')) as [H1 H2]; [simpl in Hn; simpl; lia|].
      cbn [orb]. cbn [String.length] in *. split; [lia|].
      intros Hd. specialize (H2 Hd). lia.
Qed.

Lemma collapse_spaces_done (fuel : nat) (s : string) :
  (String.length s <= fuel)%nat ->
  has_double_space (collapse_spaces fuel s) = false.
Proof.
revert s. induction fuel as [|fuel IH]; intros s Hf.
- destruct s; [reflexivity | simpl in Hf; lia].
- cbn [collapse_spaces]. destruct (has_double_space s) eqn:Hd; [|exact Hd].
  apply IH.
  destruct (replace_double_space_length (String.length s) s (le_n _)) as [_ H].
  specialize (H Hd). lia.
Qed.

(** *** The people loop *)

Lemma append_assoc (a b c : string) : (a ++ b) ++ c = a ++ (b ++ c).
Proof. induction a as [|x a IH]; simpl; [reflexivity | rewrite IH; reflexivity]. Qed.

Lemma add_people_strings (t : string) (ps : list string) :
  add_people (VStr t) (map VStr ps) = Ok (VStr (join " " (t :: ps))).
Proof.
revert t. induction ps as [|q ps IH]; intros t; [reflexivity|].
cbn [map add_people add_person bind]. rewrite IH.
unfold join. simpl. destruct ps as [|r ps]; [reflexivity|].
rewrite !append_assoc. reflexivity.
Qed.

Lemma condense_people_strings (meta : Meta) (p : string) (ps : list string) :
  _first_present meta ["XMP-iptcExt:PersonInImage"] = VList (map VStr (p :: ps)) ->
  condense_people meta = Ok (VStr (join " " (p :: ps))).
Proof.
intros H. unfold condense_people. rewrite H.
cbn [map list_index]. unfold list_index. simpl. apply add_people_strings.
Qed.

(** *** Absent sources *)

Lemma first_present_absent (meta : Meta) (keys : list string) :
  (forall k, In k keys -> get_or_none k meta = VNone) ->
  _first_present meta keys = VNone.
Proof.
induction keys as [|k keys IH]; intros H; [reflexivity|]. simpl.
assert (Hk : get_or_none k meta = VNone) by (apply H; left; reflexivity).
unfold get_or_none in Hk.
destruct (get k meta) as [v|]; [subst v|]; apply IH; intros x Hx; apply H; right; exact Hx.
Qed.

(** Metadata that hold none of the source keys (or [None] under them) are
    condensed to the record of seven absent fields. *)
Lemma condense_metadata_absent (meta : Meta) :
  (forall k,
     In k ["XMP-dc:Description"; "IFD0:ImageDescription"; "Description";
           "ImageDescription"; "EXIF:CreateDate"; "CreateDate"; "XMP-xmp:CreateDate";
           "IPTC:By-line"; "IFD0:Artist"; "Creator"; "Artist";
           "XMP-iptcExt:PersonInImage"; "XMP-plus:ImageSupplier";
           "XMP-iptcCore:Location"; "XMP-photoshop:Headline"] ->
     get_or_none k meta = VNone) ->
  condense_metadata meta
  = Ok [("title", VNone); ("begin", VNone); ("people_agent_header_1", VNone);
        ("people_agent_header_2", VNone); ("subject_1_term", VNone);
        ("n_odd", VNone); ("n_abstract", VNone)].
Proof.
intros H.
unfold condense_metadata, condense_title, condense_people, condense_location,
  _extract_nested.
rewrite !first_present_absent; [reflexivity| | | | | | |];
  intros k Hk; apply H; simpl in Hk; simpl; tauto.
Qed.

(** *** Augmentation *)

Ltac get_past :=
  repeat first [ rewrite get_add_pair_other by discriminate
               | rewrite get_set_other by discriminate ].

Section Augment.
Variable stat_size : string -> result Z.
Variable rounded_ratio : Z -> Z -> Z -> result pyval.

Lemma augment_returns (image_path : string) (condensed : Meta) (hierarchy : pyval)
    (mb_base round_digits : Z) :
  size_settled stat_size rounded_ratio image_path mb_base round_digits ->
  exists out, augment_condensed_metadata stat_size rounded_ratio image_path condensed hierarchy mb_base round_digits = Ok out.
Proof.
intros [Hs | [b [n [Hs Hr]]]]; unfold augment_condensed_metadata;
  rewrite Hs; cbn [bind]; [|rewrite Hr]; eexists; reflexivity.
Qed.

Lemma augment_gets (image_path : string) (condensed : Meta) (hierarchy : pyval)
    (mb_base round_digits : Z) (out : Meta) :
  augment_condensed_metadata stat_size rounded_ratio image_path condensed hierarchy
    mb_base round_digits = Ok out ->
  forall key k1 v1 k2 v2, In (key, (k1, v1), (k2, v2)) descriptor_pairs ->
    get key out = get key condensed /\
    get k1 out = (if _non_null (get_or_none key condensed)
                  then Some (VStr v1) else get k1 condensed) /\
    get k2 out = (if _non_null (get_or_none key condensed)
                  then Some (VStr v2) else get k2 condensed).
Proof.
intros H. unfold augment_condensed_metadata in H.
match type of H with
| bind ?sized _ = _ => destruct sized as [o|e] eqn:Hs; [|discriminate]
end.
assert (Ho : exists n, o = set "extent_type" (VStr "MB")
                           (set "number" n (set "hierarchy" hierarchy condensed))).
{ destruct (bind (stat_size image_path) _) as [n|[]]; try discriminate;
    injection Hs as <-; eexists; reflexivity. }
destruct Ho as [n ->]. cbn [bind] in H. injection H as <-.
intros key k1 v1 k2 v2 Hin. unfold descriptor_pairs in Hin.
repeat (destruct Hin as [Hin|Hin];
        [injection Hin as <- <- <- <- <-;
         repeat split; get_past;
         rewrite ?get_add_pair_first, ?get_add_pair_second by discriminate;
         unfold get_or_none; get_past; reflexivity|]).
destruct Hin.
Qed.

(** C8.  Whenever the size of the file is settled (the file is missing, or
    its size is read and divided), [augment_condensed_metadata] returns a
    record in which, for each of the five condensed fields [begin],
    [people_agent_header_1], [people_agent_header_2], [n_odd] and
    [subject_1_term]: the field itself is as in the condensed record; its two
    descriptor fields hold their fixed values when the field is non-null, and
    are as in the condensed record (absent, when it has none) otherwise.  A
    value is non-null when it is not [None], not a string of whitespace only
    (the empty one included) and not an empty list, tuple or dict. *)
Theorem augment_pairs_iff_non_null (image_path : string) (condensed : Meta)
    (hierarchy : pyval) (mb_base round_digits : Z) :
  size_settled stat_size rounded_ratio image_path mb_base round_digits ->
  exists out,
    augment_condensed_metadata stat_size rounded_ratio image_path condensed hierarchy
      mb_base round_digits = Ok out /\
    (forall key k1 v1 k2 v2, In (key, (k1, v1), (k2, v2)) descriptor_pairs ->
       let present := _non_null (get_or_none key condensed) in
       get key out = get key condensed /\
       (present = true -> get k1 out = Some (VStr v1) /\ get k2 out = Some (VStr v2)) /\
       (present = false -> get k1 out = get k1 condensed /\ get k2 out = get k2 condensed) /\
       (get k1 condensed = None -> get k2 condensed = None ->
        (get k1 out <> None <-> present = true) /\
        (get k2 out <> None <-> present = true))) /\
    (forall x, _non_null x = true <->
       x <> VNone /\ (forall s, x = VStr s -> all_space s = false) /\
       x <> VList [] /\ x <> VTuple [] /\ x <> VDict []).
Proof.
intros Hsize.
destruct (augment_returns image_path condensed hierarchy mb_base round_digits Hsize)
  as [out Hout].
exists out. split; [exact Hout|]. split; [|apply non_null_spec].
intros key k1 v1 k2 v2 Hin present.
destruct (augment_gets _ _ _ _ _ _ Hout _ _ _ _ _ Hin) as [Hk [H1 H2]].
fold present in H1, H2.
split; [exact Hk|]. split; [|split].
- intros Hp. rewrite Hp in H1, H2. split; assumption.
- intros Hp. rewrite Hp in H1, H2. split; assumption.
- intros Hc1 Hc2. rewrite H1, H2, Hc1, Hc2.
  destruct present; split; split; congruence.
Qed.

(** C7, as the code has it.  The people are joined where the record is
    condensed: when the metadata hold a list of names under
    [XMP-iptcExt:PersonInImage] (and the title and the location are
    condensed without error), [condense_metadata] returns a record whose
    [people_agent_header_2] is the names joined by single spaces, and
    augmenting that record leaves the field as it is. *)
Theorem people_joined_by_condense (meta : Meta) (p : string) (ps : list string)
    (title n_odd : pyval) (image_path : string) (hierarchy : pyval)
    (mb_base round_digits : Z) :
  _first_present meta ["XMP-iptcExt:PersonInImage"] = VList (map VStr (p :: ps)) ->
  condense_title meta = Ok title ->
  condense_location meta = Ok n_odd ->
  size_settled stat_size rounded_ratio image_path mb_base round_digits ->
  exists condensed out,
    condense_metadata meta = Ok condensed /\
    get "people_agent_header_2" condensed = Some (VStr (join " " (p :: ps))) /\
    augment_condensed_metadata stat_size rounded_ratio image_path condensed hierarchy
      mb_base round_digits = Ok out /\
    get "people_agent_header_2" out = Some (VStr (join " " (p :: ps))).
Proof.
intros Hp Ht Hl Hsize.
unfold condense_metadata. rewrite Ht, (condense_people_strings meta p ps Hp), Hl.
cbn [bind]. eexists.
match goal with
| |- exists out, Ok ?c = Ok _ /\ _ =>
    destruct (augment_returns image_path c hierarchy mb_base round_digits Hsize)
      as [out Hout]
end.
exists out. split; [reflexivity|].
assert (Hc : forall c, get "people_agent_header_2"
           (set "n_abstract" c (set "n_odd" n_odd
             (set "subject_1_term"
               (_extract_nested meta ["XMP-plus:ImageSupplier"] "ImageSupplierName")
               (set "people_agent_header_2" (VStr (join " " (p :: ps)))
                 (set "people_agent_header_1"
                   (_first_present meta ["IPTC:By-line"; "IFD0:Artist"; "Creator"; "Artist"])
                   (set "begin"
                     (_first_present meta ["EXIF:CreateDate"; "CreateDate"; "XMP-xmp:CreateDate"])
                     (set "title" title [])))))))
           = Some (VStr (join " " (p :: ps)))).
{ intros c. get_past. apply get_set_same. }
split; [apply Hc|]. split; [exact Hout|].
destruct (augment_gets _ _ _ _ _ _ Hout "people_agent_header_2"
            "people_agent_role_2" "subject" "people_agent_relator_2" "associated name")
  as [Hk _].
{ unfold descriptor_pairs. right. right. left. reflexivity. }
rewrite Hk. apply Hc.
Qed.

End Augment.

Lemma augment_pairs_iff_non_null_witness :
  exists out,
    augment_condensed_metadata (fun _ => Raise FileNotFoundError) (fun _ _ _ => Ok VNone)
      "photos/test3.jpg"
      [("title", VStr "Sunset"); ("begin", VStr "2021:10:12 18:03:11");
       ("people_agent_header_1", VStr " "); ("n_odd", VNone)]
      (VInt 2) 1024 3 = Ok out /\
    get "dates_label" out = Some (VStr "creation") /\
    get "people_agent_role_1" out = None.
Proof.
destruct (augment_pairs_iff_non_null (fun _ => Raise FileNotFoundError)
            (fun _ _ _ => Ok VNone) "photos/test3.jpg"
            [("title", VStr "Sunset"); ("begin", VStr "2021:10:12 18:03:11");
             ("people_agent_header_1", VStr " "); ("n_odd", VNone)]
            (VInt 2) 1024 3 (or_introl eq_refl)) as [out [Hout [Hp _]]].
exists out. split; [exact Hout|]. split.
- exact (proj1 (proj1 (proj2 (Hp "begin" "dates_label" "creation" "date_type" "single"
                                (or_introl eq_refl))) eq_refl)).
- exact (proj1 (proj1 (proj2 (proj2 (Hp "people_agent_header_1" "people_agent_role_1"
                                        "creator" "people_agent_relator_1" "photographer"
                                        (or_intror (or_introl eq_refl))))) eq_refl)).
Defined.

Lemma people_joined_by_condense_witness :
  exists condensed out,
    condense_metadata
      [("XMP-iptcExt:PersonInImage", VList [VStr "Alice"; VStr "Bob"; VStr "Carol"])]
    = Ok condensed /\
    get "people_agent_header_2" condensed = Some (VStr "Alice Bob Carol") /\
    augment_condensed_metadata (fun _ => Ok 3373400) (fun _ _ _ => Ok (VInt 3))
      "photos/test3.jpg" condensed (VInt 2) 1024 3 = Ok out /\
    get "people_agent_header_2" out = Some (VStr "Alice Bob Carol").
Proof.
exact (people_joined_by_condense (fun _ => Ok 3373400) (fun _ _ _ => Ok (VInt 3))
         [("XMP-iptcExt:PersonInImage", VList [VStr "Alice"; VStr "Bob"; VStr "Carol"])]
         "Alice" ["Bob"; "Carol"] VNone VNone "photos/test3.jpg" (VInt 2) 1024 3
         eq_refl eq_refl eq_refl
         (or_intror (ex_intro _ 3373400 (ex_intro _ (VInt 3) (conj eq_refl eq_refl))))).
Defined.

(** C7 as stated fails: augmenting a condensed record whose people field is
    the list of three names keeps the list. *)
Lemma augment_keeps_people_list :
  exists out,
    augment_condensed_metadata (fun _ => Raise FileNotFoundError) (fun _ _ _ => Ok VNone)
      "photos/test3.jpg"
      [("people_agent_header_2", VList [VStr "Alice"; VStr "Bob"; VStr "Carol"])]
      (VInt 2) 1024 3 = Ok out /\
    get "people_agent_header_2" out
    = Some (VList [VStr "Alice"; VStr "Bob"; VStr "Carol"]) /\
    get "people_agent_header_2" out <> Some (VStr "Alice Bob Carol").
Proof.
eexists. split; [reflexivity|]. split; [reflexivity | discriminate].
Qed.

(** C5 fails in the code: a title that is empty or holds spaces only makes
    [condense_metadata] raise [IndexError], whatever else the metadata
    hold: the loop that strips the trailing spaces reads the last character
    of the emptied string. *)
Theorem condense_blank_title_raises (meta : Meta) (n : nat) :
  _first_present meta
    ["XMP-dc:Description"; "IFD0:ImageDescription"; "Description"; "ImageDescription"]
  = VStr (spaces n) ->
  condense_metadata meta = Raise IndexError.
Proof.
intros H. unfold condense_metadata, condense_title. rewrite H.
rewrite drop_trailing_blanks_spaces; [reflexivity|].
simpl. rewrite length_spaces. lia.
Qed.

Lemma condense_blank_title_raises_witness :
  condense_metadata [("Description", VStr "")] = Raise IndexError /\
  condense_metadata [("ImageDescription", VStr "  "); ("Artist", VStr "Ann")]
  = Raise IndexError.
Proof.
split.
- exact (condense_blank_title_raises [("Description", VStr "")] 0 eq_refl).
- exact (condense_blank_title_raises
           [("ImageDescription", VStr "  "); ("Artist", VStr "Ann")] 2 eq_refl).
Defined.

End ParseFacts.

(** ** select_images.py: the ratings read *)

Module StarsFacts.
Import Py Aux SelectImages.
Local Open Scope string_scope.
Local Open Scope Z_scope.

Lemma clamp_stars_range (v : Z) : 0 <= Z.max 0 (Z.min 5 v) <= 5.
Proof. lia. Qed.

Lemma percent_stars_range (mp : option Z) (s : Z) :
  SelectImages._stars_from_percent mp = Some s -> 0 <= s <= 5.
Proof.
destruct mp as [p|]; [|discriminate]. intros H.
assert (E : SelectImages._stars_from_percent (Some p) = Some (Ratings._stars_from_percent p)).
{ unfold SelectImages._stars_from_percent, Ratings._stars_from_percent,
    Ratings.cuts, Ratings.stars.
  destruct (p <=? 0); [reflexivity|]. destruct (p >=? 99); reflexivity. }
rewrite E in H. injection H as <-. apply RatingsFacts.stars_range.
Qed.


Lemma normalize_stars_range (row : list (string * pyval)) stars xr mr mp (s : Z) :
  _normalize_stars row = (stars, xr, mr, mp) -> stars = Some s -> 0 <= s <= 5.
Proof.
unfold _normalize_stars.
destruct (_as_int (row_get "Rating" row)) as [x|];
  [|destruct (_as_int (row_get "MicrosoftPhoto:Rating" row)) as [m|]];
  intros H Hs; injection H as <- _ _ _.
- injection Hs as <-. lia.
- injection Hs as <-. lia.
- eapply percent_stars_range. exact Hs.
Qed.

(** [int(...)] takes the white space of [str.strip()] except the separators
    U+001C to U+001F: a rating padded with one of those does not convert. *)
Example as_int_padding :
  _as_int (VStr (String " " (String "5" (String "010" EmptyString)))) = Some 5 /\
  _as_int (VStr (String "160" (String "5" (String "133" EmptyString)))) = Some 5 /\
  _as_int (VStr (String "028" (String "5" EmptyString))) = None /\
  _as_int (VStr (String "5" (String "031" EmptyString))) = None /\
  strip (String "028" (String "5" (String "031" EmptyString))) = "5".
Proof. repeat split. Qed.

Lemma Path_of_not_empty (s : string) : Path_of s <> "".
Proof.
unfold Path_of. destruct (splitroot s) as [root rel].
match goal with |- (if String.eqb ?t "" then _ else _) <> _ =>
  destruct (String.eqb_spec t "") as [E|E] end.
- discriminate.
- exact E.
Qed.

(** [Path(...)] on some spellings of one file, and on the texts it keeps. *)
Example Path_of_spellings :
  Path_of "./photos/a.jpg" = "photos/a.jpg" /\
  Path_of "photos//a.jpg" = "photos/a.jpg" /\
  Path_of "photos/./a.jpg/" = "photos/a.jpg" /\
  Path_of "photos/a.jpg" = "photos/a.jpg" /\
  Path_of "///a" = "/a" /\ Path_of "//a" = "//a" /\ Path_of "/." = "/" /\
  Path_of "./" = "." /\ Path_of "a/.." = "a/..".
Proof. repeat split. Qed.

Lemma records_of_rows_invariant (rows : list (list (string * pyval)))
    (records : list RatingRecord) :
  records_of_rows rows = Ok records ->
  Forall2 record_of_row
    (filter (fun row => truthy (row_get "SourceFile" row)) rows) records.
Proof.
revert records. induction rows as [|row rows IH]; intros records H.
- injection H as <-. constructor.
- cbn [records_of_rows] in H. cbn [filter].
  destruct (truthy (row_get "SourceFile" row)) eqn:Ht; cbn [negb] in H.
  + destruct (row_get "SourceFile" row) as [| | | |src| | |] eqn:Hsrc; try discriminate.
    destruct (_normalize_stars row) as [[[st xr] mr] mp] eqn:Hn.
    destruct (records_of_rows rows) as [recs|e]; [|discriminate].
    cbn [bind] in H. injection H as <-.
    constructor; [|apply IH; reflexivity].
    exists src. split; [exact Hsrc|]. split.
    * intros ->. discriminate.
    * split; [reflexivity | exact Hn].
  + apply IH. exact H.
Qed.

Lemma records_of_rows_range (rows : list (list (string * pyval)))
    (records : list RatingRecord) :
  Forall2 record_of_row rows records ->
  Forall (fun r => path r <> "" /\
                   forall s, SelectImages.stars r = Some s -> 0 <= s <= 5) records.
Proof.
induction 1 as [|row r rows records (src & _ & _ & Hp & Hn) _ IH]; constructor; [|exact IH].
split.
- rewrite Hp. apply Path_of_not_empty.
- intros s Hs. eapply normalize_stars_range; eauto.
Qed.

(** X2.  [read_ratings_with_exiftool] returns one record for each row of the
    tool's output that has a source, in the order of the rows: its path is
    the path object [Path(src)] of the row's non-empty [SourceFile] text, and
    its stars and raw ratings are what [_normalize_stars] gives for the row.
    Rows without a source are skipped.  No record has an empty path, and
    stars are [None] or within 0..5.  For no files the result is the empty
    list, and the tool is not looked for. *)
Theorem read_ratings_records (w : World) (files : list Path)
    (records : list RatingRecord) :
  read_ratings_with_exiftool w files = Ok records ->
  (files = [] -> records = []) /\
  (files <> [] ->
   exiftool_in_path w = true /\
   exists rows,
     exiftool_output w files = Ok rows /\
     Forall2
       (fun row r =>
          exists src,
            row_get "SourceFile" row = VStr src /\ src <> "" /\
            path r = Path_of src /\
            _normalize_stars row =
              (SelectImages.stars r, xmp_rating r, ms_rating r, ms_rating_percent r))
       (filter (fun row => truthy (row_get "SourceFile" row)) rows) records /\
     (List.length records <= List.length rows)%nat /\
     Forall (fun r => path r <> "" /\
                      forall s, SelectImages.stars r = Some s -> 0 <= s <= 5)
            records).
Proof.
intros H. split.
- intros ->. injection H as <-. reflexivity.
- intros Hne. destruct files as [|f files]; [congruence|].
  cbn [read_ratings_with_exiftool] in H.
  destruct (exiftool_in_path w); [|discriminate]. split; [reflexivity|].
  cbn [negb] in H.
  destruct (exiftool_output w (f :: files)) as [rows|e]; [|discriminate].
  cbn [bind] in H. exists rows. split; [reflexivity|].
  pose proof (records_of_rows_invariant rows records H) as H1.
  split; [exact H1|]. split.
  + rewrite <- (Forall2_length H1). apply filter_length_le.
  + exact (records_of_rows_range _ _ H1).
Qed.

(** The tool spells the sources its own way: the records carry the path
    objects, which are the scanned files'. *)
Lemma read_ratings_records_witness :
  read_ratings_with_exiftool Samples.respelled_world Demo.files
    = Ok Samples.respelled_records /\
  Forall2
    (fun row r =>
       exists src,
         row_get "SourceFile" row = VStr src /\ src <> "" /\
         path r = Path_of src /\
         _normalize_stars row =
           (SelectImages.stars r, xmp_rating r, ms_rating r, ms_rating_percent r))
    (filter (fun row => truthy (row_get "SourceFile" row)) Samples.respelled_rows)
    Samples.respelled_records /\
  Forall (fun r => path r <> "" /\
                   forall s, SelectImages.stars r = Some s -> 0 <= s <= 5)
         Samples.respelled_records.
Proof.
split; [reflexivity|].
destruct (proj2 (read_ratings_records Samples.respelled_world Demo.files
                   Samples.respelled_records eq_refl))
  as [_ [rows [Hrows [H2 [_ H]]]]]; [discriminate|].
injection Hrows as <-. split; assumption.
Defined.

End StarsFacts.

(** ** select_images.py: more on the percentile and the filter *)

Module SelectionFacts.
Import Py Aux SelectImages FloatFacts SortFacts PercentileFacts FilterFacts.
Local Open Scope string_scope.
Local Open Scope Z_scope.

(** *** The percentile *)

Lemma strongly_sorted_perm_eq (l1 l2 : list Z) :
  StronglySorted Z.le l1 -> StronglySorted Z.le l2 -> Permutation l1 l2 -> l1 = l2.
Proof.
revert l2. induction l1 as [|x l1 IH]; intros l2 H1 H2 Hp.
- apply Permutation_nil in Hp. subst. reflexivity.
- destruct l2 as [|y l2]; [apply Permutation_sym, Permutation_nil in Hp; discriminate|].
  inversion H1 as [|? ? H1' Hx]; subst. inversion H2 as [|? ? H2' Hy]; subst.
  assert (Hxy : x = y).
  { assert (Hyin : In y (x :: l1))
      by (eapply Permutation_in; [apply Permutation_sym, Hp | left; reflexivity]).
    assert (Hxin : In x (y :: l2))
      by (eapply Permutation_in; [apply Hp | left; reflexivity]).
    rewrite Forall_forall in Hx, Hy.
    destruct Hyin as [E|Hyin]; [exact E|].
    destruct Hxin as [E|Hxin]; [symmetry; exact E|].
    specialize (Hx _ Hyin). specialize (Hy _ Hxin). lia. }
  subst y. f_equal. apply IH; try assumption.
  eapply Permutation_cons_inv. exact Hp.
Qed.

Lemma sorted_perm_eq (l1 l2 : list Z) :
  Permutation l1 l2 -> sorted Z.leb l1 = sorted Z.leb l2.
Proof.
intros Hp. apply strongly_sorted_perm_eq; try apply sorted_Z_strongly.
eapply Permutation_trans; [apply (sorted_perm Z.leb)|].
eapply Permutation_trans; [exact Hp|]. apply Permutation_sym, (sorted_perm Z.leb).
Qed.

(** X3.  The percentile depends on the values, not on the order in which they
    are given. *)
Theorem percentile_order_independent (values values' : list Z) (q : float) :
  Permutation values values' ->
  percentile_nearest_rank values q = percentile_nearest_rank values' q.
Proof.
intros Hp. destruct values as [|x xs].
- apply Permutation_nil in Hp. subst. reflexivity.
- destruct values' as [|y ys]; [apply Permutation_sym, Permutation_nil in Hp; discriminate|].
  unfold percentile_nearest_rank.
  rewrite (sorted_perm_eq _ _ Hp). reflexivity.
Qed.

Lemma percentile_order_independent_witness :
  percentile_nearest_rank [5; 1; 3; 2; 1] f_half
  = percentile_nearest_rank [1; 1; 2; 3; 5] f_half.
Proof.
apply (percentile_order_independent [5; 1; 3; 2; 1] [1; 1; 2; 3; 5] f_half).
apply (Permutation_trans (l' := [1; 5; 3; 2; 1])); [apply perm_swap|].
apply perm_skip.
apply (Permutation_trans (l' := [3; 5; 2; 1])); [apply perm_swap|].
apply (Permutation_trans (l' := [3; 2; 5; 1])); [apply perm_skip, perm_swap|].
apply (Permutation_trans (l' := [3; 2; 1; 5])); [do 2 apply perm_skip; apply perm_swap|].
apply (Permutation_trans (l' := [2; 3; 1; 5])); [apply perm_swap|].
apply (Permutation_trans (l' := [2; 1; 3; 5])); [apply perm_skip, perm_swap|].
apply (Permutation_trans (l' := [1; 2; 3; 5])); [apply perm_swap|].
apply Permutation_refl.
Defined.

(** A percentile that is not above zero (zero, negative or not a number)
    gives the least value. *)
Lemma percentile_at_zero (values : list Z) (q : float) :
  values <> [] -> Z.of_nat (List.length values) < 2 ^ 53 ->
  SFltb (S754_zero false) (sf q) = false ->
  exists v, percentile_nearest_rank values q = Ok v /\ In v values /\
            forall x, In x values -> v <= x.
Proof.
intros Hne Hlen Hq.
assert (Hc : clamp q = S754_zero false).
{ unfold clamp, float_max. cbn [f_zero sf]. rewrite Hq. reflexivity. }
rewrite (percentile_unfold values q Hne), Hc.
assert (Hn : 0 < Z.of_nat (List.length (sorted Z.leb values)) < 2 ^ 53).
{ rewrite sorted_length. split; [|exact Hlen].
  destruct values; [congruence | cbn [List.length]; lia]. }
rewrite (bind_ceil_ok _ _ _ (ceil_mul_zero _ Hn)).
change (Z.max 1 0 - 1) with 0.
pose proof (sorted_Z_strongly values) as Hs.
pose proof (sorted_perm Z.leb values) as Hp.
destruct (sorted Z.leb values) as [|v vs] eqn:Es.
{ apply Permutation_nil in Hp. congruence. }
exists v. split; [reflexivity|]. split.
- eapply Permutation_in; [exact Hp | left; reflexivity].
- intros x Hx. apply (Permutation_in _ (Permutation_sym Hp)) in Hx.
  inversion Hs as [|? ? _ Hall]; subst. rewrite Forall_forall in Hall.
  destruct Hx as [->|Hx]; [lia | apply Hall; exact Hx].
Qed.

(** *** The table of records *)

Lemma dict_mem_keys (k : Path) (d : list (Path * RatingRecord)) :
  dict_mem String.eqb k d = true <-> In k (map fst d).
Proof.
unfold dict_mem. induction d as [|[k0 v0] d IH]; cbn [dict_get map fst In].
- split; [discriminate | intros []].
- destruct (String.eqb_spec k k0) as [->|Hne].
  + split; [left; reflexivity | reflexivity].
  + rewrite IH. split; [right; assumption|]. intros [H|H]; [congruence | exact H].
Qed.

Lemma fold_records_keys (records : list RatingRecord) (d : list (Path * RatingRecord)) (k : Path) :
  In k (map fst (fold_left (fun d r => dict_set String.eqb (path r) r d) records d))
  <-> In k (map path records) \/ In k (map fst d).
Proof.
revert d. induction records as [|r records IH]; intros d; cbn [fold_left map In].
- tauto.
- rewrite IH, dict_set_keys. intuition congruence.
Qed.

Lemma fold_files_keys (files : list Path) (d : list (Path * RatingRecord)) (k : Path) :
  In k (map fst (fold_left
                   (fun d f => if dict_mem String.eqb f d then d
                               else dict_set String.eqb f (unrated_record f) d) files d))
  <-> In k files \/ In k (map fst d).
Proof.
revert d. induction files as [|f files IH]; intros d; cbn [fold_left In].
- tauto.
- rewrite IH. destruct (dict_mem String.eqb f d) eqn:Hm.
  + apply dict_mem_keys in Hm. intuition congruence.
  + rewrite dict_set_keys. intuition congruence.
Qed.

(** The paths of the table are the files scanned and the paths the tool
    reported. *)
Lemma by_path_keys (files : list Path) (records : list RatingRecord) (k : Path) :
  In k (map fst (by_path_of files records)) <-> In k files \/ In k (map path records).
Proof.
unfold by_path_of. rewrite fold_files_keys, fold_records_keys. cbn [map In]. tauto.
Qed.

Lemma fold_records_values (records : list RatingRecord) (d : list (Path * RatingRecord))
    (r : RatingRecord) :
  In r (map snd (fold_left (fun d r => dict_set String.eqb (path r) r d) records d)) ->
  In r records \/ In r (map snd d).
Proof.
revert d. induction records as [|r0 records IH]; intros d H; cbn [fold_left] in H.
- right. exact H.
- destruct (IH _ H) as [H'|H']; [left; right; exact H'|].
  apply in_map_iff in H'. destruct H' as ([k v] & Hv & Hin). cbn [snd] in Hv. subst v.
  destruct (dict_set_in _ _ _ _ _ Hin) as [[_ ->]|Hd]; [left; left; reflexivity|].
  right. apply in_map_iff. exists (k, r). auto.
Qed.

Lemma fold_files_values (files : list Path) (d : list (Path * RatingRecord))
    (r : RatingRecord) :
  In r (map snd (fold_left
                   (fun d f => if dict_mem String.eqb f d then d
                               else dict_set String.eqb f (unrated_record f) d) files d)) ->
  (exists f, In f files /\ r = unrated_record f) \/ In r (map snd d).
Proof.
revert d. induction files as [|f files IH]; intros d H; cbn [fold_left] in H.
- right. exact H.
- destruct (IH _ H) as [(f' & Hf' & Hr)|H'].
  + left. exists f'. split; [right; exact Hf' | exact Hr].
  + destruct (dict_mem String.eqb f d); [right; exact H'|].
    apply in_map_iff in H'. destruct H' as ([k v] & Hv & Hin). cbn [snd] in Hv. subst v.
    destruct (dict_set_in _ _ _ _ _ Hin) as [[_ ->]|Hd].
    * left. exists f. split; [left; reflexivity | reflexivity].
    * right. apply in_map_iff. exists (k, r). auto.
Qed.

(** A record of the table is one the tool reported, or the unrated record
    of a scanned file. *)
Lemma by_path_values (files : list Path) (records : list RatingRecord) (r : RatingRecord) :
  In r (dict_values (by_path_of files records)) ->
  In r records \/ exists f, In f files /\ r = unrated_record f.
Proof.
unfold by_path_of, dict_values. intros H.
destruct (fold_files_values _ _ _ H) as [H'|H']; [right; exact H'|].
destruct (fold_records_values _ _ _ H') as [H''|[]]. left. exact H''.
Qed.

Lemma keyed_paths (d : list (Path * RatingRecord)) :
  keyed d -> map path (dict_values d) = map fst d.
Proof.
intros [_ Hp]. unfold dict_values. rewrite map_map.
apply map_ext_in. intros [k r] Hin. cbn [fst snd]. apply Hp. exact Hin.
Qed.

Lemma partition_perm {A} (p : A -> bool) (l : list A) :
  Permutation (filter p l ++ filter (fun x => negb (p x)) l) l.
Proof.
induction l as [|a l IH]; cbn [filter]; [constructor|].
destruct (p a); cbn [negb app].
- constructor. exact IH.
- apply Permutation_sym, Permutation_cons_app, Permutation_sym. exact IH.
Qed.

Lemma record_paths_perm (files : list Path) (records : list RatingRecord) :
  Permutation
    (map path (sorted record_le (rated_of (by_path_of files records))
               ++ sorted record_le (unrated_of (by_path_of files records))))
    (map fst (by_path_of files records)).
Proof.
rewrite <- (keyed_paths _ (by_path_keyed files records)).
apply Permutation_map.
eapply Permutation_trans; [|apply (partition_perm is_rated)].
apply Permutation_app; apply sorted_perm.
Qed.

Section Filter.
Variable set_order : list Path -> list Path.
Hypothesis set_order_perm :
  forall l, Permutation (set_order l) (nodup string_dec l).

(** What a returned result is made of. *)
Lemma filter_ok_inv (w : World) (folder : Path) (q : float)
    (include_unrated recursive : bool) (extensions : option (list string))
    (res : FilterResult) :
  filter_images_by_rating set_order w folder q include_unrated recursive extensions
    = Ok res ->
  exists files records,
    collect_files w folder recursive (Some (effective_exts extensions)) = Ok files /\
    read_ratings_with_exiftool w files = Ok records /\
    let rated := rated_of (by_path_of files records) in
    let unrated := unrated_of (by_path_of files records) in
    (files = [] -> rated = [] /\ unrated = []) /\
    (rated = [] -> cutoff_stars res = None) /\
    (rated <> [] -> exists c, percentile_nearest_rank (star_values rated) q = Ok c /\
                              cutoff_stars res = Some c) /\
    selected res
    = sorted path_le (set_order
        ((match cutoff_stars res with
          | Some c => map path (filter (at_or_above c) rated)
          | None => []
          end) ++ (if include_unrated then map path unrated else []))%list) /\
    SelectImages.rated res = sorted record_le rated /\
    SelectImages.unrated res = sorted record_le unrated /\
    stats res = [("total_scanned", Z.of_nat (List.length files));
                 ("rated", Z.of_nat (List.length (SelectImages.rated res)));
                 ("unrated", Z.of_nat (List.length (SelectImages.unrated res)));
                 ("selected", Z.of_nat (List.length (selected res)))].
Proof.
intros H. unfold filter_images_by_rating in H. cbv zeta in H.
destruct (collect_files w folder recursive (Some (effective_exts extensions)))
  as [files|e]; [|discriminate].
cbn [bind] in H. destruct files as [|f files].
- injection H as <-. exists [], []. cbn.
  assert (Hs : set_order [] = []).
  { apply Permutation_nil, Permutation_sym. exact (set_order_perm []). }
  destruct include_unrated; cbn; rewrite Hs; repeat split; congruence.
- destruct (read_ratings_with_exiftool w (f :: files)) as [records|e] eqn:Hread;
    [|discriminate].
  cbn [bind] in H. exists (f :: files), records.
  split; [reflexivity|]. split; [exact Hread|]. cbv zeta.
  set (rated := rated_of (by_path_of (f :: files) records)) in *.
  set (unrated := unrated_of (by_path_of (f :: files) records)) in *.
  clearbody rated unrated.
  split; [discriminate|].
  assert (Hcase : rated = [] \/ rated <> [])
    by (destruct rated; [left; reflexivity | right; discriminate]).
  destruct Hcase as [Er|Hne].
  + subst rated. cbn [bind] in H. injection H as <-.
    cbn [cutoff_stars selected SelectImages.rated SelectImages.unrated stats app].
    split; [reflexivity|]. split; [congruence|].
    split; [destruct include_unrated; reflexivity|].
    split; [reflexivity|]. split; [reflexivity|].
    rewrite !sorted_length. reflexivity.
  + rewrite (cutoff_of_rated rated q Hne) in H.
    destruct (percentile_nearest_rank (star_values rated) q) as [c|e]; [|discriminate].
    cbn [bind] in H. injection H as <-.
    cbn [cutoff_stars selected SelectImages.rated SelectImages.unrated stats].
    split; [congruence|]. split; [intros _; exists c; split; reflexivity|].
    split.
    { destruct include_unrated; [reflexivity | rewrite app_nil_r; reflexivity]. }
    split; [reflexivity|]. split; [reflexivity|].
    rewrite !sorted_length. reflexivity.
Qed.

Lemma filter_returns (w : World) (folder : Path) (q : float)
    (include_unrated recursive : bool) (extensions : option (list string))
    (files : list Path) (records : list RatingRecord) :
  collect_files w folder recursive (Some (effective_exts extensions)) = Ok files ->
  read_ratings_with_exiftool w files = Ok records ->
  Z.of_nat (List.length (rated_of (by_path_of files records))) < 2 ^ 53 ->
  exists res,
    filter_images_by_rating set_order w folder q include_unrated recursive extensions
      = Ok res.
Proof.
intros Hc Hr Hlen. unfold filter_images_by_rating. cbv zeta. rewrite Hc. cbn [bind].
destruct files as [|f files]; [eexists; reflexivity|].
rewrite Hr. cbn [bind].
set (rated := rated_of (by_path_of (f :: files) records)) in *.
assert (Hcase : rated = [] \/ rated <> [])
  by (destruct (rated_of _); [left; reflexivity | right; discriminate]).
destruct Hcase as [Er|Hne].
- rewrite Er. cbn [bind]. eexists; reflexivity.
- rewrite (cutoff_of_rated rated q Hne).
  assert (Hsv : List.length (star_values rated) = List.length rated)
    by apply star_values_rated, rated_of_rated.
  destruct (percentile_returns (star_values rated) q) as (c & Hp & _).
  { intros E. apply Hne. apply length_zero_iff_nil. rewrite <- Hsv, E. reflexivity. }
  { rewrite Hsv. exact Hlen. }
  rewrite Hp. cbn [bind]. eexists; reflexivity.
Qed.

Lemma in_rated_of (bp : list (Path * RatingRecord)) (r : RatingRecord) :
  In r (rated_of bp) <-> In r (dict_values bp) /\ SelectImages.stars r <> None.
Proof.
unfold rated_of, is_rated. rewrite filter_In.
destruct (SelectImages.stars r); split; intros [H1 H2]; split;
  solve [assumption | discriminate | congruence].
Qed.

Lemma in_unrated_of (bp : list (Path * RatingRecord)) (r : RatingRecord) :
  In r (unrated_of bp) <-> In r (dict_values bp) /\ SelectImages.stars r = None.
Proof.
unfold unrated_of, is_rated. rewrite filter_In.
destruct (SelectImages.stars r); cbn [negb]; split; intros [H1 H2]; split;
  solve [assumption | discriminate | reflexivity].
Qed.

(** X4.  A returned result is consistent with itself: the four counts are the
    number of files scanned and the lengths of the three lists; the rated
    list holds the records with stars, the unrated list those without; no
    path occurs twice among them, every file scanned is among them, and so
    is every selected path; the cutoff is [None] exactly when nothing is
    rated. *)
Theorem filter_result_consistent (w : World) (folder : Path) (q : float)
    (include_unrated recursive : bool) (extensions : option (list string))
    (res : FilterResult) :
  filter_images_by_rating set_order w folder q include_unrated recursive extensions
    = Ok res ->
  exists files,
    collect_files w folder recursive (Some (effective_exts extensions)) = Ok files /\
    stats res = [("total_scanned", Z.of_nat (List.length files));
                 ("rated", Z.of_nat (List.length (SelectImages.rated res)));
                 ("unrated", Z.of_nat (List.length (SelectImages.unrated res)));
                 ("selected", Z.of_nat (List.length (selected res)))] /\
    Forall (fun r => SelectImages.stars r <> None) (SelectImages.rated res) /\
    Forall (fun r => SelectImages.stars r = None) (SelectImages.unrated res) /\
    NoDup (map path (SelectImages.rated res ++ SelectImages.unrated res)) /\
    (forall f, In f files ->
               In f (map path (SelectImages.rated res ++ SelectImages.unrated res))) /\
    (forall p, In p (selected res) ->
               In p (map path (SelectImages.rated res ++ SelectImages.unrated res))) /\
    (cutoff_stars res = None <-> SelectImages.rated res = []).
Proof.
intros H.
destruct (filter_ok_inv _ _ _ _ _ _ _ H)
  as (files & records & Hc & Hr & Hempty & Hnone & Hsome & Hsel & Hrated & Hunrated & Hstats).
exists files. split; [exact Hc|]. split; [exact Hstats|].
pose proof (record_paths_perm files records) as Hperm.
rewrite <- Hrated, <- Hunrated in Hperm.
split.
{ apply Forall_forall. intros r Hin. rewrite Hrated in Hin.
  apply in_sorted, in_rated_of in Hin. tauto. }
split.
{ apply Forall_forall. intros r Hin. rewrite Hunrated in Hin.
  apply in_sorted, in_unrated_of in Hin. tauto. }
split.
{ eapply Permutation_NoDup; [apply Permutation_sym, Hperm|].
  apply (by_path_keyed files records). }
split.
{ intros f Hf. eapply Permutation_in; [apply Permutation_sym, Hperm|].
  apply by_path_keys. left. exact Hf. }
split.
{ intros p Hp. rewrite Hsel in Hp. apply in_sorted, in_set_order in Hp;
    [|exact set_order_perm].
  rewrite map_app, in_app_iff, Hrated, Hunrated.
  apply in_app_iff in Hp. destruct Hp as [Hp|Hp].
  - left. destruct (cutoff_stars res) as [c|]; [|destruct Hp].
    apply in_map_iff in Hp. destruct Hp as (r & Hpr & Hin).
    apply filter_In in Hin. apply in_map_iff. exists r. split; [exact Hpr|].
    apply in_sorted. tauto.
  - right. destruct include_unrated; [|destruct Hp].
    apply in_map_iff in Hp. destruct Hp as (r & Hpr & Hin).
    apply in_map_iff. exists r. split; [exact Hpr|]. apply in_sorted. exact Hin. }
rewrite Hrated. split.
- intros Hn. destruct (rated_of (by_path_of files records)) as [|r rs] eqn:Er;
    [reflexivity|].
  destruct Hsome as (c & _ & Hcs); [discriminate | congruence].
- intros Hs. apply Hnone. apply length_zero_iff_nil.
  rewrite <- (sorted_length record_le), Hs. reflexivity.
Qed.

(** X5.  When no file carries a rating there is no cutoff: with the unrated
    files asked for, the selection is made of every file scanned and every
    path the tool reported; without them it is empty. *)
Theorem filter_without_ratings (w : World) (folder : Path) (q : float)
    (include_unrated recursive : bool) (extensions : option (list string))
    (files : list Path) (records : list RatingRecord) :
  collect_files w folder recursive (Some (effective_exts extensions)) = Ok files ->
  read_ratings_with_exiftool w files = Ok records ->
  Forall (fun r => SelectImages.stars r = None) records ->
  exists res,
    filter_images_by_rating set_order w folder q include_unrated recursive extensions
      = Ok res /\
    cutoff_stars res = None /\
    SelectImages.rated res = [] /\
    (include_unrated = true ->
     forall p, In p (selected res) <-> In p files \/ In p (map path records)) /\
    (include_unrated = false -> selected res = []).
Proof.
intros Hc Hr Hall.
assert (Hnil : rated_of (by_path_of files records) = []).
{ destruct (rated_of (by_path_of files records)) as [|r rs] eqn:Er; [reflexivity|].
  exfalso. assert (Hin : In r (rated_of (by_path_of files records)))
    by (rewrite Er; left; reflexivity).
  apply in_rated_of in Hin. destruct Hin as [Hv Hs]. apply Hs.
  destruct (by_path_values _ _ _ Hv) as [Hrec|(f & _ & ->)]; [|reflexivity].
  rewrite Forall_forall in Hall. apply Hall. exact Hrec. }
destruct (filter_returns w folder q include_unrated recursive extensions files records
            Hc Hr) as [res Hres].
{ rewrite Hnil. cbn. lia. }
exists res. split; [exact Hres|].
destruct (filter_ok_inv _ _ _ _ _ _ _ Hres)
  as (files' & records' & Hc' & Hr' & _ & Hnone & _ & Hsel & Hrated & _).
rewrite Hc in Hc'. injection Hc' as <-. rewrite Hr in Hr'. injection Hr' as <-.
specialize (Hnone Hnil). rewrite Hnone in Hsel.
split; [exact Hnone|]. split; [rewrite Hrated, Hnil; reflexivity|]. split.
- intros ->. intros p. rewrite Hsel. cbn [app].
  rewrite in_sorted, (in_set_order set_order set_order_perm), <- by_path_keys.
  rewrite <- (keyed_paths _ (by_path_keyed files records)).
  rewrite !in_map_iff. split.
  + intros (r & Hp & Hin). apply in_unrated_of in Hin. exists r. tauto.
  + intros (r & Hp & Hin). exists r. split; [exact Hp|]. apply in_unrated_of.
    split; [exact Hin|].
    destruct (SelectImages.stars r) eqn:Es; [|reflexivity].
    exfalso. assert (Hin' : In r (rated_of (by_path_of files records)))
      by (apply in_rated_of; split; [exact Hin | congruence]).
    rewrite Hnil in Hin'. destruct Hin'.
- intros ->. rewrite Hsel. cbn [app].
  assert (Hs : set_order [] = []).
  { apply Permutation_nil, Permutation_sym. exact (set_order_perm []). }
  rewrite Hs. reflexivity.
Qed.

(** X7.  A missing or failing tool is not passed over: with files to read and no
    [exiftool] in the path the call raises [RuntimeError], and an error of
    the tool's run is raised as it is. *)
Theorem filter_tool_errors (w : World) (folder : Path) (q : float)
    (include_unrated recursive : bool) (extensions : option (list string))
    (files : list Path) :
  collect_files w folder recursive (Some (effective_exts extensions)) = Ok files ->
  files <> [] ->
  (exiftool_in_path w = false ->
   filter_images_by_rating set_order w folder q include_unrated recursive extensions
     = Raise RuntimeError) /\
  (forall e, exiftool_in_path w = true -> exiftool_output w files = Raise e ->
   filter_images_by_rating set_order w folder q include_unrated recursive extensions
     = Raise e).
Proof.
intros Hc Hne. unfold filter_images_by_rating. cbv zeta. rewrite Hc. cbn [bind].
destruct files as [|f files]; [congruence|].
unfold read_ratings_with_exiftool. split.
- intros ->. reflexivity.
- intros e -> ->. reflexivity.
Qed.

End Filter.

(** The respelled demonstration folder: the file the tool reports twice and
    the files it spells its own way each occur once in the result. *)
Lemma filter_result_consistent_witness :
  filter_images_by_rating (nodup string_dec) Samples.respelled_world Demo.folder f_half
    true true None = Ok Samples.median_result /\
  exists files,
    collect_files Samples.respelled_world Demo.folder true (Some (effective_exts None))
      = Ok files /\
    NoDup (map path (SelectImages.rated Samples.median_result
                     ++ SelectImages.unrated Samples.median_result)) /\
    (forall f, In f files ->
               In f (map path (SelectImages.rated Samples.median_result
                               ++ SelectImages.unrated Samples.median_result))).
Proof.
assert (E : filter_images_by_rating (nodup string_dec) Samples.respelled_world
              Demo.folder f_half true true None = Ok Samples.median_result)
  by (vm_compute; reflexivity).
split; [exact E|].
destruct (filter_result_consistent (nodup string_dec) (fun l => Permutation_refl _)
            Samples.respelled_world Demo.folder f_half true true None
            Samples.median_result E)
  as (files & Hc & _ & _ & _ & Hnd & Hfiles & _).
exists files. repeat split; assumption.
Defined.

(** The demonstration folder when the tool reports two files, respelled and
    without a rating that converts: no cutoff, and the six files scanned are
    selected, each once. *)
Lemma filter_without_ratings_witness :
  read_ratings_with_exiftool Samples.unrated_world Demo.files
    = Ok Samples.unrated_records /\
  exists res,
    filter_images_by_rating (nodup string_dec) Samples.unrated_world Demo.folder f_half
      true true None = Ok res /\
    cutoff_stars res = None /\
    selected res = ["photos/a.jpg"; "photos/b.JPG"; "photos/C.jpg"; "photos/d.png";
                    "photos/e.jpeg"; "photos/f.jpg"] /\
    (forall p, In p (selected res) <->
               In p Demo.files \/ In p (map path Samples.unrated_records)).
Proof.
split; [reflexivity|].
destruct (filter_without_ratings (nodup string_dec) (fun l => Permutation_refl _)
            Samples.unrated_world Demo.folder f_half true true None Demo.files
            Samples.unrated_records)
  as (res & Hres & Hcut & _ & Hsel & _).
- reflexivity.
- reflexivity.
- repeat constructor.
- exists res. split; [exact Hres|]. split; [exact Hcut|]. split; [|apply Hsel; reflexivity].
  assert (E : filter_images_by_rating (nodup string_dec) Samples.unrated_world
                Demo.folder f_half true true None
              = Ok (mkFilterResult (selected res) (cutoff_stars res)
                      (SelectImages.rated res) (SelectImages.unrated res) (stats res)))
    by (rewrite Hres; destruct res; reflexivity).
  vm_compute in E. injection E as E1 _ _ _ _. symmetry. exact E1.
Defined.

Lemma filter_tool_errors_witness :
  filter_images_by_rating (nodup string_dec) Samples.bare_world Demo.folder f_half
    true true None = Raise RuntimeError.
Proof.
apply (proj1 (filter_tool_errors (nodup string_dec) Samples.bare_world Demo.folder f_half
                true true None Demo.files eq_refl ltac:(discriminate))).
reflexivity.
Defined.

End SelectionFacts.

(** ** write_metadata.py: the rows *)

Module RowFacts.
Import Py WriteMetadata Aux WriteFacts.
Local Open Scope string_scope.

Lemma dict_get_set {V} (k k' : string) (v : V) (d : list (string * V)) :
  dict_get String.eqb k (dict_set String.eqb k' v d)
  = if String.eqb k k' then Some v else dict_get String.eqb k d.
Proof.
induction d as [|[a w] d IH]; simpl; [reflexivity|].
destruct (String.eqb k' a) eqn:E; simpl.
- apply String.eqb_eq in E. subst a. destruct (String.eqb k k'); reflexivity.
- rewrite IH. destruct (String.eqb k a) eqn:Ea; [|reflexivity].
  apply String.eqb_eq in Ea. subst a. rewrite String.eqb_sym, E. reflexivity.
Qed.

Lemma row_get_set (h k c : string) (row : list (string * string)) :
  row_get h (dict_set String.eqb k c row)
  = if String.eqb h k then c else row_get h row.
Proof.
unfold row_get. rewrite dict_get_set. destruct (String.eqb h k); reflexivity.
Qed.

(** A row filled from a list of headers by a function of the header. *)
Lemma row_get_filled (g : string -> string) (hs : list string)
    (row : list (string * string)) (h : string) :
  row_get h (fold_left (fun d h' => dict_set String.eqb h' (g h') d) hs row)
  = if mem h hs then g h else row_get h row.
Proof.
revert row. induction hs as [|a hs IH]; intros row; cbn [fold_left]; [reflexivity|].
rewrite IH, row_get_set. unfold mem. cbn [existsb]. fold (mem h hs).
destruct (mem h hs) eqn:Hm; [rewrite orb_true_r; reflexivity|].
rewrite orb_false_r. destruct (String.eqb h a) eqn:E; [|reflexivity].
apply String.eqb_eq in E. subst a. reflexivity.
Qed.

Lemma row_get_setdefault (hs : list string) (row : list (string * string)) (h : string) :
  row_get h (fold_left (fun row h' => if dict_mem String.eqb h' row then row
                                      else dict_set String.eqb h' "" row) hs row)
  = row_get h row.
Proof.
revert row. induction hs as [|a hs IH]; intros row; cbn [fold_left]; [reflexivity|].
rewrite IH. destruct (dict_mem String.eqb a row) eqn:Hm; [reflexivity|].
rewrite row_get_set. destruct (String.eqb h a) eqn:E; [|reflexivity].
apply String.eqb_eq in E. subst a. unfold row_get, dict_mem in *.
destruct (dict_get String.eqb h row); [discriminate | reflexivity].
Qed.

(** Padding leaves the cell under every header as it was. *)
Lemma row_get_pad (headers : list string) (row : list (string * string)) (h : string) :
  In h headers -> row_get h (pad headers row) = row_get h row.
Proof.
intros Hin. unfold pad.
rewrite (row_get_filled (fun h' => row_get h' _)).
apply mem_In in Hin. rewrite Hin. apply row_get_setdefault.
Qed.

Lemma cells_pad (headers : list string) (row : list (string * string)) :
  map (fun h => row_get h (pad headers row)) headers
  = map (fun h => row_get h row) headers.
Proof. apply map_ext_in. intros h Hh. apply row_get_pad. exact Hh. Qed.

Section Rows.
Variable repr : pyval -> string.

Lemma build_row_stable (add : bool) (rec : list (string * pyval))
    (headers : list string) (row : list (string * string)) :
  add = false \/ (forall k, In k (dict_keys rec) -> In k headers) ->
  fold_left
    (fun st kv =>
       let '(headers, row) := st in
       let '(k, v) := kv in
       if negb (mem k headers) then
         if add
         then ((headers ++ [k])%list, dict_set String.eqb k (_normalize_cell repr v) row)
         else (headers, row)
       else (headers, dict_set String.eqb k (_normalize_cell repr v) row))
    rec (headers, row)
  = (headers,
     fold_left (fun row kv => if mem (fst kv) headers
                              then dict_set String.eqb (fst kv) (_normalize_cell repr (snd kv)) row
                              else row) rec row).
Proof.
revert row. induction rec as [|[k v] rec IH]; intros row Hc; [reflexivity|].
cbn [fold_left fst snd]. destruct (mem k headers) eqn:Hk; cbn [negb].
- apply IH. destruct Hc as [Hc|Hc]; [left; exact Hc|right].
  intros x Hx. apply Hc. right. exact Hx.
- destruct Hc as [Hc|Hc].
  + subst add. apply IH. left. reflexivity.
  + exfalso. assert (Hin : In k headers) by (apply Hc; left; reflexivity).
    apply mem_In in Hin. congruence.
Qed.

Lemma row_get_record_fold (headers : list string) (rec : list (string * pyval))
    (row : list (string * string)) (h : string) :
  NoDup (dict_keys rec) -> mem h headers = true ->
  row_get h (fold_left (fun row kv => if mem (fst kv) headers
                                      then dict_set String.eqb (fst kv)
                                             (_normalize_cell repr (snd kv)) row
                                      else row) rec row)
  = match dict_get String.eqb h rec with
    | Some v => _normalize_cell repr v
    | None => row_get h row
    end.
Proof.
revert row. induction rec as [|[k v] rec IH]; intros row Hnd Hh; [reflexivity|].
cbn [fold_left fst snd dict_get]. cbn [dict_keys map fst] in Hnd.
inversion Hnd as [|? ? Hnin Hnd']; subst.
rewrite IH by assumption.
destruct (String.eqb h k) eqn:E.
- apply String.eqb_eq in E. subst k.
  assert (Hnone : dict_get String.eqb h rec = None).
  { clear - Hnin. induction rec as [|[a w] rec IH]; [reflexivity|].
    cbn [dict_get]. destruct (String.eqb_spec h a) as [->|Hne].
    - exfalso. apply Hnin. left. reflexivity.
    - apply IH. intros H. apply Hnin. right. exact H. }
  rewrite Hnone, Hh, row_get_set, String.eqb_refl. reflexivity.
- destruct (dict_get String.eqb h rec); [reflexivity|].
  destruct (mem k headers); [|reflexivity].
  rewrite row_get_set, E. reflexivity.
Qed.

(** The row built for a record holds, under every header, the cell of the
    record. *)
Lemma build_row_cells (add : bool) (rec : list (string * pyval))
    (headers : list string) (h : string) :
  add = false \/ (forall k, In k (dict_keys rec) -> In k headers) ->
  NoDup (dict_keys rec) -> In h headers ->
  row_get h (snd (build_row repr add rec headers)) = cell_of repr rec h.
Proof.
intros Hc Hnd Hh. unfold build_row. rewrite build_row_stable by exact Hc.
cbn [snd]. apply mem_In in Hh. rewrite row_get_record_fold by assumption.
unfold cell_of. destruct (dict_get String.eqb h rec); [reflexivity|].
rewrite (row_get_filled (fun _ => "")). rewrite Hh. reflexivity.
Qed.

Lemma build_rows_rows (add : bool) (R : list (list (string * pyval)))
    (headers : list string) :
  add = false \/ (forall k, In k (all_keys R) -> In k headers) ->
  build_rows repr add R headers
  = (headers, map (fun rec => snd (build_row repr add rec headers)) R).
Proof.
intros Hc. unfold build_rows.
match goal with
| |- fold_left ?f R (headers, []) = _ =>
    enough (Hg : forall rows, fold_left f R (headers, rows)
                = (headers, (rows ++ map (fun rec => snd (build_row repr add rec headers)) R)%list))
      by apply Hg
end.
induction R as [|rec R IH]; intros rows.
- cbn. rewrite app_nil_r. reflexivity.
- cbn [fold_left map].
  assert (Hh : fst (build_row repr add rec headers) = headers).
  { apply build_row_headers.
    destruct Hc as [Hc|Hc]; [left; exact Hc|right].
    intros k Hk. apply Hc. unfold all_keys. cbn [flat_map]. apply in_or_app. left. exact Hk. }
  destruct (build_row repr add rec headers) as [h row] eqn:Hb. cbn [fst snd] in *.
  subst h. rewrite IH.
  + rewrite <- app_assoc. reflexivity.
  + destruct Hc as [Hc|Hc]; [left; exact Hc|right].
    intros k Hk. apply Hc. unfold all_keys. cbn [flat_map]. apply in_or_app. right. exact Hk.
Qed.

(** The rows written, in terms of the header written: the rows read, when
    they are kept, then one row per record. *)
Lemma append_data (input : option CsvTable) (R : list (list (string * pyval)))
    (add : bool) :
  exists new_rows,
    List.length new_rows = List.length R /\
    forall keep,
      let out := append_records_to_csv repr input R add keep in
      (Forall (fun rec => NoDup (dict_keys rec)) R ->
       new_rows = map (fun rec => map (cell_of repr rec) (header out)) R) /\
      data out
      = ((if keep
          then map (fun row => map (fun h => row_get h row) (header out))
                   (fst (_read_existing_csv input))
          else []) ++ new_rows)%list.
Proof.
unfold append_records_to_csv.
destruct (_read_existing_csv input) as [rows0 H0]. cbn [fst snd].
rewrite compute_headers_spec.
set (hs := match (H0 ++ (if add then new_columns H0 R else []))%list with
           | [] => fst (add_record_keys R ([], []))
           | _ :: _ => (H0 ++ (if add then new_columns H0 R else []))%list
           end).
assert (Hcov : add = false \/ (forall k, In k (all_keys R) -> In k hs)).
{ destruct add; [right|left; reflexivity]. intros k Hk. subst hs.
  pose proof (new_columns_cover H0 R k Hk) as Hin.
  destruct (H0 ++ new_columns H0 R)%list; [destruct Hin | exact Hin]. }
rewrite (build_rows_rows add R hs Hcov). cbn [header data].
exists (map (fun row => map (fun h => row_get h row) hs)
            (if add then map (pad hs) (map (fun rec => snd (build_row repr add rec hs)) R)
             else map (fun rec => snd (build_row repr add rec hs)) R)).
split; [destruct add; rewrite ?length_map; reflexivity|].
intros keep. cbv zeta. cbn [header data]. split.
- intros Hnd.
  assert (Hrow : forall rec, In rec R ->
            map (fun h => row_get h (snd (build_row repr add rec hs))) hs
            = map (cell_of repr rec) hs).
  { intros rec Hrec. apply map_ext_in. intros h Hh. apply build_row_cells.
    - destruct Hcov as [Hc|Hc]; [left; exact Hc|right].
      intros k Hk. apply Hc. unfold all_keys. apply in_flat_map. exists rec. auto.
    - rewrite Forall_forall in Hnd. apply Hnd. exact Hrec.
    - exact Hh. }
  destruct add; rewrite !map_map; apply map_ext_in; intros rec Hrec;
    rewrite ?cells_pad; apply Hrow; exact Hrec.
- rewrite map_app. f_equal. destruct keep; [|reflexivity].
  destruct add; [|reflexivity].
  rewrite map_map. apply map_ext. intros row. apply cells_pad.
Qed.

(** X8.  Each record is written as one row that holds, under every header of
    the output, the stringified value the record has for that header, or
    the empty string when it has none; the rows of the records come after
    the rows read, in the order of the records. *)
Theorem records_written_under_their_keys (input : option CsvTable)
    (R : list (list (string * pyval))) (add keep : bool) :
  Forall (fun rec => NoDup (dict_keys rec)) R ->
  let out := append_records_to_csv repr input R add keep in
  let kept := if keep then List.length (fst (_read_existing_csv input)) else 0%nat in
  skipn kept (data out) = map (fun rec => map (cell_of repr rec) (header out)) R /\
  (forall i rec j h,
     nth_error R i = Some rec -> nth_error (header out) j = Some h ->
     exists row, nth_error (data out) (kept + i) = Some row /\
                 nth_error row j = Some (cell_of repr rec h)).
Proof.
intros Hnd out kept.
destruct (append_data input R add) as (new_rows & Hlen & Hall).
destruct (Hall keep) as [Hnew Hdata].
fold out in Hnew, Hdata. specialize (Hnew Hnd).
assert (Hk : kept = List.length
          (if keep
           then map (fun row => map (fun h => row_get h row) (header out))
                    (fst (_read_existing_csv input))
           else [])).
{ subst kept. destruct keep; [rewrite length_map|]; reflexivity. }
assert (Hskip : skipn kept (data out)
                = map (fun rec => map (cell_of repr rec) (header out)) R).
{ rewrite Hdata, Hk, skipn_app, skipn_all, Nat.sub_diag. cbn [skipn app]. exact Hnew. }
split; [exact Hskip|].
intros i rec j h Hi Hj.
exists (map (cell_of repr rec) (header out)). split.
- rewrite Hdata, Hk, nth_error_app2 by lia.
  replace (_ + i - _)%nat with i by lia.
  rewrite Hnew.
  apply (map_nth_error (fun rec => map (cell_of repr rec) (header out))). exact Hi.
- apply map_nth_error. exact Hj.
Qed.

(** The rows the reader returned are written first when they are kept. *)
Lemma rows_of_reader (input : option CsvTable)
    (R : list (list (string * pyval))) (add : bool) :
  let body := fst (_read_existing_csv input) in
  let out := append_records_to_csv repr input R add true in
  let out' := append_records_to_csv repr input R add false in
  firstn (List.length body) (data out)
  = map (fun row => map (fun h => row_get h row) (header out)) body /\
  header out' = header out /\
  data out' = skipn (List.length body) (data out) /\
  List.length (data out') = List.length R.
Proof.
intros body out out'.
destruct (append_data input R add) as (new_rows & Hlen & Hall).
destruct (Hall true) as [_ Hdata]. destruct (Hall false) as [_ Hdata'].
fold out in Hdata. fold out' in Hdata'. fold body in Hdata. cbn [app] in Hdata'.
assert (Hh : header out' = header out).
{ subst out out'. rewrite !append_header. reflexivity. }
assert (Hb : List.length body
             = List.length (map (fun row => map (fun h => row_get h row) (header out)) body))
  by (rewrite length_map; reflexivity).
split; [|split; [exact Hh|split]].
- rewrite Hdata, Hb, firstn_app, firstn_all, Nat.sub_diag. cbn [firstn].
  apply app_nil_r.
- rewrite Hdata', Hdata, Hb, skipn_app, skipn_all, Nat.sub_diag. reflexivity.
- rewrite Hdata'. exact Hlen.
Qed.

(** X9.  With the existing rows kept, the output is the rows of the input
    file (none for a file that is missing or empty) followed by the rows of
    the records: each row of the file is written again cell by cell under
    the headers of the output, the cell under a header being what the row
    held for it and the empty string for a header the row did not have.
    Without them the output is the same with those first rows left out. *)
Theorem existing_rows_kept (input : option CsvTable)
    (R : list (list (string * pyval))) (add : bool) :
  let rows := match input with Some t => body t | None => [] end in
  let out := append_records_to_csv repr input R add true in
  let out' := append_records_to_csv repr input R add false in
  let cell (row : list (string * string)) (h : string) :=
    match dict_get String.eqb h row with Some c => c | None => "" end in
  data out = (map (fun row => map (cell row) (header out)) rows ++ data out')%list /\
  firstn (List.length rows) (data out)
  = map (fun row => map (cell row) (header out)) rows /\
  header out' = header out /\
  data out' = skipn (List.length rows) (data out) /\
  List.length (data out') = List.length R.
Proof.
assert (Hsplit : forall (A : Type) (n : nat) (l : list A),
          l = (firstn n l ++ skipn n l)%list)
  by (intros; symmetry; apply firstn_skipn).
destruct input as [t|]; cbv zeta.
- destruct (rows_of_reader (Some t) R add) as (H1 & H2 & H3 & H4).
  cbn [_read_existing_csv fst] in H1, H3.
  split; [|split; [exact H1 | split; [exact H2 | split; [exact H3 | exact H4]]]].
  rewrite (Hsplit _ (List.length (body t)) (data (append_records_to_csv repr (Some t) R add true))) at 1.
  rewrite H1, <- H3. reflexivity.
- destruct (rows_of_reader None R add) as (H1 & H2 & H3 & H4).
  cbn [_read_existing_csv fst] in H1, H3.
  split; [|split; [exact H1 | split; [exact H2 | split; [exact H3 | exact H4]]]].
  cbn [List.length skipn map app] in *. symmetry. exact H3.
Qed.

(** X10.  The table written is rectangular: every row has one cell for each
    header; and it has one row for each record, after one row for each row
    read when those are kept. *)
Theorem output_rectangular (input : option CsvTable)
    (R : list (list (string * pyval))) (add keep : bool) :
  let out := append_records_to_csv repr input R add keep in
  Forall (fun row => List.length row = List.length (header out)) (data out) /\
  List.length (data out)
  = ((if keep then List.length (fst (_read_existing_csv input)) else 0) + List.length R)%nat.
Proof.
intros out. split.
- subst out. unfold append_records_to_csv.
  destruct (_read_existing_csv input) as [rows0 hs0].
  destruct (build_rows repr add R _) as [h rows]. cbn [data header].
  apply Forall_forall. intros row Hrow. apply in_map_iff in Hrow.
  destruct Hrow as [r [Hr _]]. subst row. apply length_map.
- destruct (append_data input R add) as (new_rows & Hlen & Hall).
  destruct (Hall keep) as [_ Hdata].
  fold out in Hdata. rewrite Hdata, length_app, Hlen.
  destruct keep; [rewrite length_map|]; reflexivity.
Qed.

End Rows.

Lemma records_written_under_their_keys_witness :
  skipn 1 (data (append_records_to_csv (fun _ => "")
                   (Some (mkCsvTable ["title"; "x"] [[("title", "a"); ("x", "b")]]))
                   [[("title", VStr "Sunset"); ("number", VInt 3)];
                    [("n_odd", VStr "Nashville, TN"); ("title", VStr "Lawn")]] true true))
  = [["Sunset"; ""; "3"; ""]; ["Lawn"; ""; ""; "Nashville, TN"]].
Proof.
refine (proj1 (records_written_under_their_keys (fun _ => "")
                 (Some (mkCsvTable ["title"; "x"] [[("title", "a"); ("x", "b")]]))
                 [[("title", VStr "Sunset"); ("number", VInt 3)];
                  [("n_odd", VStr "Nashville, TN"); ("title", VStr "Lawn")]] true true _)).
repeat constructor; cbn; intuition discriminate.
Defined.

(** A file of one row and two columns, and two records: with the rows kept
    the row of the file comes first, padded under the new columns; without
    them the two rows of the records are all there is. *)
Lemma existing_rows_kept_witness :
  data (append_records_to_csv (fun _ => "") (Some Samples.template)
          Samples.two_records true true)
  = (["old"; "1"; ""; ""; ""]
     :: data (append_records_to_csv (fun _ => "") (Some Samples.template)
                Samples.two_records true false))%list /\
  data (append_records_to_csv (fun _ => "") (Some Samples.template)
          Samples.two_records true false)
  = [["Sunset"; ""; "2021"; "3"; ""]; ["Lawn"; ""; ""; ""; "Nashville, TN"]].
Proof.
split.
- exact (proj1 (existing_rows_kept (fun _ => "") (Some Samples.template)
                 Samples.two_records true)).
- reflexivity.
Defined.

End RowFacts.

(** ** parse_exif.py: condensing *)

Module CondenseFacts.
Import Py ParseExif Aux Shapes ParseFacts.
Local Open Scope string_scope.

(** *** [_first_present] *)

(** X11.  [_first_present] returns the value of the first key, in the order
    given, that the metadata hold with a value other than [None]; it returns
    [None] exactly when there is no such key. *)
Theorem first_present_first (meta : Meta) (keys : list string) :
  (_first_present meta keys = VNone <->
   forall k, In k keys -> get_or_none k meta = VNone) /\
  (forall v, _first_present meta keys = v -> v <> VNone ->
     exists before k after,
       keys = (before ++ k :: after)%list /\
       get k meta = Some v /\
       forall k', In k' before -> get_or_none k' meta = VNone).
Proof.
induction keys as [|k keys [IH1 IH2]]; cbn [_first_present].
- split; [split; [intros _ k [] | reflexivity]|]. intros v <- H. congruence.
- unfold get_or_none in *. destruct (get k meta) as [w|] eqn:E.
  + destruct w; try (split;
      [split; [discriminate | intros H; specialize (H k (or_introl eq_refl));
                              rewrite E in H; exact H]
      | intros v <- _; exists [], k, keys; split; [reflexivity|];
        split; [exact E | intros k' []]]).
    split.
    * rewrite IH1. split.
      -- intros H k' [<-|Hk']; [rewrite E; reflexivity | apply H; exact Hk'].
      -- intros H k' Hk'. apply H. right. exact Hk'.
    * intros v Hv Hn. destruct (IH2 v Hv Hn) as (b & k0 & a & Hk & Hg & Hb).
      exists (k :: b), k0, a. split; [rewrite Hk; reflexivity|].
      split; [exact Hg|]. intros k' [<-|Hk']; [rewrite E; reflexivity | apply Hb; exact Hk'].
  + split.
    * rewrite IH1. split.
      -- intros H k' [<-|Hk']; [rewrite E; reflexivity | apply H; exact Hk'].
      -- intros H k' Hk'. apply H. right. exact Hk'.
    * intros v Hv Hn. destruct (IH2 v Hv Hn) as (b & k0 & a & Hk & Hg & Hb).
      exists (k :: b), k0, a. split; [rewrite Hk; reflexivity|].
      split; [exact Hg|]. intros k' [<-|Hk']; [rewrite E; reflexivity | apply Hb; exact Hk'].
Qed.

(** *** Strings *)

Lemma chars_app (a b : string) :
  list_ascii_of_string (a ++ b) = (list_ascii_of_string a ++ list_ascii_of_string b)%list.
Proof. induction a as [|c a IH]; cbn; [reflexivity | rewrite IH; reflexivity]. Qed.

Lemma length_append (a b : string) :
  String.length (a ++ b) = (String.length a + String.length b)%nat.
Proof. induction a as [|c a IH]; cbn; [reflexivity | rewrite IH; reflexivity]. Qed.

Lemma str_snoc (s : string) :
  s <> "" -> exists s0 c, s = s0 ++ String c "".
Proof.
induction s as [|a s IH]; intros Hne; [congruence|].
destruct s as [|b s'].
- exists "", a. reflexivity.
- destruct IH as (s0 & c & E); [discriminate|].
  exists (String a s0), c. cbn. rewrite <- E. reflexivity.
Qed.

Lemma nth_error_snoc {A} (l : list A) (c : A) :
  nth_error (l ++ [c]) (List.length l) = Some c.
Proof. induction l as [|a l IH]; [reflexivity | exact IH]. Qed.

Lemma substring_snoc (s0 : string) (c : ascii) :
  substring 0 (String.length s0) (s0 ++ String c "") = s0.
Proof.
induction s0 as [|a s0 IH]; [reflexivity|]. cbn. rewrite IH. reflexivity.
Qed.

Lemma subscript_last (s0 : string) (c : ascii) :
  subscript (VStr (s0 ++ String c "")) (-1) = Ok (VStr (String c "")).
Proof.
unfold subscript, list_index. rewrite chars_app, length_app, length_chars.
cbn [list_ascii_of_string List.length].
change (-1 <? 0)%Z with true. cbv iota.
destruct ((-1 + Z.of_nat (String.length s0 + 1) <? 0)%Z
          || (Z.of_nat (String.length s0 + 1) <=? -1 + Z.of_nat (String.length s0 + 1))%Z)
  eqn:E.
- apply orb_true_iff in E.
  destruct E as [E|E]; [apply Z.ltb_lt in E | apply Z.leb_le in E]; lia.
- replace (Z.to_nat (-1 + Z.of_nat (String.length s0 + 1))) with (String.length s0) by lia.
  rewrite <- length_chars, nth_error_snoc. reflexivity.
Qed.

Lemma drop_last_snoc (s0 : string) (c : ascii) :
  drop_last (VStr (s0 ++ String c "")) = VStr s0.
Proof.
cbn [drop_last]. rewrite length_append. cbn [String.length].
replace (String.length s0 + 1 - 1)%nat with (String.length s0) by lia.
rewrite substring_snoc. reflexivity.
Qed.

Lemma append_empty_r (s : string) : s ++ "" = s.
Proof. induction s as [|a s IH]; cbn; [reflexivity | rewrite IH; reflexivity]. Qed.

Lemma spaces_snoc (k : nat) : spaces k ++ " " = spaces (S k).
Proof. induction k as [|k IH]; [reflexivity|]. cbn in *. rewrite IH. reflexivity. Qed.

Lemma has_ink_app (a b : string) : has_ink (a ++ b) = has_ink a || has_ink b.
Proof. unfold has_ink. rewrite chars_app. apply existsb_app. Qed.

Lemma ends_with_space_snoc (s0 : string) (c : ascii) :
  ends_with_space (s0 ++ String c "") = Ascii.eqb c " ".
Proof.
unfold ends_with_space. rewrite chars_app, rev_app_distr. reflexivity.
Qed.

(** *** The title *)

(** The loop on a string: it stops at the last character that is not a
    space, or fails when there is none. *)
Lemma title_loop_str (fuel : nat) (s : string) :
  (String.length s < fuel)%nat ->
  (has_ink s = true /\
   exists t k, drop_trailing_blanks fuel (VStr s) = Ok (VStr t) /\
               s = t ++ spaces k /\ t <> "" /\ ends_with_space t = false) \/
  (has_ink s = false /\ drop_trailing_blanks fuel (VStr s) = Raise IndexError).
Proof.
revert s. induction fuel as [|fuel IH]; intros s Hf; [lia|].
destruct (string_dec s "") as [->|Hne]; [right; split; reflexivity|].
destruct (str_snoc s Hne) as (s0 & c & ->).
cbn [drop_trailing_blanks]. rewrite subscript_last. cbn [bind is_blank].
rewrite length_append in Hf. cbn [String.length] in Hf.
destruct (Ascii.eqb_spec c " ") as [->|Hc].
- change (String.eqb " " " ") with true. cbv iota. rewrite drop_last_snoc.
  rewrite has_ink_app. change (has_ink " ") with false. rewrite orb_false_r.
  destruct (IH s0) as [(Hi & t & k & Hr & -> & Ht & He)|(Hi & Hr)]; [lia| |].
  + left. split; [exact Hi|]. exists t, (S k). split; [exact Hr|].
    split; [|split; assumption].
    rewrite <- spaces_snoc. apply append_assoc.
  + right. split; assumption.
- assert (Hb : String.eqb (String c "") " " = false).
  { apply String.eqb_neq. intros E. injection E as E. contradiction. }
  rewrite Hb. left. split.
  + rewrite has_ink_app. unfold has_ink at 2. cbn.
    destruct (Ascii.eqb_spec c " "); [contradiction|]. apply orb_true_r.
  + exists (s0 ++ String c ""), 0%nat. split; [reflexivity|].
    split; [symmetry; apply append_empty_r|].
    split; [destruct s0; discriminate|].
    rewrite ends_with_space_snoc. destruct (Ascii.eqb_spec c " "); [contradiction|reflexivity].
Qed.

Lemma is_str_drop_last (t : pyval) : is_str (drop_last t) = is_str t.
Proof. destruct t; reflexivity. Qed.

Lemma title_loop_kind (fuel : nat) (t r : pyval) :
  drop_trailing_blanks fuel t = Ok r -> is_str r = is_str t.
Proof.
revert t. induction fuel as [|fuel IH]; intros t H; [discriminate|].
cbn [drop_trailing_blanks] in H.
destruct (subscript t (-1)) as [c|e]; [|discriminate]. cbn [bind] in H.
destruct (is_blank c).
- rewrite (IH _ H). apply is_str_drop_last.
- injection H as <-. reflexivity.
Qed.

Lemma has_char_replaced (a b : ascii) (s : string) :
  a <> b -> has_char a (replace_char a b s) = false.
Proof.
intros Hab. unfold has_char. induction s as [|c s IH]; [reflexivity|].
cbn. rewrite IH, orb_false_r.
destruct (Ascii.eqb_spec c a) as [->|Hc]; apply Ascii.eqb_neq; congruence.
Qed.

Lemma replace_char_absent (a b : ascii) (s : string) :
  has_char a s = false -> replace_char a b s = s.
Proof.
unfold has_char. induction s as [|c s IH]; [reflexivity|]. cbn.
intros H. apply orb_false_iff in H. destruct H as [Hc Hs].
rewrite Ascii.eqb_sym, Hc, (IH Hs). reflexivity.
Qed.

Lemma replace_char_nonempty (a b : ascii) (s : string) :
  s <> "" -> replace_char a b s <> "".
Proof. destruct s; [congruence | discriminate]. Qed.

Lemma has_char_replace_double (n : nat) (c : ascii) (s : string) :
  (String.length s <= n)%nat ->
  has_char c s = false -> has_char c (replace_double_space s) = false.
Proof.
revert s. induction n as [|n IH]; intros s Hn Hc.
- destruct s; [reflexivity | simpl in Hn; lia].
- destruct s as [|a [|b s'']]; [reflexivity | exact Hc |].
  rewrite replace_double_space_cons.
  unfold has_char in *. cbn [list_ascii_of_string existsb] in Hc.
  apply orb_false_iff in Hc. destruct Hc as [Ha Hc].
  pose proof Hc as Hc'. apply orb_false_iff in Hc'. destruct Hc' as [Hb Hs].
  destruct (Ascii.eqb a " " && Ascii.eqb b " ") eqn:E.
  + apply andb_prop in E. destruct E as [Ea _]. apply Ascii.eqb_eq in Ea. subst a.
    cbn [list_ascii_of_string existsb]. rewrite Ha. cbn [orb].
    apply IH; [simpl in Hn; lia | exact Hs].
  + cbn [list_ascii_of_string existsb]. rewrite Ha. cbn [orb].
    apply (IH (String b s'')); [simpl in Hn |- *; lia | exact Hc].
Qed.

Lemma has_char_collapse (fuel : nat) (c : ascii) (s : string) :
  has_char c s = false -> has_char c (collapse_spaces fuel s) = false.
Proof.
revert s. induction fuel as [|fuel IH]; intros s Hc; [exact Hc|].
cbn [collapse_spaces]. destruct (has_double_space s); [|exact Hc].
apply IH. apply (has_char_replace_double (String.length s)); [lia | exact Hc].
Qed.

Lemma replace_double_nonempty (s : string) :
  s <> "" -> replace_double_space s <> "".
Proof.
destruct s as [|a [|b s'']]; [congruence | discriminate |].
intros _. rewrite replace_double_space_cons.
destruct (Ascii.eqb a " " && Ascii.eqb b " "); discriminate.
Qed.

Lemma collapse_nonempty (fuel : nat) (s : string) :
  s <> "" -> collapse_spaces fuel s <> "".
Proof.
revert s. induction fuel as [|fuel IH]; intros s Hs; [exact Hs|].
cbn [collapse_spaces]. destruct (has_double_space s); [|exact Hs].
apply IH, replace_double_nonempty, Hs.
Qed.

Lemma collapse_clean (fuel : nat) (s : string) :
  has_double_space s = false -> collapse_spaces fuel s = s.
Proof. intros H. destruct fuel; [reflexivity|]. cbn [collapse_spaces]. rewrite H. reflexivity. Qed.

(** The title lines return exactly on nothing and on a string that holds a
    character other than the space. *)
Lemma condense_title_ok (meta : Meta) :
  let src := _first_present meta
               ["XMP-dc:Description"; "IFD0:ImageDescription"; "Description";
                "ImageDescription"] in
  (exists t, condense_title meta = Ok t) <-> title_ok src = true.
Proof.
intros src. unfold condense_title. fold src.
destruct src as [|b|z|f|s|l|l|d] eqn:Es; cbn [title_ok].
- split; [reflexivity | intros _; eexists; reflexivity].
- split; [intros [t H]; discriminate | discriminate].
- split; [intros [t H]; discriminate | discriminate].
- split; [intros [t H]; discriminate | discriminate].
- cbn [size].
  destruct (title_loop_str (S (String.length s)) s) as [(Hi & t & k & Hr & _)|(Hi & Hr)];
    [lia | |]; rewrite Hr, Hi; cbn [bind].
  + split; [reflexivity | intros _; eexists; reflexivity].
  + split; [intros [t H]; discriminate | discriminate].
- split; [|discriminate]. intros [t H].
  destruct (drop_trailing_blanks _ _) as [r|e] eqn:Er; [|discriminate].
  apply title_loop_kind in Er. cbn in Er. destruct r; discriminate.
- split; [|discriminate]. intros [t H].
  destruct (drop_trailing_blanks _ _) as [r|e] eqn:Er; [|discriminate].
  apply title_loop_kind in Er. cbn in Er. destruct r; discriminate.
- split; [intros [t H]; discriminate | discriminate].
Qed.

(** What the title lines return. *)
Lemma condense_title_clean (meta : Meta) (title : pyval) :
  condense_title meta = Ok title ->
  let src := _first_present meta
               ["XMP-dc:Description"; "IFD0:ImageDescription"; "Description";
                "ImageDescription"] in
  (src = VNone /\ title = VNone) \/
  exists s t, src = VStr s /\ title = VStr t /\
    t <> "" /\ has_char newline t = false /\ has_double_space t = false /\
    (ends_with_space s = false -> has_char newline s = false ->
     has_double_space s = false -> t = s).
Proof.
intros H src. unfold condense_title in H. fold src in H.
destruct src as [|b|z|f|s|l|l|d] eqn:Es;
  try discriminate;
  try (exfalso; destruct (drop_trailing_blanks _ _) as [r|e] eqn:Er; [|discriminate];
       apply title_loop_kind in Er; cbn in Er; destruct r; discriminate).
- left. injection H as <-. split; reflexivity.
- right. cbn [size] in H.
  destruct (title_loop_str (S (String.length s)) s) as [(Hi & t & k & Hr & Hs & Ht & He)|(Hi & Hr)];
    [lia | |]; rewrite Hr in H; cbn [bind] in H; [|discriminate].
  injection H as <-. exists s, (collapse_spaces (String.length (replace_char newline " " t))
                                  (replace_char newline " " t)).
  split; [reflexivity|]. split; [reflexivity|].
  split; [apply collapse_nonempty, replace_char_nonempty, Ht|].
  split; [apply has_char_collapse, has_char_replaced; discriminate|].
  split; [apply collapse_spaces_done; lia|].
  intros Hend Hnl Hdbl.
  assert (Hk : t = s).
  { destruct k as [|k]; [rewrite Hs; symmetry; apply append_empty_r|].
    exfalso. rewrite <- spaces_snoc, <- append_assoc in Hs. rewrite Hs in Hend.
    rewrite ends_with_space_snoc in Hend. discriminate. }
  subst t. rewrite (replace_char_absent _ _ _ Hnl). apply collapse_clean. exact Hdbl.
Qed.

(** *** The people and the location *)

Lemma add_people_ok (x : pyval) (rest : list pyval) :
  (is_str x || is_list x) = true ->
  (exists r, add_people x rest = Ok r) <-> forallb is_str rest = true.
Proof.
revert x. induction rest as [|y rest IH]; intros x Hx; cbn [add_people forallb].
- split; [reflexivity | intros _; eexists; reflexivity].
- destruct y; cbn [add_person is_str andb];
    try (split; [intros [r H]; destruct x; discriminate | discriminate]).
  destruct x; try discriminate; cbn [bind]; apply IH; reflexivity.
Qed.

Lemma add_people_bad_first (x y : pyval) (rest : list pyval) :
  (is_str x || is_list x) = false -> add_people x (y :: rest) = Raise TypeError.
Proof.
intros Hx. cbn [add_people]. destruct y, x; try discriminate; reflexivity.
Qed.

Lemma condense_people_ok (meta : Meta) :
  (exists p, condense_people meta = Ok p)
  <-> people_ok (_first_present meta ["XMP-iptcExt:PersonInImage"]) = true.
Proof.
unfold condense_people.
destruct (_first_present meta ["XMP-iptcExt:PersonInImage"]) as [|b|z|f|s|l|l|d];
  cbn [people_ok]; try (split; [reflexivity | intros _; eexists; reflexivity]).
destruct l as [|x [|y rest]].
- split; [intros [p H]; discriminate | discriminate].
- split; [reflexivity | intros _; eexists; reflexivity].
- change (list_index (x :: y :: rest) 0) with (@Ok pyval x). cbn [bind tl].
  destruct (is_str x || is_list x) eqn:Hx; cbn [andb].
  + apply add_people_ok. exact Hx.
  + rewrite (add_people_bad_first x y rest Hx).
    split; [intros [p H]; discriminate | discriminate].
Qed.

Lemma strings_of_ok (l : list pyval) :
  (exists ss, strings_of l = Ok ss) <-> forallb is_str l = true.
Proof.
induction l as [|x l IH]; cbn [strings_of forallb].
- split; [reflexivity | intros _; eexists; reflexivity].
- destruct x; cbn [is_str andb];
    try (split; [intros [ss H]; discriminate | discriminate]).
  rewrite <- IH. split.
  + intros [ss H]. destruct (strings_of l) as [ss'|e]; [eexists; reflexivity | discriminate].
  + intros [ss H]. rewrite H. eexists; reflexivity.
Qed.

Lemma forallb_filter {A} (p q : A -> bool) (l : list A) :
  forallb (fun x => negb (p x) || q x) l = forallb q (filter p l).
Proof.
induction l as [|a l IH]; [reflexivity|]. cbn [forallb filter].
destruct (p a); cbn [negb orb forallb]; rewrite IH; reflexivity.
Qed.

Lemma forallb_mapped {A B} (p : B -> bool) (f : A -> B) (l : list A) :
  forallb (fun a => p (f a)) l = forallb p (map f l).
Proof. induction l as [|a l IH]; [reflexivity|]. cbn. rewrite IH. reflexivity. Qed.

Lemma condense_location_ok (meta : Meta) :
  (exists n, condense_location meta = Ok n)
  <-> location_ok (_first_present meta ["XMP-iptcCore:Location"]) = true.
Proof.
unfold condense_location.
destruct (_first_present meta ["XMP-iptcCore:Location"]) as [|b|z|f|s|l|l|d];
  cbn [location_ok]; try (split; [reflexivity | intros _; eexists; reflexivity]).
cbv zeta.
rewrite (forallb_mapped (fun x => negb (truthy x) || is_str x)
                        (fun k => get_or_none k d)).
rewrite forallb_filter, <- strings_of_ok.
destruct (filter truthy _) as [|x pieces] eqn:E.
- split; intros _; eexists; reflexivity.
- split.
  + intros [n H]. destruct (strings_of (x :: pieces)) as [ss|e];
      [eexists; reflexivity | discriminate].
  + intros [ss H]. rewrite H. eexists; reflexivity.
Qed.

(** *** The condensed record *)

Lemma condense_ok_inv (meta : Meta) (c : Meta) :
  condense_metadata meta = Ok c ->
  exists title people n_odd,
    condense_title meta = Ok title /\
    condense_people meta = Ok people /\
    condense_location meta = Ok n_odd /\
    c = [("title", title);
         ("begin", _first_present meta ["EXIF:CreateDate"; "CreateDate"; "XMP-xmp:CreateDate"]);
         ("people_agent_header_1",
          _first_present meta ["IPTC:By-line"; "IFD0:Artist"; "Creator"; "Artist"]);
         ("people_agent_header_2", people);
         ("subject_1_term",
          _extract_nested meta ["XMP-plus:ImageSupplier"] "ImageSupplierName");
         ("n_odd", n_odd);
         ("n_abstract", _first_present meta ["XMP-photoshop:Headline"])].
Proof.
unfold condense_metadata. intros H.
destruct (condense_title meta) as [title|e]; [|discriminate]. cbn [bind] in H.
destruct (condense_people meta) as [people|e]; [|discriminate]. cbn [bind] in H.
destruct (condense_location meta) as [n_odd|e]; [|discriminate]. cbn [bind] in H.
injection H as <-. exists title, people, n_odd. repeat split.
Qed.

(** X12.  Whenever [condense_metadata] returns, the title of the record is
    [None] (there was no title) or a non-empty string without a newline and
    without two spaces in a row; a title that had none of these and no
    space at its end is kept as it was. *)
Theorem condensed_title_clean (meta c : Meta) :
  condense_metadata meta = Ok c ->
  let src := _first_present meta
               ["XMP-dc:Description"; "IFD0:ImageDescription"; "Description";
                "ImageDescription"] in
  (src = VNone /\ get "title" c = Some VNone) \/
  exists s t, src = VStr s /\ get "title" c = Some (VStr t) /\
    t <> "" /\ has_char newline t = false /\ has_double_space t = false /\
    (ends_with_space s = false -> has_char newline s = false ->
     has_double_space s = false -> t = s).
Proof.
intros H src.
destruct (condense_ok_inv meta c H) as (title & people & n_odd & Ht & _ & _ & ->).
destruct (condense_title_clean meta title Ht) as [[Hs ->]|(s & t & Hs & -> & Hrest)].
- left. split; [exact Hs | reflexivity].
- right. exists s, t. split; [exact Hs|]. split; [reflexivity | exact Hrest].
Qed.

(** X13.  [condense_metadata] returns exactly when the title is missing or a
    string with a character other than the space, the people are not a
    list, or a list of one entry, or a list of strings behind a first
    entry that is a string or a list, and the location is not a dict or a
    dict whose named parts are strings where they are not empty; a record
    returned has the seven fields, in their order. *)
Theorem condense_returns_iff (meta : Meta) :
  ((exists c, condense_metadata meta = Ok c) <->
   title_ok (_first_present meta
               ["XMP-dc:Description"; "IFD0:ImageDescription"; "Description";
                "ImageDescription"]) = true /\
   people_ok (_first_present meta ["XMP-iptcExt:PersonInImage"]) = true /\
   location_ok (_first_present meta ["XMP-iptcCore:Location"]) = true) /\
  (forall c, condense_metadata meta = Ok c -> dict_keys c = condensed_keys).
Proof.
split.
- rewrite <- condense_title_ok, <- condense_people_ok, <- condense_location_ok. split.
  + intros [c H].
    destruct (condense_ok_inv meta c H) as (title & people & n_odd & Ht & Hp & Hl & _).
    repeat split; eexists; eassumption.
  + intros [[t Ht] [[p Hp] [n Hl]]]. unfold condense_metadata.
    rewrite Ht, Hp, Hl. cbn [bind]. eexists; reflexivity.
- intros c H. destruct (condense_ok_inv meta c H) as (title & people & n_odd & _ & _ & _ & ->).
  reflexivity.
Qed.

Lemma condensed_title_clean_witness :
  get "title" [("title", VStr "a b c d"); ("begin", VNone);
               ("people_agent_header_1", VNone); ("people_agent_header_2", VNone);
               ("subject_1_term", VNone); ("n_odd", VNone); ("n_abstract", VNone)]
  = Some VNone \/
  exists t, get "title" [("title", VStr "a b c d"); ("begin", VNone);
               ("people_agent_header_1", VNone); ("people_agent_header_2", VNone);
               ("subject_1_term", VNone); ("n_odd", VNone); ("n_abstract", VNone)]
            = Some (VStr t) /\ has_double_space t = false.
Proof.
destruct (condensed_title_clean
            [("Description", VStr ("a   b  c" ++ String newline " d   "))]
            [("title", VStr "a b c d"); ("begin", VNone);
             ("people_agent_header_1", VNone); ("people_agent_header_2", VNone);
             ("subject_1_term", VNone); ("n_odd", VNone); ("n_abstract", VNone)]
            eq_refl) as [[_ H]|(s & t & _ & H & _ & _ & Hd & _)].
- left. exact H.
- right. exists t. split; assumption.
Defined.

(** *** Nested values *)

Lemma child_values_present (child_key : string) (l : list pyval) :
  Forall (fun v => v <> VNone) (child_values child_key l).
Proof.
unfold child_values. induction l as [|x l IH]; cbn [flat_map]; [constructor|].
apply Forall_app. split; [|exact IH].
destruct x; try constructor.
destruct (get child_key d) as [v|]; [|constructor].
destruct v; repeat constructor; discriminate.
Qed.

Lemma dicts_not_strings (l : list pyval) :
  l <> [] -> forallb is_dict l = true -> forallb is_str l = false.
Proof.
destruct l as [|x l]; [congruence|]. intros _ H. cbn [forallb] in *.
apply andb_prop in H. destruct H as [Hx _]. destruct x; try discriminate. reflexivity.
Qed.

(** X17.  [_extract_nested] reads a struct and a list holding that one
    struct alike: both give the child of the struct, [None] when it has
    none.  From a longer list of structs it gives [None] when no struct has
    the child, the one value when one has, and otherwise the list of the
    values, which holds at least two and never [None]. *)
Theorem extract_nested_struct_or_list (meta meta' : Meta) (parent_keys : list string)
    (child_key : string) (d : list (string * pyval)) :
  _first_present meta parent_keys = VDict d ->
  _first_present meta' parent_keys = VList [VDict d] ->
  _extract_nested meta parent_keys child_key = get_or_none child_key d /\
  _extract_nested meta' parent_keys child_key = get_or_none child_key d /\
  (forall meta'' l,
     _first_present meta'' parent_keys = VList l -> l <> [] ->
     forallb is_dict l = true ->
     let r := _extract_nested meta'' parent_keys child_key in
     (child_values child_key l = [] /\ r = VNone) \/
     (child_values child_key l = [r] /\ r <> VNone) \/
     (r = VList (child_values child_key l) /\
      (2 <= List.length (child_values child_key l))%nat /\
      Forall (fun v => v <> VNone) (child_values child_key l))).
Proof.
intros Hd Hl. unfold _extract_nested. rewrite Hd, Hl. split; [reflexivity|]. split.
- cbn [forallb is_str is_dict andb child_values flat_map]. unfold get_or_none.
  destruct (get child_key d) as [v|]; [|reflexivity]. destruct v; reflexivity.
- intros meta'' l Hp Hne Hall. cbv zeta. rewrite Hp, (dicts_not_strings l Hne Hall), Hall.
  pose proof (child_values_present child_key l) as Hpres.
  destruct (child_values child_key l) as [|v [|v' vals]] eqn:E.
  + left. split; reflexivity.
  + right; left. split; [reflexivity|]. inversion Hpres; assumption.
  + right; right. split; [reflexivity|]. split; [cbn; lia | exact Hpres].
Qed.

Lemma extract_nested_struct_or_list_witness :
  _extract_nested [("XMP-plus:ImageSupplier", VDict [("ImageSupplierName", VStr "VU")])]
    ["XMP-plus:ImageSupplier"] "ImageSupplierName" = VStr "VU" /\
  _extract_nested
    [("XMP-plus:ImageSupplier", VList [VDict [("ImageSupplierName", VStr "VU")]])]
    ["XMP-plus:ImageSupplier"] "ImageSupplierName" = VStr "VU".
Proof.
destruct (extract_nested_struct_or_list
            [("XMP-plus:ImageSupplier", VDict [("ImageSupplierName", VStr "VU")])]
            [("XMP-plus:ImageSupplier", VList [VDict [("ImageSupplierName", VStr "VU")]])]
            ["XMP-plus:ImageSupplier"] "ImageSupplierName"
            [("ImageSupplierName", VStr "VU")] eq_refl eq_refl) as (H1 & H2 & _).
split; assumption.
Defined.

End CondenseFacts.

(** ** parse_exif.py: augmenting *)

Module AugmentFacts.
Import Py ParseExif Aux Fields ParseFacts.
Local Open Scope string_scope.

Lemma set_same (k : string) (v : pyval) (d : Meta) :
  get k d = Some v -> set k v d = d.
Proof.
unfold get, set. induction d as [|[a w] d IH]; cbn [dict_get dict_set]; [discriminate|].
destruct (String.eqb k a) eqn:E.
- intros H. injection H as ->. reflexivity.
- intros H. rewrite (IH H). reflexivity.
Qed.

Lemma keys_set (k : string) (v : pyval) (d : Meta) :
  exists e, dict_keys (set k v d) = (dict_keys d ++ e)%list.
Proof.
unfold set, dict_keys. induction d as [|[a w] d [e IH]]; cbn [dict_set map fst].
- exists [k]. reflexivity.
- destruct (String.eqb k a); cbn [map fst].
  + exists []. rewrite app_nil_r. reflexivity.
  + exists e. rewrite IH. reflexivity.
Qed.

Lemma keys_add_pair (key k1 v1 k2 v2 : string) (d : Meta) :
  exists e, dict_keys (add_pair key k1 v1 k2 v2 d) = (dict_keys d ++ e)%list.
Proof.
unfold add_pair. destruct (_non_null _).
- destruct (keys_set k1 (VStr v1) d) as [e1 H1].
  destruct (keys_set k2 (VStr v2) (set k1 (VStr v1) d)) as [e2 H2].
  exists (e1 ++ e2)%list. rewrite H2, H1, app_assoc. reflexivity.
- exists []. rewrite app_nil_r. reflexivity.
Qed.

Lemma keys_extend (d1 d2 d3 : Meta) :
  (exists e, dict_keys d2 = (dict_keys d1 ++ e)%list) ->
  (exists e, dict_keys d3 = (dict_keys d2 ++ e)%list) ->
  exists e, dict_keys d3 = (dict_keys d1 ++ e)%list.
Proof.
intros [e1 H1] [e2 H2]. exists (e1 ++ e2)%list. rewrite H2, H1, app_assoc. reflexivity.
Qed.

Lemma add_pair_same (key k1 v1 k2 v2 : string) (d : Meta) :
  (_non_null (get_or_none key d) = true ->
   get k1 d = Some (VStr v1) /\ get k2 d = Some (VStr v2)) ->
  add_pair key k1 v1 k2 v2 d = d.
Proof.
intros H. unfold add_pair. destruct (_non_null _); [|reflexivity].
destruct (H eq_refl) as [H1 H2]. rewrite (set_same _ _ _ H1). apply set_same. exact H2.
Qed.

Section Augment.
Variable stat_size : string -> result Z.
Variable rounded_ratio : Z -> Z -> Z -> result pyval.

(** The number a successful call stores: the ratio, or [None] for a missing
    file. *)
Lemma augment_ok_inv (image_path : string) (condensed : Meta) (hierarchy : pyval)
    (mb_base round_digits : Z) (out : Meta) :
  augment_condensed_metadata stat_size rounded_ratio image_path condensed hierarchy
    mb_base round_digits = Ok out ->
  exists number,
    (bind (stat_size image_path)
          (fun b => rounded_ratio b (mb_base ^ 2) round_digits) = Ok number \/
     bind (stat_size image_path)
          (fun b => rounded_ratio b (mb_base ^ 2) round_digits) = Raise FileNotFoundError
     /\ number = VNone) /\
    out =
    add_pair "subject_1_term" "subject_1_type" "topical" "subject_1_source" "local sources"
   (add_pair "n_odd" "p_odd" "Yes" "l_odd" "location"
   (add_pair "people_agent_header_2" "people_agent_role_2" "subject"
             "people_agent_relator_2" "associated name"
   (add_pair "people_agent_header_1" "people_agent_role_1" "creator"
             "people_agent_relator_1" "photographer"
   (add_pair "begin" "dates_label" "creation" "date_type" "single"
   (set "n_acqinfo" (VStr "PhotoShelter https://www.photoshelter.com")
   (set "p_acqinfo" (VStr "Yes")
   (set "type_2" (VStr "Item")
   (set "portion" (VStr "1")
   (set "processing_note"
        (VStr "This picture was held in VandyVision, the digital asset management system called PhotoShelter.")
   (set "restrictions_flag" (VStr "Yes")
   (set "extent_type" (VStr "MB")
   (set "number" number
   (set "hierarchy" hierarchy condensed))))))))))))).
Proof.
unfold augment_condensed_metadata. intros H.
destruct (bind (stat_size image_path) _) as [n|e] eqn:En.
- cbn [bind] in H. injection H as <-. exists n. split; [left; reflexivity | reflexivity].
- destruct e; try discriminate. cbn [bind] in H. injection H as <-.
  exists VNone. split; [right; split; reflexivity | reflexivity].
Qed.

Lemma augment_fixed_gets (image_path : string) (condensed : Meta) (hierarchy : pyval)
    (mb_base round_digits : Z) (out : Meta) :
  augment_condensed_metadata stat_size rounded_ratio image_path condensed hierarchy
    mb_base round_digits = Ok out ->
  get "hierarchy" out = Some hierarchy /\
  (forall k v, In (k, v) standard_fields -> get k out = Some v) /\
  exists number,
    get "number" out = Some number /\
    (bind (stat_size image_path)
          (fun b => rounded_ratio b (mb_base ^ 2) round_digits) = Ok number \/
     bind (stat_size image_path)
          (fun b => rounded_ratio b (mb_base ^ 2) round_digits) = Raise FileNotFoundError
     /\ number = VNone).
Proof.
intros H. destruct (augment_ok_inv _ _ _ _ _ _ H) as (number & Hn & ->).
split; [get_past; apply get_set_same|]. split.
- intros k v Hin. unfold standard_fields in Hin.
  repeat (destruct Hin as [Hin|Hin];
          [injection Hin as <- <-; get_past; apply get_set_same|]).
  destruct Hin.
- exists number. split; [get_past; apply get_set_same | exact Hn].
Qed.

(** X14.  A record returned by [augment_condensed_metadata] holds the
    hierarchy given, the unit "MB" and the six standard fields; every entry
    of the condensed record under a key the function does not write is
    kept with its value; and the keys of the condensed record come first,
    in their order, the new ones after them. *)
Theorem augment_keeps_and_sets (image_path : string) (condensed : Meta)
    (hierarchy : pyval) (mb_base round_digits : Z) (out : Meta) :
  augment_condensed_metadata stat_size rounded_ratio image_path condensed hierarchy
    mb_base round_digits = Ok out ->
  get "hierarchy" out = Some hierarchy /\
  (forall k v, In (k, v) standard_fields -> get k out = Some v) /\
  (forall k, ~ In k augment_keys -> get k out = get k condensed) /\
  (exists added, dict_keys out = (dict_keys condensed ++ added)%list).
Proof.
intros H. destruct (augment_fixed_gets _ _ _ _ _ _ H) as (Hh & Hstd & _).
split; [exact Hh|]. split; [exact Hstd|].
destruct (augment_ok_inv _ _ _ _ _ _ H) as (number & _ & ->). split.
- intros k Hk. unfold augment_keys in Hk. cbn [In] in Hk.
  rewrite !get_add_pair_other by (intros ->; apply Hk; tauto).
  rewrite !get_set_other by (intros ->; apply Hk; tauto).
  reflexivity.
- repeat (eapply keys_extend; [|first [apply keys_add_pair | apply keys_set]]).
  exists []. rewrite app_nil_r. reflexivity.
Qed.

(** X15.  Augmenting is idempotent: a record the function returned is
    returned unchanged when it is augmented again with the same
    arguments. *)
Theorem augment_idempotent (image_path : string) (condensed : Meta)
    (hierarchy : pyval) (mb_base round_digits : Z) (out : Meta) :
  augment_condensed_metadata stat_size rounded_ratio image_path condensed hierarchy
    mb_base round_digits = Ok out ->
  augment_condensed_metadata stat_size rounded_ratio image_path out hierarchy
    mb_base round_digits = Ok out.
Proof.
intros H.
pose proof (augment_gets stat_size rounded_ratio _ _ _ _ _ _ H) as Hpairs.
destruct (augment_fixed_gets _ _ _ _ _ _ H) as (Hh & Hstd & number & Hnum & Hn).
assert (Hpair : forall key k1 v1 k2 v2,
          In (key, (k1, v1), (k2, v2)) descriptor_pairs ->
          add_pair key k1 v1 k2 v2 out = out).
{ intros key k1 v1 k2 v2 Hin. apply add_pair_same. intros Hnn.
  destruct (Hpairs _ _ _ _ _ Hin) as (Hk & H1 & H2).
  unfold get_or_none in Hnn, H1, H2. rewrite Hk in Hnn.
  fold (get_or_none key condensed) in Hnn, H1, H2. rewrite Hnn in H1, H2.
  split; assumption. }
assert (Hsized :
  match bind (stat_size image_path)
             (fun b => rounded_ratio b (mb_base ^ 2) round_digits) with
  | Ok mb => Ok (set "extent_type" (VStr "MB") (set "number" mb (set "hierarchy" hierarchy out)))
  | Raise FileNotFoundError =>
      Ok (set "extent_type" (VStr "MB") (set "number" VNone (set "hierarchy" hierarchy out)))
  | Raise e => Raise e
  end = Ok out).
{ rewrite (set_same "hierarchy" hierarchy out Hh).
  destruct Hn as [Hn|[Hn ->]]; rewrite Hn;
    rewrite (set_same "number" _ out Hnum);
    rewrite (set_same "extent_type" _ out) by (apply Hstd; left; reflexivity);
    reflexivity. }
unfold augment_condensed_metadata. rewrite Hsized. cbn [bind].
unfold standard_fields in Hstd.
rewrite (set_same "restrictions_flag" _ out) by (apply Hstd; cbn [In]; tauto).
rewrite (set_same "processing_note" _ out) by (apply Hstd; cbn [In]; tauto).
rewrite (set_same "portion" _ out) by (apply Hstd; cbn [In]; tauto).
rewrite (set_same "type_2" _ out) by (apply Hstd; cbn [In]; tauto).
rewrite (set_same "p_acqinfo" _ out) by (apply Hstd; cbn [In]; tauto).
rewrite (set_same "n_acqinfo" _ out) by (apply Hstd; cbn [In]; tauto).
unfold descriptor_pairs in Hpair.
rewrite (Hpair "begin") by (cbn [In]; tauto).
rewrite (Hpair "people_agent_header_1") by (cbn [In]; tauto).
rewrite (Hpair "people_agent_header_2") by (cbn [In]; tauto).
rewrite (Hpair "n_odd") by (cbn [In]; tauto).
rewrite (Hpair "subject_1_term") by (cbn [In]; tauto).
reflexivity.
Qed.

(** X16.  The size of the file decides the [number]: a missing file gives a
    record with [number] [None] (and the unit still "MB"); a file whose
    size is read gives the rounded ratio; any other failure of the size
    lines is raised and no record is returned. *)
Theorem augment_size_outcomes (image_path : string) (condensed : Meta)
    (hierarchy : pyval) (mb_base round_digits : Z) :
  (stat_size image_path = Raise FileNotFoundError ->
   exists out,
     augment_condensed_metadata stat_size rounded_ratio image_path condensed hierarchy
       mb_base round_digits = Ok out /\
     get "number" out = Some VNone /\ get "extent_type" out = Some (VStr "MB")) /\
  (forall b n,
     stat_size image_path = Ok b ->
     rounded_ratio b (mb_base ^ 2) round_digits = Ok n ->
     exists out,
       augment_condensed_metadata stat_size rounded_ratio image_path condensed hierarchy
         mb_base round_digits = Ok out /\
       get "number" out = Some n /\ get "extent_type" out = Some (VStr "MB")) /\
  (forall e, e <> FileNotFoundError ->
     stat_size image_path = Raise e \/
     (exists b, stat_size image_path = Ok b /\
                rounded_ratio b (mb_base ^ 2) round_digits = Raise e) ->
     augment_condensed_metadata stat_size rounded_ratio image_path condensed hierarchy
       mb_base round_digits = Raise e).
Proof.
split; [|split].
- intros Hs. unfold augment_condensed_metadata. rewrite Hs. cbn [bind].
  eexists. split; [reflexivity|]. split; get_past; apply get_set_same.
- intros b n Hs Hr. unfold augment_condensed_metadata. rewrite Hs. cbn [bind].
  rewrite Hr. cbn [bind].
  eexists. split; [reflexivity|]. split; get_past; apply get_set_same.
- intros e He [Hs|(b & Hs & Hr)]; unfold augment_condensed_metadata; rewrite Hs;
    cbn [bind]; rewrite ?Hr; destruct e; try reflexivity; congruence.
Qed.

End Augment.

Lemma augment_keeps_and_sets_witness :
  exists out,
    augment_condensed_metadata (fun _ => Ok 3373400) (fun _ _ _ => Ok (VInt 3))
      "photos/test3.jpg" [("title", VStr "Sunset"); ("camera", VStr "X100")]
      (VInt 2) 1024 3 = Ok out /\
    get "camera" out = Some (VStr "X100") /\
    get "portion" out = Some (VStr "1").
Proof.
eexists. split; [reflexivity|].
destruct (augment_keeps_and_sets (fun _ => Ok 3373400) (fun _ _ _ => Ok (VInt 3))
            "photos/test3.jpg" [("title", VStr "Sunset"); ("camera", VStr "X100")]
            (VInt 2) 1024 3 _ eq_refl) as (_ & Hstd & Hkeep & _).
split.
- rewrite Hkeep; [reflexivity|]. cbn. intuition discriminate.
- apply Hstd. cbn. tauto.
Defined.

Lemma augment_idempotent_witness :
  exists out,
    augment_condensed_metadata (fun _ => Raise FileNotFoundError) (fun _ _ _ => Ok VNone)
      "photos/test3.jpg" [("title", VStr "Sunset"); ("begin", VStr "2021:10:12 18:03:11")]
      (VInt 2) 1024 3 = Ok out /\
    augment_condensed_metadata (fun _ => Raise FileNotFoundError) (fun _ _ _ => Ok VNone)
      "photos/test3.jpg" out (VInt 2) 1024 3 = Ok out.
Proof.
eexists. split; [reflexivity|].
apply (augment_idempotent (fun _ => Raise FileNotFoundError) (fun _ _ _ => Ok VNone)
         "photos/test3.jpg" [("title", VStr "Sunset"); ("begin", VStr "2021:10:12 18:03:11")]).
reflexivity.
Defined.

End AugmentFacts.

(** ** demo.py: the run *)

Module RunFacts.
Import Py Aux SelectImages ParseExif WriteMetadata DemoPy WriteFacts ParseFacts RowFacts.
Local Open Scope string_scope.

Lemma keys_of_set (k : string) (v : pyval) (d : Meta) (k' : string) :
  In k' (dict_keys (set k v d)) <-> k' = k \/ In k' (dict_keys d).
Proof.
unfold set, dict_keys. induction d as [|[a w] d IH]; cbn [dict_set map fst In].
- intuition congruence.
- destruct (String.eqb_spec k a) as [->|Hne]; cbn [map fst In].
  + intuition congruence.
  + rewrite IH. intuition congruence.
Qed.

Lemma set_NoDup (k : string) (v : pyval) (d : Meta) :
  NoDup (dict_keys d) -> NoDup (dict_keys (set k v d)).
Proof.
induction d as [|[a w] d IH]; intros H.
- cbn. constructor; [intros [] | constructor].
- unfold dict_keys in H. cbn [map fst] in H. inversion H as [|? ? Hnin Hnd]; subst.
  unfold set, dict_keys. cbn [dict_set].
  destruct (String.eqb_spec k a) as [->|Hne]; cbn [map fst].
  + constructor; assumption.
  + constructor; [|apply IH; exact Hnd].
    intros Hin. apply (keys_of_set k v d a) in Hin. destruct Hin as [E|Hin];
      [congruence | exact (Hnin Hin)].
Qed.

Lemma add_pair_NoDup (key k1 v1 k2 v2 : string) (d : Meta) :
  NoDup (dict_keys d) -> NoDup (dict_keys (add_pair key k1 v1 k2 v2 d)).
Proof.
intros H. unfold add_pair. destruct (_non_null _); [|exact H].
apply set_NoDup, set_NoDup, H.
Qed.

Lemma condense_NoDup (meta c : Meta) :
  condense_metadata meta = Ok c -> NoDup (dict_keys c).
Proof.
unfold condense_metadata. intros H.
destruct (condense_title meta) as [t|e]; [|discriminate]. cbn [bind] in H.
destruct (condense_people meta) as [pp|e]; [|discriminate]. cbn [bind] in H.
destruct (condense_location meta) as [n|e]; [|discriminate]. cbn [bind] in H.
match type of H with Ok ?x = Ok _ =>
  assert (Hx : NoDup (dict_keys x)) by (do 7 apply set_NoDup; constructor) end.
injection H as E. rewrite <- E. exact Hx.
Qed.

Section Run.
Variable set_order : list Path -> list Path.
Variable read_all_metadata : Path -> result Meta.
Variable stat_size : string -> result Z.
Variable rounded_ratio : Z -> Z -> Z -> result pyval.
Variable repr : pyval -> string.

Lemma image_records_fail (hierarchy : pyval) (before after : list Path) (p : Path)
    (e : exn) :
  (forall q, In q before ->
     exists r, image_record read_all_metadata stat_size rounded_ratio hierarchy q = Ok r) ->
  image_record read_all_metadata stat_size rounded_ratio hierarchy p = Raise e ->
  image_records read_all_metadata stat_size rounded_ratio hierarchy (before ++ p :: after)
  = Raise e.
Proof.
induction before as [|q before IH]; intros Hb Hp; cbn [app image_records].
- rewrite Hp. reflexivity.
- destruct (Hb q (or_introl eq_refl)) as [r Hr]. rewrite Hr. cbn [bind].
  rewrite IH; [reflexivity | | exact Hp]. intros q' Hq'. apply Hb. right. exact Hq'.
Qed.

Lemma augment_NoDup (image_path : string) (condensed : Meta) (hierarchy : pyval)
    (mb_base round_digits : Z) (out : Meta) :
  augment_condensed_metadata stat_size rounded_ratio image_path condensed hierarchy
    mb_base round_digits = Ok out ->
  NoDup (dict_keys condensed) -> NoDup (dict_keys out).
Proof.
unfold augment_condensed_metadata. intros H Hnd.
match type of H with bind ?x _ = _ => destruct x as [sized|e] eqn:Es end;
  [|discriminate].
cbn [bind] in H.
assert (Hs : NoDup (dict_keys sized)).
{ destruct (bind (stat_size image_path) _) as [mb|[]]; try discriminate;
    (match type of Es with Ok ?x = Ok _ =>
       assert (Hx : NoDup (dict_keys x)) by (do 3 apply set_NoDup; exact Hnd) end;
     injection Es as E; rewrite <- E; exact Hx). }
match type of H with Ok ?x = Ok _ =>
  assert (Hx : NoDup (dict_keys x))
    by (do 5 apply add_pair_NoDup; do 6 apply set_NoDup; exact Hs) end.
injection H as E. rewrite <- E. exact Hx.
Qed.

Lemma image_record_steps (hierarchy : pyval) (p : Path) (r : Meta) :
  image_record read_all_metadata stat_size rounded_ratio hierarchy p = Ok r ->
  (exists all_metadata condensed,
     read_all_metadata p = Ok all_metadata /\
     condense_metadata all_metadata = Ok condensed /\
     augment_condensed_metadata stat_size rounded_ratio p condensed hierarchy 1024 3
     = Ok r) /\
  NoDup (dict_keys r).
Proof.
unfold image_record. intros H.
destruct (read_all_metadata p) as [m|e]; [|discriminate]. cbn [bind] in H.
destruct (condense_metadata m) as [c|e] eqn:Ec; [|discriminate]. cbn [bind] in H.
split.
- exists m, c. auto.
- eapply augment_NoDup; [exact H|]. eapply condense_NoDup. exact Ec.
Qed.

Lemma image_records_steps (hierarchy : pyval) (paths : list Path) (records : list Meta) :
  image_records read_all_metadata stat_size rounded_ratio hierarchy paths = Ok records ->
  Forall2
    (fun p r =>
     exists all_metadata condensed,
       read_all_metadata p = Ok all_metadata /\
       condense_metadata all_metadata = Ok condensed /\
       augment_condensed_metadata stat_size rounded_ratio p condensed hierarchy 1024 3
       = Ok r)
    paths records /\
  Forall (fun rec => NoDup (dict_keys rec)) records.
Proof.
revert records. induction paths as [|p paths IH]; intros records H.
- injection H as <-. split; constructor.
- cbn [image_records] in H.
  destruct (image_record _ _ _ hierarchy p) as [r|e] eqn:Er; [|discriminate].
  cbn [bind] in H.
  destruct (image_records _ _ _ hierarchy paths) as [rs|e]; [|discriminate].
  cbn [bind] in H. injection H as <-. destruct (IH rs eq_refl) as [H1 H2].
  destruct (image_record_steps _ _ _ Er) as [H3 H4].
  split; constructor; assumption.
Qed.

(** X18.  A run of [generate_metadata] that returns has read, condensed and
    augmented every selected image without error, in the order of the
    selection, and has written this table: the header of the template
    (none for a template that is missing or empty) followed by the keys of
    the records it lacks, in first-seen order; then the rows of the
    template, cell by cell under that header with the empty string where a
    row has no such column, followed by one row for each image holding
    under every header the stringified value of the image's record, or the
    empty string. *)
Theorem generate_metadata_rows (w : World) (image_directory : Path)
    (template : option CsvTable) (q : float) (hierarchy : pyval) (out : CsvOutput) :
  generate_metadata set_order read_all_metadata stat_size rounded_ratio repr
    w image_directory template q hierarchy = Ok out ->
  let H := match template with Some t => fieldnames t | None => [] end in
  let rows := match template with Some t => body t | None => [] end in
  let cell (row : list (string * string)) (h : string) :=
    match dict_get String.eqb h row with Some c => c | None => "" end in
  exists res records,
    filter_images_by_rating set_order w image_directory q true true None = Ok res /\
    Forall2
      (fun p r =>
         exists all_metadata condensed,
           read_all_metadata p = Ok all_metadata /\
           condense_metadata all_metadata = Ok condensed /\
           augment_condensed_metadata stat_size rounded_ratio p condensed hierarchy 1024 3
           = Ok r)
      (selected res) records /\
    header out = (H ++ new_columns H records)%list /\
    data out
    = (map (fun row => map (cell row) (header out)) rows
       ++ map (fun rec => map (cell_of repr rec) (header out)) records)%list.
Proof.
unfold generate_metadata. intros Hgen.
destruct (filter_images_by_rating set_order w image_directory q true true None)
  as [res|e]; [|discriminate].
cbn [bind] in Hgen.
destruct (image_records _ _ _ hierarchy (selected res)) as [records|e] eqn:Er;
  [|discriminate].
cbn [bind] in Hgen. injection Hgen as <-.
destruct (image_records_steps hierarchy _ _ Er) as [Hsteps Hnd].
cbv zeta. exists res, records. split; [reflexivity|]. split; [exact Hsteps|].
destruct (append_data repr template records true) as (new_rows & Hn & Hall).
destruct (Hall true) as [Hnew Hd]. specialize (Hnew Hnd).
pose proof (append_header repr template records true true) as Hh. cbv zeta in Hh.
cbn [orb] in Hh.
destruct template as [t|]; cbn [_read_existing_csv fst snd] in *.
- split; [exact Hh|]. rewrite Hd, Hnew. reflexivity.
- split; [exact Hh|]. rewrite Hd, Hnew. reflexivity.
Qed.

(** X19.  One image with an empty or all-space title ends the whole run:
    when the images selected before it go through and its metadata give a
    title of spaces only, [generate_metadata] raises [IndexError] and no
    table is written. *)
Theorem generate_metadata_blank_title (w : World) (image_directory : Path)
    (template : option CsvTable) (q : float) (hierarchy : pyval)
    (res : FilterResult) (before after : list Path) (p : Path) (meta : Meta) (n : nat) :
  filter_images_by_rating set_order w image_directory q true true None = Ok res ->
  selected res = (before ++ p :: after)%list ->
  (forall p', In p' before ->
     exists r, image_record read_all_metadata stat_size rounded_ratio hierarchy p' = Ok r) ->
  read_all_metadata p = Ok meta ->
  _first_present meta
    ["XMP-dc:Description"; "IFD0:ImageDescription"; "Description"; "ImageDescription"]
  = VStr (spaces n) ->
  generate_metadata set_order read_all_metadata stat_size rounded_ratio repr
    w image_directory template q hierarchy = Raise IndexError.
Proof.
intros Hf Hsel Hb Hr Ht. unfold generate_metadata. rewrite Hf. cbn [bind].
rewrite Hsel, (image_records_fail hierarchy before after p IndexError Hb); [reflexivity|].
unfold image_record. rewrite Hr. cbn [bind].
assert (Hc : condense_metadata meta = Raise IndexError).
{ unfold condense_metadata, condense_title. rewrite Ht.
  rewrite drop_trailing_blanks_spaces; [reflexivity|].
  cbn [size]. rewrite length_spaces. lia. }
rewrite Hc. reflexivity.
Qed.

End Run.

(** The respelled demonstration folder at the median over a template of one
    row: the row of the template, then the four selected images in order,
    each with the hierarchy asked for. *)
Lemma generate_metadata_rows_witness :
  exists out res records,
    generate_metadata (nodup string_dec) Samples.plain_reader
      (fun _ => Raise FileNotFoundError) (fun _ _ _ => Ok VNone) (fun _ => "")
      Samples.respelled_world Demo.folder (Some Samples.template) f_half (VInt 2) = Ok out /\
    filter_images_by_rating (nodup string_dec) Samples.respelled_world Demo.folder f_half
      true true None = Ok res /\
    selected res = ["photos/C.jpg"; "photos/d.png"; "photos/e.jpeg"; "photos/f.jpg"] /\
    header out = (["title"; "hierarchy"] ++ new_columns ["title"; "hierarchy"] records)%list /\
    data out
    = (map (fun row => map (fun h => match dict_get String.eqb h row with
                                     | Some c => c
                                     | None => ""
                                     end) (header out))
           [[("title", "old"); ("hierarchy", "1")]]
       ++ map (fun rec => map (cell_of (fun _ => "") rec) (header out)) records)%list /\
    firstn 5 (header out)
    = ["title"; "hierarchy"; "begin"; "people_agent_header_1"; "people_agent_header_2"] /\
    map (firstn 2) (data out)
    = [["old"; "1"]; ["photos/C.jpg"; "2"]; ["photos/d.png"; "2"];
       ["photos/e.jpeg"; "2"]; ["photos/f.jpg"; "2"]].
Proof.
eexists.
destruct (generate_metadata_rows (nodup string_dec) Samples.plain_reader
            (fun _ => Raise FileNotFoundError) (fun _ _ _ => Ok VNone) (fun _ => "")
            Samples.respelled_world Demo.folder (Some Samples.template) f_half (VInt 2) _
            ltac:(vm_compute; reflexivity))
  as (res & records & Hf & _ & Hh & Hd).
exists res, records. split; [reflexivity|]. split; [exact Hf|]. split.
{ assert (E : filter_images_by_rating (nodup string_dec) Samples.respelled_world
                Demo.folder f_half true true None = Ok Samples.median_result)
    by (vm_compute; reflexivity).
  rewrite E in Hf. injection Hf as <-. reflexivity. }
split; [exact Hh|]. split; [exact Hd|].
split; vm_compute; reflexivity.
Defined.

Lemma generate_metadata_blank_title_witness :
  generate_metadata (nodup string_dec) Samples.blank_reader
    (fun _ => Raise FileNotFoundError) (fun _ _ _ => Ok VNone) (fun _ => "")
    Demo.world Demo.folder (Some Samples.template) f_half (VInt 2) = Raise IndexError.
Proof.
apply (generate_metadata_blank_title (nodup string_dec) Samples.blank_reader
         (fun _ => Raise FileNotFoundError) (fun _ _ _ => Ok VNone) (fun _ => "")
         Demo.world Demo.folder (Some Samples.template) f_half (VInt 2)
         Samples.median_result ["photos/C.jpg"] ["photos/e.jpeg"; "photos/f.jpg"]
         "photos/d.png" [("Description", VStr "")] 0).
- vm_compute. reflexivity.
- reflexivity.
- intros p' [<-|[]]. eexists. vm_compute. reflexivity.
- reflexivity.
- reflexivity.
Defined.

End RunFacts.

(** ** ratings.py: the rating of one image *)

Module WindowsRatingFacts.
Import Py WindowsRating.
Local Open Scope string_scope.

(** X20.  The stars [_parse_xmp] reports are [None] or within 0..5.  A
    rating text that reads as an integer decides them, clamped into 0..5;
    when there is none, or it does not read as an integer, a percent text
    that reads as an integer decides them through the percent mapping;
    otherwise they are [None].  The source is the label given. *)
Theorem parse_xmp_stars (root : elem) (source_label : string) :
  let info := _parse_xmp root source_label in
  (forall s, stars info = Some s -> 0 <= s <= 5) /\
  (forall r v, xmp_rating info = Some r -> int_of_str r = Ok v ->
               stars info = Some (Z.max 0 (Z.min 5 v))) /\
  (forall p v,
     (xmp_rating info = None \/
      exists r e, xmp_rating info = Some r /\ int_of_str r = Raise e) ->
     ms_rating_percent info = Some p -> int_of_str p = Ok v ->
     stars info = Some (Ratings._stars_from_percent v)) /\
  (stars info = None <->
   (xmp_rating info = None \/
    exists r e, xmp_rating info = Some r /\ int_of_str r = Raise e) /\
   (ms_rating_percent info = None \/
    exists p e, ms_rating_percent info = Some p /\ int_of_str p = Raise e)) /\
  source info = Some source_label.
Proof.
intros info. subst info. unfold _parse_xmp. cbv zeta. cbn [stars xmp_rating ms_rating_percent source].
set (xr := match element_text (find_descendant (XMP_NS ++ "Rating") root) with
           | Some _ => _ | None => _ end).
set (mp := match element_text (find_descendant (MP_NS ++ "RatingPercent") root) with
           | Some _ => _ | None => _ end).
clearbody xr mp. unfold try_int.
split; [|split; [|split; [|split; [|reflexivity]]]].
- intros s H.
  destruct xr as [r|]; [destruct (int_of_str r) as [v|e]|];
    try (injection H as <-; lia);
    (destruct mp as [p|]; [destruct (int_of_str p) as [v'|e']|]; try discriminate;
     injection H as <-; apply RatingsFacts.stars_range).
- intros r v -> Hv. rewrite Hv. reflexivity.
- intros p v [->|(r & e & -> & Hr)] -> Hv; rewrite ?Hr, Hv; reflexivity.
- split.
  + intros H. destruct xr as [r|].
    * destruct (int_of_str r) as [v|e] eqn:Er; [discriminate|].
      split; [right; exists r, e; split; [reflexivity | exact Er]|].
      destruct mp as [p|]; [|left; reflexivity].
      destruct (int_of_str p) as [v'|e'] eqn:Ep; [discriminate|].
      right. exists p, e'. split; [reflexivity | exact Ep].
    * split; [left; reflexivity|].
      destruct mp as [p|]; [|left; reflexivity].
      destruct (int_of_str p) as [v'|e'] eqn:Ep; [discriminate|].
      right. exists p, e'. split; [reflexivity | exact Ep].
  + intros [[->|(r & e & -> & Hr)] [->|(p & e' & -> & Hp)]]; rewrite ?Hr, ?Hp; reflexivity.
Qed.

Lemma parse_xmp_range (root : elem) (label : string) (s : Z) :
  stars (_parse_xmp root label) = Some s -> 0 <= s <= 5.
Proof.
unfold _parse_xmp. cbv zeta. cbn [stars].
set (xr := match element_text (find_descendant (XMP_NS ++ "Rating") root) with
           | Some _ => _ | None => _ end).
set (mp := match element_text (find_descendant (MP_NS ++ "RatingPercent") root) with
           | Some _ => _ | None => _ end).
clearbody xr mp. unfold try_int. intros H.
destruct xr as [r|]; [destruct (int_of_str r) as [v|e]|];
  try (injection H as <-; lia);
  (destruct mp as [p|]; [destruct (int_of_str p) as [v'|e']|]; try discriminate;
   injection H as <-; apply RatingsFacts.stars_range).
Qed.

(** X21.  [get_windows_rating] raises only what opening the image raises
    or, for an embedded packet, what the XML parser raises.  With an
    embedded packet the sidecar is not looked at.  Without one the call
    always returns: it returns the rating of the sidecar when the sidecar
    is asked for, exists, is read and is parsed, and the record of four
    [None] in every other case -- the sidecar not asked for, not there, or
    failing at any of the three steps.  The stars returned are [None] or
    within 0..5. *)
Theorem windows_rating_outcomes (w : ImageWorld) (path : string)
    (look_for_sidecar : bool) :
  (forall e, open_xmp w path = Raise e ->
             get_windows_rating w path look_for_sidecar = Raise e) /\
  (forall b, open_xmp w path = Ok (Some b) -> b <> "" ->
     get_windows_rating w path look_for_sidecar
     = bind (fromstring w b) (fun root => Ok (_parse_xmp root "embedded"))) /\
  (open_xmp w path = Ok None \/ open_xmp w path = Ok (Some "") ->
   (forall b root,
      look_for_sidecar = true ->
      sidecar_exists w (with_suffix_xmp w path) = Ok true ->
      sidecar_read w (with_suffix_xmp w path) = Ok b ->
      fromstring w b = Ok root ->
      get_windows_rating w path look_for_sidecar = Ok (_parse_xmp root "sidecar")) /\
   (look_for_sidecar = false \/
    sidecar_exists w (with_suffix_xmp w path) = Ok false \/
    (exists e, sidecar_exists w (with_suffix_xmp w path) = Raise e) \/
    (exists e, sidecar_read w (with_suffix_xmp w path) = Raise e) \/
    (exists b e, sidecar_read w (with_suffix_xmp w path) = Ok b /\
                 fromstring w b = Raise e) ->
    get_windows_rating w path look_for_sidecar = Ok no_rating)) /\
  (forall info s, get_windows_rating w path look_for_sidecar = Ok info ->
                  stars info = Some s -> 0 <= s <= 5).
Proof.
assert (Hnone : open_xmp w path = Ok None \/ open_xmp w path = Ok (Some "") ->
  get_windows_rating w path look_for_sidecar
  = if look_for_sidecar then
      match sidecar_exists w (with_suffix_xmp w path) with
      | Ok true =>
          match sidecar_read w (with_suffix_xmp w path) with
          | Ok b =>
              match fromstring w b with
              | Ok root => Ok (_parse_xmp root "sidecar")
              | Raise _ => Ok no_rating
              end
          | Raise _ => Ok no_rating
          end
      | _ => Ok no_rating
      end
    else Ok no_rating).
{ intros Ho. unfold get_windows_rating.
  destruct Ho as [-> | ->]; cbn [bind]; change (String.eqb "" "") with true; cbv iota;
    (destruct look_for_sidecar; [|reflexivity];
     destruct (sidecar_exists w (with_suffix_xmp w path)) as [[|]|e]; cbn [bind];
       try reflexivity;
     destruct (sidecar_read w (with_suffix_xmp w path)) as [b|e]; cbn [bind];
       try reflexivity;
     destruct (fromstring w b) as [root|e]; cbn [bind]; reflexivity). }
split; [|split; [|split]].
- intros e He. unfold get_windows_rating. rewrite He. reflexivity.
- intros b Hb Hne. unfold get_windows_rating. rewrite Hb. cbn [bind].
  apply String.eqb_neq in Hne. rewrite Hne. reflexivity.
- intros Ho. rewrite (Hnone Ho). split.
  + intros b root -> -> -> ->. reflexivity.
  + intros [->|[->|[[e ->]|[[e He]|(b & e & Hb & He)]]]]; try reflexivity.
    * destruct look_for_sidecar; [|reflexivity]. reflexivity.
    * destruct look_for_sidecar; [|reflexivity]. reflexivity.
    * destruct look_for_sidecar; [|reflexivity].
      destruct (sidecar_exists w (with_suffix_xmp w path)) as [[|]|e']; try reflexivity.
      rewrite He. reflexivity.
    * destruct look_for_sidecar; [|reflexivity].
      destruct (sidecar_exists w (with_suffix_xmp w path)) as [[|]|e']; try reflexivity.
      rewrite Hb, He. reflexivity.
- intros info s H Hs.
  assert (Hcase : forall info',
            (if look_for_sidecar then
               match sidecar_exists w (with_suffix_xmp w path) with
               | Ok true =>
                   match sidecar_read w (with_suffix_xmp w path) with
                   | Ok b =>
                       match fromstring w b with
                       | Ok root => Ok (_parse_xmp root "sidecar")
                       | Raise _ => Ok no_rating
                       end
                   | Raise _ => Ok no_rating
                   end
               | _ => Ok no_rating
               end
             else Ok no_rating) = Ok info' ->
            stars info' = Some s -> 0 <= s <= 5).
  { intros info' H' Hs'.
    destruct look_for_sidecar; [|injection H' as <-; discriminate].
    destruct (sidecar_exists w (with_suffix_xmp w path)) as [[|]|e];
      try (injection H' as <-; discriminate).
    destruct (sidecar_read w (with_suffix_xmp w path)) as [b|e];
      try (injection H' as <-; discriminate).
    destruct (fromstring w b) as [root|e]; try (injection H' as <-; discriminate).
    injection H' as <-. eapply parse_xmp_range; exact Hs'. }
  destruct (open_xmp w path) as [[b|]|e] eqn:Ho.
  + destruct (String.eqb_spec b "") as [->|Hne].
    * rewrite (Hnone (or_intror eq_refl)) in H. exact (Hcase info H Hs).
    * unfold get_windows_rating in H. rewrite Ho in H. cbn [bind] in H.
      apply String.eqb_neq in Hne. rewrite Hne in H.
      destruct (fromstring w b) as [root|e]; [|discriminate].
      cbn [bind] in H. injection H as <-. eapply parse_xmp_range; exact Hs.
  + rewrite (Hnone (or_introl eq_refl)) in H. exact (Hcase info H Hs).
  + unfold get_windows_rating in H. rewrite Ho in H. discriminate.
Qed.

Example packet_rating :
  _parse_xmp SamplePackets.packet "embedded"
  = mkRatingInfo (Some 5) (Some "7") (Some "25") (Some "embedded").
Proof. vm_compute. reflexivity. Qed.

(** An image without an embedded packet: with a sidecar that parses, the
    rating is the sidecar's; with one that does not, there is none. *)
Lemma windows_rating_outcomes_witness :
  get_windows_rating SamplePackets.good_sidecar "photos/test3.jpg" true
  = Ok (mkRatingInfo (Some 5) (Some "7") (Some "25") (Some "sidecar")) /\
  get_windows_rating SamplePackets.broken_sidecar "photos/test3.jpg" true = Ok no_rating.
Proof.
split.
- exact (proj1 (proj1 (proj2 (proj2 (windows_rating_outcomes SamplePackets.good_sidecar
                                        "photos/test3.jpg" true))) (or_introl eq_refl))
           "<x:xmpmeta/>" SamplePackets.packet eq_refl eq_refl eq_refl eq_refl).
- apply (proj2 (proj1 (proj2 (proj2 (windows_rating_outcomes SamplePackets.broken_sidecar
                                       "photos/test3.jpg" true))) (or_introl eq_refl))).
  right. right. right. right. exists "<x", ValueError. split; reflexivity.
Defined.

End WindowsRatingFacts.

(** ** parse_exif.py: reading *)

Module ReadFacts.
Import Py ParseExif ReadMetadata.
Local Open Scope string_scope.

Lemma get_pop (key k : string) (row : Meta) :
  get k (pop key row) = if String.eqb k key then None else get k row.
Proof.
unfold get, pop. induction row as [|[a v] row IH]; cbn [filter dict_get fst].
- destruct (String.eqb k key); reflexivity.
- destruct (String.eqb key a) eqn:Ea; cbn [negb dict_get].
  + apply String.eqb_eq in Ea. subst a. rewrite IH.
    destruct (String.eqb k key); reflexivity.
  + rewrite IH. destruct (String.eqb k a) eqn:Eka; [|reflexivity].
    apply String.eqb_eq in Eka. subst a. rewrite String.eqb_sym, Ea. reflexivity.
Qed.

(** X22.  [read_all_metadata] goes to ExifTool only when it is preferred
    and found, and otherwise returns what the Pillow reader gathers, without
    an error.  From ExifTool it returns the first object printed, the empty
    dict when none is printed, and raises what the run raises; unless the
    key is asked for, the result has no [SourceFile], and every other key
    has the value the tool gave. *)
Theorem read_all_metadata_outcomes (w : MetaWorld) (image_path : string)
    (numeric prefer_exiftool keep_sourcefile_key : bool) :
  (prefer_exiftool && exiftool_found w = false ->
   read_all_metadata w image_path numeric prefer_exiftool keep_sourcefile_key
   = Ok (_read_with_pillow w image_path)) /\
  (prefer_exiftool && exiftool_found w = true ->
   (forall e, exiftool_json w image_path numeric = Raise e ->
      read_all_metadata w image_path numeric prefer_exiftool keep_sourcefile_key
      = Raise e) /\
   (exiftool_json w image_path numeric = Ok [] ->
      read_all_metadata w image_path numeric prefer_exiftool keep_sourcefile_key
      = Ok []) /\
   (forall blob rest, exiftool_json w image_path numeric = Ok (blob :: rest) ->
      exists row,
        read_all_metadata w image_path numeric prefer_exiftool keep_sourcefile_key
        = Ok row /\
        (keep_sourcefile_key = true -> row = blob) /\
        (keep_sourcefile_key = false -> get "SourceFile" row = None) /\
        (forall k, k <> "SourceFile" -> get k row = get k blob))).
Proof.
unfold read_all_metadata, _read_with_exiftool. split.
- intros ->. reflexivity.
- intros ->. split; [|split].
  + intros e ->. reflexivity.
  + intros ->. reflexivity.
  + intros blob rest ->. cbn [bind]. eexists. split; [reflexivity|].
    destruct keep_sourcefile_key; cbn [negb].
    * split; [reflexivity|]. split; [discriminate | reflexivity].
    * split; [discriminate|]. split.
      -- intros _. rewrite get_pop, String.eqb_refl. reflexivity.
      -- intros k Hk. rewrite get_pop. apply String.eqb_neq in Hk. rewrite Hk. reflexivity.
Qed.

End ReadFacts.

(** ** select_images.py: the best only *)

Module TopFacts.
Import Py Aux SelectImages FloatFacts SortFacts PercentileFacts FilterFacts SelectionFacts.
Local Open Scope string_scope.
Local Open Scope Z_scope.

(** A percentile of at least one gives the greatest value. *)
Lemma percentile_at_one (values : list Z) (q : float) :
  values <> [] -> Z.of_nat (List.length values) < 2 ^ 53 ->
  SFltb (S754_zero false) (sf q) = true -> SFltb (sf q) (sf f_one) = false ->
  exists v, percentile_nearest_rank values q = Ok v /\ In v values /\
            forall x, In x values -> x <= v.
Proof.
intros Hne Hlen Hq0 Hq1.
assert (Hc : clamp q = sf f_one).
{ unfold clamp, float_max, float_min. cbn [f_zero sf]. rewrite Hq0, Hq1. reflexivity. }
rewrite (percentile_unfold values q Hne), Hc.
set (vals := sorted Z.leb values).
set (n := Z.of_nat (List.length vals)).
assert (Hn : 0 < n < 2 ^ 53).
{ unfold n, vals. rewrite sorted_length. split; [|exact Hlen].
  destruct values; [congruence | cbn [List.length]; lia]. }
rewrite (bind_ceil_ok _ _ _ (ceil_mul_one _ Hn)).
pose proof (sorted_Z_strongly values) as Hs. fold vals in Hs.
pose proof (sorted_perm Z.leb values) as Hp. fold vals in Hp.
destruct (list_index_nth vals (Z.max 1 n - 1)) as (v & Hidx & Hnth); [fold n; lia|].
exists v. split; [exact Hidx|]. split.
- eapply Permutation_in; [exact Hp|]. eapply nth_error_In; exact Hnth.
- intros x Hx. apply (Permutation_in _ (Permutation_sym Hp)) in Hx.
  apply In_nth_error in Hx. destruct Hx as [i Hi].
  assert (Hil : (i < List.length vals)%nat) by (apply nth_error_Some; congruence).
  destruct (Nat.eq_dec i (Z.to_nat (Z.max 1 n - 1))) as [->|Hne'].
  + rewrite Hnth in Hi. injection Hi as ->. lia.
  + apply (strongly_sorted_nth Z.le vals Hs i (Z.to_nat (Z.max 1 n - 1)));
      [unfold n in *; lia | exact Hi | exact Hnth].
Qed.

End TopFacts.

(** ** select_images.py: the selection, by the record held for each path *)

Module CutoffFacts.
Import Py Aux SelectImages FloatFacts SortFacts PercentileFacts FilterFacts SelectionFacts
  TopFacts.
Local Open Scope string_scope.
Local Open Scope Z_scope.

Lemma star_values_map (rs : list RatingRecord) :
  Forall (fun r => is_rated r = true) rs ->
  map SelectImages.stars rs = map Some (star_values rs).
Proof.
induction 1 as [|r rs Hr _ IH]; [reflexivity|].
unfold star_values in *. cbn [flat_map map]. unfold is_rated in Hr.
destruct (SelectImages.stars r); [|discriminate]. cbn [app map]. rewrite IH. reflexivity.
Qed.

(** Leaving records out keeps their paths distinct. *)
Lemma rated_paths_distinct (keep : RatingRecord -> bool) (rs : list RatingRecord) :
  NoDup (map path rs) -> NoDup (map path (filter keep rs)).
Proof.
intros Hnd. induction rs as [|r rs IH]; [constructor|].
cbn [map] in Hnd. apply NoDup_cons_iff in Hnd. destruct Hnd as [Hnin Hnd].
cbn [filter]. destruct (keep r); [|exact (IH Hnd)].
cbn [map]. apply NoDup_cons; [|exact (IH Hnd)].
rewrite in_map_iff. intros (x & Hx & Hin). apply filter_In in Hin.
apply Hnin. rewrite in_map_iff. exists x. tauto.
Qed.

Lemma percentile_of_perm (l l' : list Z) (q : float) (c : Z) :
  Permutation l l' ->
  percentile_nearest_rank l q = Ok c -> percentile_nearest_rank l' q = Ok c.
Proof.
intros Hp H. destruct l as [|x xs]; [discriminate|].
destruct l' as [|y ys]; [apply Permutation_sym, Permutation_nil in Hp; discriminate|].
unfold percentile_nearest_rank in *.
rewrite <- (sorted_perm_eq _ _ Hp). exact H.
Qed.

(** The rated records of the table are the rated records held for their
    paths, each path once. *)
Lemma rated_of_held (files : list Path) (records : list RatingRecord) (r : RatingRecord) :
  In r (rated_of (by_path_of files records)) <->
  held files records (path r) r /\ SelectImages.stars r <> None.
Proof. rewrite in_rated_of, values_held. tauto. Qed.

Lemma unrated_of_held (files : list Path) (records : list RatingRecord) (r : RatingRecord) :
  In r (unrated_of (by_path_of files records)) <->
  held files records (path r) r /\ SelectImages.stars r = None.
Proof. rewrite in_unrated_of, values_held. tauto. Qed.

Lemma star_values_held (files : list Path) (records : list RatingRecord) (s : Z) :
  In s (star_values (rated_of (by_path_of files records))) <->
  exists p r, held files records p r /\ SelectImages.stars r = Some s.
Proof.
rewrite in_star_values. split.
- intros (r & Hr & Es). apply rated_of_held in Hr. exists (path r), r. tauto.
- intros (p & r & Hh & Es). exists r. split; [|exact Es]. apply rated_of_held.
  rewrite (held_path _ _ _ _ Hh). split; [exact Hh | congruence].
Qed.

Lemma star_values_length (files : list Path) (records : list RatingRecord) :
  Z.of_nat (List.length files + List.length records) < 2 ^ 53 ->
  Z.of_nat (List.length (star_values (rated_of (by_path_of files records)))) < 2 ^ 53.
Proof.
intros H. rewrite star_values_rated by apply rated_of_rated.
pose proof (rated_length files records) as Hl. apply Nat2Z.inj_le in Hl. lia.
Qed.

Section Filter.
Variable set_order : list Path -> list Path.
Hypothesis set_order_perm :
  forall l, Permutation (set_order l) (nodup string_dec l).

(** The call returns unless the tool fails, and its result is made from the
    records held for the paths. *)
Lemma filter_by_held (w : World) (folder : Path) (q : float)
    (include_unrated recursive : bool) (extensions : option (list string))
    (files : list Path) (records : list RatingRecord) :
  collect_files w folder recursive (Some (effective_exts extensions)) = Ok files ->
  read_ratings_with_exiftool w files = Ok records ->
  Z.of_nat (List.length files + List.length records) < 2 ^ 53 ->
  let values := star_values (rated_of (by_path_of files records)) in
  exists res,
    filter_images_by_rating set_order w folder q include_unrated recursive extensions
      = Ok res /\
    (values = [] -> cutoff_stars res = None) /\
    (values <> [] ->
     exists c, percentile_nearest_rank values q = Ok c /\ cutoff_stars res = Some c) /\
    (forall p,
       In p (selected res) <->
       exists r, held files records p r /\
                 match SelectImages.stars r with
                 | Some s => exists c, cutoff_stars res = Some c /\ c <= s
                 | None => include_unrated = true
                 end).
Proof.
intros Hc Hr Hlen values.
destruct (filter_returns set_order w folder q include_unrated recursive extensions
            files records Hc Hr) as [res Hres].
{ pose proof (rated_length files records) as Hl. apply Nat2Z.inj_le in Hl. lia. }
exists res. split; [exact Hres|].
destruct (filter_ok_inv set_order set_order_perm _ _ _ _ _ _ _ Hres)
  as (files' & records' & Hc' & Hr' & _ & Hnone & Hsome & Hsel & _).
rewrite Hc in Hc'. injection Hc' as <-. rewrite Hr in Hr'. injection Hr' as <-.
assert (Hvals : values = [] <-> rated_of (by_path_of files records) = []).
{ unfold values. rewrite <- !length_zero_iff_nil.
  rewrite star_values_rated by apply rated_of_rated. tauto. }
split; [intros E; apply Hnone, Hvals, E|].
split; [intros E; apply Hsome; intros E'; apply E, Hvals, E'|].
intros p. rewrite Hsel, in_sorted, (in_set_order set_order set_order_perm), in_app_iff.
split.
- intros [H|H].
  + destruct (cutoff_stars res) as [c|]; [|destruct H].
    apply in_map_iff in H. destruct H as (r & Hpr & Hf). apply filter_In in Hf.
    destruct Hf as [Hin Hab]. apply rated_of_held in Hin. rewrite Hpr in Hin.
    exists r. split; [tauto|]. unfold at_or_above in Hab.
    destruct (SelectImages.stars r) as [s|]; [|discriminate].
    exists c. split; [reflexivity | apply Z.leb_le; exact Hab].
  + destruct include_unrated; [|destruct H].
    apply in_map_iff in H. destruct H as (r & Hpr & Hin).
    apply unrated_of_held in Hin. rewrite Hpr in Hin. destruct Hin as [Hh Es].
    exists r. rewrite Es. auto.
- intros (r & Hh & Hm). pose proof (held_path _ _ _ _ Hh) as Hpr. rewrite <- Hpr in Hh.
  destruct (SelectImages.stars r) as [s|] eqn:Es.
  + destruct Hm as (c & Hcs & Hle). left. rewrite Hcs. rewrite <- Hpr.
    apply in_map. apply filter_In. split.
    * apply rated_of_held. split; [exact Hh | congruence].
    * unfold at_or_above. rewrite Es. apply Z.leb_le. exact Hle.
  + right. rewrite Hm. rewrite <- Hpr. apply in_map. apply unrated_of_held. auto.
Qed.

(** X6.  A percentile that is not above zero keeps every rated file: the
    call returns; the cutoff, when there is one, is the least of the stars
    of the records held for the paths, and there is none exactly when no
    held record is rated; the selection holds exactly the paths whose record
    is rated, plus those whose record is unrated when they are asked for --
    with them, every file scanned and every path the tool reported. *)
Theorem filter_at_zero_keeps_all (w : World) (folder : Path) (q : float)
    (include_unrated recursive : bool) (extensions : option (list string))
    (files : list Path) (records : list RatingRecord) :
  collect_files w folder recursive (Some (effective_exts extensions)) = Ok files ->
  read_ratings_with_exiftool w files = Ok records ->
  Z.of_nat (List.length files + List.length records) < 2 ^ 53 ->
  SFltb (S754_zero false) (sf q) = false ->
  exists res,
    filter_images_by_rating set_order w folder q include_unrated recursive extensions
      = Ok res /\
    (forall c, cutoff_stars res = Some c ->
       (exists p r, held files records p r /\ SelectImages.stars r = Some c) /\
       forall p r s, held files records p r -> SelectImages.stars r = Some s -> c <= s) /\
    (cutoff_stars res = None <->
     forall p r, held files records p r -> SelectImages.stars r = None) /\
    (forall p,
       In p (selected res) <->
       exists r, held files records p r /\
                 (SelectImages.stars r = None -> include_unrated = true)) /\
    (include_unrated = true ->
     forall p, In p (selected res) <-> In p files \/ In p (map path records)).
Proof.
intros Hc Hr Hlen Hq.
destruct (filter_by_held w folder q include_unrated recursive extensions files records
            Hc Hr Hlen) as (res & Hres & Hnone & Hsome & Hsel).
exists res. split; [exact Hres|].
set (values := star_values (rated_of (by_path_of files records))) in *.
assert (Hcase : values = [] \/ values <> [])
  by (destruct values; [left; reflexivity | right; discriminate]).
assert (Hmin : forall c, cutoff_stars res = Some c ->
          (exists p r, held files records p r /\ SelectImages.stars r = Some c) /\
          forall p r s, held files records p r -> SelectImages.stars r = Some s -> c <= s).
{ intros c Hcs. destruct Hcase as [E|Hne]; [rewrite (Hnone E) in Hcs; discriminate|].
  destruct (Hsome Hne) as (c' & Hp & Hcs'). assert (c' = c) by congruence. subst c'.
  destruct (percentile_at_zero values q Hne (star_values_length _ _ Hlen) Hq)
    as (v & Hv & Hvin & Hleast).
  assert (v = c) by congruence. subst v. split.
  - apply star_values_held. exact Hvin.
  - intros p r s Hh Es. apply Hleast. apply star_values_held. exists p, r. auto. }
assert (Hnone' : cutoff_stars res = None <->
                 forall p r, held files records p r -> SelectImages.stars r = None).
{ split.
  - intros Hcs p r Hh. destruct (SelectImages.stars r) as [s|] eqn:Es; [|reflexivity].
    exfalso. destruct Hcase as [E|Hne].
    + assert (Hin : In s values) by (apply star_values_held; exists p, r; auto).
      rewrite E in Hin. destruct Hin.
    + destruct (Hsome Hne) as (c & _ & Hcs'). congruence.
  - intros Hall. apply Hnone. destruct values as [|s l] eqn:E; [reflexivity|].
    exfalso. assert (Hin : In s values) by (rewrite E; left; reflexivity).
    apply star_values_held in Hin. destruct Hin as (p & r & Hh & Es).
    rewrite (Hall p r Hh) in Es. discriminate. }
assert (Hsel' : forall p,
          In p (selected res) <->
          exists r, held files records p r /\
                    (SelectImages.stars r = None -> include_unrated = true)).
{ intros p. rewrite Hsel. split; intros (r & Hh & Hm); exists r; (split; [exact Hh|]).
  - destruct (SelectImages.stars r); [discriminate | intros _; exact Hm].
  - destruct (SelectImages.stars r) as [s|] eqn:Es; [|apply Hm; reflexivity].
    destruct (cutoff_stars res) as [c|] eqn:Hcs.
    + exists c. split; [reflexivity|]. exact (proj2 (Hmin c eq_refl) p r s Hh Es).
    + rewrite (proj1 Hnone' eq_refl p r Hh) in Es. discriminate. }
split; [exact Hmin|]. split; [exact Hnone'|]. split; [exact Hsel'|].
intros Hinc p. rewrite Hsel', <- by_path_keys.
pose proof (by_path_keyed files records) as [Hnd Hk].
split.
- intros (r & Hh & _). apply by_path_held, (keyed_get _ _ _ Hnd) in Hh.
  apply in_map_iff. exists (p, r). auto.
- intros H. apply in_map_iff in H. destruct H as ([k r] & E & Hin). cbn [fst] in E.
  subst k. exists r. split; [|auto]. apply by_path_held, (keyed_get _ _ _ Hnd). exact Hin.
Qed.

(** X23.  A percentile of at least one keeps the best only: the call
    returns; the cutoff, when there is one, is the greatest of the stars of
    the records held for the paths, and there is none exactly when no held
    record is rated; the selection holds exactly the paths whose record has
    the cutoff's stars, plus those whose record is unrated when they are
    asked for. *)
Theorem filter_at_one_keeps_top (w : World) (folder : Path) (q : float)
    (include_unrated recursive : bool) (extensions : option (list string))
    (files : list Path) (records : list RatingRecord) :
  collect_files w folder recursive (Some (effective_exts extensions)) = Ok files ->
  read_ratings_with_exiftool w files = Ok records ->
  Z.of_nat (List.length files + List.length records) < 2 ^ 53 ->
  SFltb (S754_zero false) (sf q) = true -> SFltb (sf q) (sf f_one) = false ->
  exists res,
    filter_images_by_rating set_order w folder q include_unrated recursive extensions
      = Ok res /\
    (forall c, cutoff_stars res = Some c ->
       (exists p r, held files records p r /\ SelectImages.stars r = Some c) /\
       forall p r s, held files records p r -> SelectImages.stars r = Some s -> s <= c) /\
    (cutoff_stars res = None <->
     forall p r, held files records p r -> SelectImages.stars r = None) /\
    (forall p,
       In p (selected res) <->
       exists r, held files records p r /\
                 match SelectImages.stars r with
                 | Some s => cutoff_stars res = Some s
                 | None => include_unrated = true
                 end).
Proof.
intros Hc Hr Hlen Hq0 Hq1.
destruct (filter_by_held w folder q include_unrated recursive extensions files records
            Hc Hr Hlen) as (res & Hres & Hnone & Hsome & Hsel).
exists res. split; [exact Hres|].
set (values := star_values (rated_of (by_path_of files records))) in *.
assert (Hcase : values = [] \/ values <> [])
  by (destruct values; [left; reflexivity | right; discriminate]).
assert (Hmax : forall c, cutoff_stars res = Some c ->
          (exists p r, held files records p r /\ SelectImages.stars r = Some c) /\
          forall p r s, held files records p r -> SelectImages.stars r = Some s -> s <= c).
{ intros c Hcs. destruct Hcase as [E|Hne]; [rewrite (Hnone E) in Hcs; discriminate|].
  destruct (Hsome Hne) as (c' & Hp & Hcs'). assert (c' = c) by congruence. subst c'.
  destruct (percentile_at_one values q Hne (star_values_length _ _ Hlen) Hq0 Hq1)
    as (v & Hv & Hvin & Hmost).
  assert (v = c) by congruence. subst v. split.
  - apply star_values_held. exact Hvin.
  - intros p r s Hh Es. apply Hmost. apply star_values_held. exists p, r. auto. }
split; [exact Hmax|]. split.
{ split.
  - intros Hcs p r Hh. destruct (SelectImages.stars r) as [s|] eqn:Es; [|reflexivity].
    exfalso. destruct Hcase as [E|Hne].
    + assert (Hin : In s values) by (apply star_values_held; exists p, r; auto).
      rewrite E in Hin. destruct Hin.
    + destruct (Hsome Hne) as (c & _ & Hcs'). congruence.
  - intros Hall. apply Hnone. destruct values as [|s l] eqn:E; [reflexivity|].
    exfalso. assert (Hin : In s values) by (rewrite E; left; reflexivity).
    apply star_values_held in Hin. destruct Hin as (p & r & Hh & Es).
    rewrite (Hall p r Hh) in Es. discriminate. }
intros p. rewrite Hsel. split; intros (r & Hh & Hm); exists r; (split; [exact Hh|]);
  destruct (SelectImages.stars r) as [s|] eqn:Es; try exact Hm.
- destruct Hm as (c & Hcs & Hle). rewrite Hcs. f_equal.
  pose proof (proj2 (Hmax c Hcs) p r s Hh Es). lia.
- exists s. split; [exact Hm | lia].
Qed.

(** C1.  When some file is rated the call returns.  Its rated list holds the
    rated records the filter holds for the paths (for each path the last
    record the tool gave, a scanned file without one being unrated), each
    path once, and its unrated list the others; the cutoff is the
    nearest-rank percentile of the stars [ss] of the rated list and is one
    of them; the selection holds exactly the paths whose record is rated at
    or above the cutoff, plus the paths whose record is unrated when those
    are asked for; it has no duplicates and is in ascending order of the
    lower-cased path.  With the rated stars 1, 1, 2, 3, 5 and q = 0.5 the
    cutoff is 2 and, of the rated files, exactly those with 2, 3 or 5 stars
    are selected. *)
Theorem filter_selects_at_or_above_cutoff
    (w : World) (folder : Path) (q : float) (include_unrated recursive : bool)
    (extensions : option (list string))
    (files : list Path) (records : list RatingRecord) :
  collect_files w folder recursive (Some (effective_exts extensions)) = Ok files ->
  read_ratings_with_exiftool w files = Ok records ->
  (exists p r s, held files records p r /\ SelectImages.stars r = Some s) ->
  Z.of_nat (List.length files + List.length records) < 2 ^ 53 ->
  exists (res : FilterResult) (cutoff : Z) (ss : list Z),
    filter_images_by_rating set_order w folder q include_unrated recursive extensions
      = Ok res /\
    (forall r, In r (SelectImages.rated res) <->
               held files records (path r) r /\ SelectImages.stars r <> None) /\
    (forall r, In r (SelectImages.unrated res) <->
               held files records (path r) r /\ SelectImages.stars r = None) /\
    NoDup (map path (SelectImages.rated res)) /\
    map SelectImages.stars (SelectImages.rated res) = map Some ss /\
    percentile_nearest_rank ss q = Ok cutoff /\
    In cutoff ss /\
    cutoff_stars res = Some cutoff /\
    (forall p,
       In p (selected res) <->
       exists r, held files records p r /\
                 match SelectImages.stars r with
                 | Some s => cutoff <= s
                 | None => include_unrated = true
                 end) /\
    NoDup (selected res) /\
    Sorted (fun a b => String.leb (lower a) (lower b) = true) (selected res) /\
    (Permutation ss [1; 1; 2; 3; 5] -> sf q = sf f_half ->
     cutoff = 2 /\
     forall p r s, held files records p r -> SelectImages.stars r = Some s ->
                   (In p (selected res) <-> s = 2 \/ s = 3 \/ s = 5)).
Proof.
intros Hcollect Hread (p0 & r0 & s0 & Hheld0 & Hs0) Hlen.
set (bp := by_path_of files records).
assert (Hin0 : In r0 (rated_of bp)).
{ apply rated_of_held. rewrite (held_path _ _ _ _ Hheld0). split; [exact Hheld0 | congruence]. }
destruct (filter_by_table set_order set_order_perm w folder q include_unrated recursive
            extensions files records Hcollect Hread)
  as (res & cutoff & Hres & Hp & Hcin & Hcut & Hmem & Hnd & Hsorted & Hscen).
{ intros E. fold bp in E. rewrite E in Hin0. destruct Hin0. }
{ pose proof (rated_length files records) as H. apply Nat2Z.inj_le in H. lia. }
fold bp in Hp, Hcin, Hmem, Hscen.
destruct (filter_ok_inv set_order set_order_perm _ _ _ _ _ _ _ Hres)
  as (files' & records' & Hc' & Hr' & _ & _ & _ & _ & Hrated & Hunrated & _).
rewrite Hcollect in Hc'. injection Hc' as <-. rewrite Hread in Hr'. injection Hr' as <-.
fold bp in Hrated, Hunrated.
assert (Hperm : Permutation (SelectImages.rated res) (rated_of bp))
  by (rewrite Hrated; apply sorted_perm).
assert (Hall : Forall (fun r => is_rated r = true) (SelectImages.rated res)).
{ apply Forall_forall. intros r Hr. apply (Permutation_in _ Hperm) in Hr.
  pose proof (rated_of_rated bp) as H. rewrite Forall_forall in H. apply H. exact Hr. }
assert (Hss : Permutation (star_values (rated_of bp)) (star_values (SelectImages.rated res))).
{ unfold star_values. apply Permutation_flat_map, Permutation_sym. exact Hperm. }
exists res, cutoff, (star_values (SelectImages.rated res)).
split; [exact Hres|]. split.
{ intros r. rewrite Hrated, in_sorted. apply rated_of_held. }
split.
{ intros r. rewrite Hunrated, in_sorted. apply unrated_of_held. }
split.
{ eapply Permutation_NoDup; [apply Permutation_map, Permutation_sym, Hperm|].
  unfold rated_of, bp. apply rated_paths_distinct.
  rewrite (keyed_paths _ (by_path_keyed files records)).
  apply (by_path_keyed files records). }
split; [apply star_values_map; exact Hall|].
split; [exact (percentile_of_perm _ _ _ _ Hss Hp)|].
split; [exact (Permutation_in _ Hss Hcin)|].
split; [exact Hcut|].
assert (Hsel : forall p,
  In p (selected res) <->
  exists r, held files records p r /\
            match SelectImages.stars r with
            | Some s => cutoff <= s
            | None => include_unrated = true
            end).
{ intros p. rewrite Hmem. split.
  - intros [(r & s & Hr & Hpr & Es & Hle)|[Hinc (r & Hr & Hpr)]].
    + apply rated_of_held in Hr. rewrite Hpr in Hr. exists r. rewrite Es. tauto.
    + apply unrated_of_held in Hr. rewrite Hpr in Hr. destruct Hr as [Hh Es].
      exists r. rewrite Es. auto.
  - intros (r & Hh & Hm). pose proof (held_path _ _ _ _ Hh) as Hpr.
    rewrite <- Hpr in Hh. destruct (SelectImages.stars r) as [s|] eqn:Es.
    + left. exists r, s. split; [|auto]. apply rated_of_held. split; [exact Hh | congruence].
    + right. split; [exact Hm|]. exists r. split; [|exact Hpr].
      apply unrated_of_held. auto. }
split; [exact Hsel|]. split; [exact Hnd|]. split; [exact Hsorted|].
intros Hstars Hq.
destruct Hscen as [Hc2 Hthree]; [|exact Hq|].
{ rewrite (sorted_perm_eq _ [1; 1; 2; 3; 5]); [reflexivity|].
  eapply Permutation_trans; [exact Hss | exact Hstars]. }
split; [exact Hc2|]. intros p r s Hh Es.
pose proof (held_path _ _ _ _ Hh) as Hpr. rewrite <- Hpr.
apply Hthree; [|exact Es]. apply rated_of_held. rewrite Hpr. split; [exact Hh | congruence].
Qed.

End Filter.

(** Witness for C1: the demonstration folder, the sources respelled by the
    tool and one of them reported twice, at q = 0.5 with the unrated files
    included: the cutoff is 2, and the selection is the files rated 2, 3
    and 5 and the file the tool left out. *)
Lemma filter_selects_at_or_above_cutoff_witness :
  exists res,
    filter_images_by_rating (nodup string_dec) Samples.respelled_world Demo.folder f_half
      true true None = Ok res /\
    cutoff_stars res = Some 2 /\
    selected res = ["photos/C.jpg"; "photos/d.png"; "photos/e.jpeg"; "photos/f.jpg"] /\
    map path (SelectImages.rated res)
    = ["photos/a.jpg"; "photos/b.JPG"; "photos/C.jpg"; "photos/d.png"; "photos/e.jpeg"] /\
    map path (SelectImages.unrated res) = ["photos/f.jpg"] /\
    (forall p,
       In p (selected res) <->
       exists r, held Demo.files Samples.respelled_records p r /\
                 match SelectImages.stars r with
                 | Some s => 2 <= s
                 | None => true = true
                 end).
Proof.
destruct (filter_selects_at_or_above_cutoff (nodup string_dec)
            (fun l => Permutation_refl _)
            Samples.respelled_world Demo.folder f_half true true None
            Demo.files Samples.respelled_records)
  as (res & cutoff & ss & Hres & _ & _ & _ & _ & _ & _ & Hcut & Hsel & _).
- reflexivity.
- reflexivity.
- exists "photos/e.jpeg", (mkRatingRecord "photos/e.jpeg" (Some 5) (Some 7) None None), 5.
  split; [|reflexivity]. left.
  exists [mkRatingRecord "photos/a.jpg" (Some 1) (Some 1) None None;
          mkRatingRecord "photos/b.JPG" (Some 1) None (Some 1) None;
          mkRatingRecord "photos/C.jpg" (Some 4) (Some 4) None None;
          mkRatingRecord "photos/d.png" (Some 3) None None (Some 50)],
         [mkRatingRecord "photos/C.jpg" (Some 2) (Some 2) None (Some 25)].
  split; [reflexivity|]. split; [reflexivity|].
  constructor; [discriminate | constructor].
- vm_compute. reflexivity.
- assert (E : filter_images_by_rating (nodup string_dec) Samples.respelled_world
                Demo.folder f_half true true None = Ok Samples.median_result)
    by (vm_compute; reflexivity).
  rewrite E in Hres. injection Hres as <-.
  cbn [cutoff_stars Samples.median_result] in Hcut. injection Hcut as <-.
  exists Samples.median_result. split; [exact E|].
  split; [reflexivity|]. split; [reflexivity|]. split; [reflexivity|].
  split; [reflexivity|]. exact Hsel.
Defined.

(** The respelled demonstration folder at q = 0 without the unrated files:
    the cutoff is 1 and the five rated files are selected. *)
Lemma filter_at_zero_keeps_all_witness :
  exists res,
    filter_images_by_rating (nodup string_dec) Samples.respelled_world Demo.folder f_zero
      false true None = Ok res /\
    cutoff_stars res = Some 1 /\
    selected res = ["photos/a.jpg"; "photos/b.JPG"; "photos/C.jpg"; "photos/d.png";
                    "photos/e.jpeg"] /\
    (forall p,
       In p (selected res) <->
       exists r, held Demo.files Samples.respelled_records p r /\
                 (SelectImages.stars r = None -> false = true)).
Proof.
destruct (filter_at_zero_keeps_all (nodup string_dec) (fun l => Permutation_refl _)
            Samples.respelled_world Demo.folder f_zero false true None
            Demo.files Samples.respelled_records)
  as (res & Hres & _ & _ & Hsel & _).
- reflexivity.
- reflexivity.
- vm_compute. reflexivity.
- reflexivity.
- exists res. split; [exact Hres|].
  assert (E : filter_images_by_rating (nodup string_dec) Samples.respelled_world
                Demo.folder f_zero false true None
              = Ok (mkFilterResult (selected res) (cutoff_stars res)
                      (SelectImages.rated res) (SelectImages.unrated res) (stats res)))
    by (rewrite Hres; destruct res; reflexivity).
  vm_compute in E. injection E as E1 E2 _ _ _.
  split; [symmetry; exact E2|]. split; [symmetry; exact E1 | exact Hsel].
Defined.

(** The same folder at q = 1: the cutoff is 5 and one file is selected. *)
Lemma filter_at_one_keeps_top_witness :
  exists res,
    filter_images_by_rating (nodup string_dec) Samples.respelled_world Demo.folder f_one
      false true None = Ok res /\
    cutoff_stars res = Some 5 /\
    selected res = ["photos/e.jpeg"] /\
    (forall p,
       In p (selected res) <->
       exists r, held Demo.files Samples.respelled_records p r /\
                 match SelectImages.stars r with
                 | Some s => cutoff_stars res = Some s
                 | None => false = true
                 end).
Proof.
destruct (filter_at_one_keeps_top (nodup string_dec) (fun l => Permutation_refl _)
            Samples.respelled_world Demo.folder f_one false true None
            Demo.files Samples.respelled_records)
  as (res & Hres & _ & _ & Hsel).
- reflexivity.
- reflexivity.
- vm_compute. reflexivity.
- reflexivity.
- reflexivity.
- exists res. split; [exact Hres|].
  assert (E : filter_images_by_rating (nodup string_dec) Samples.respelled_world
                Demo.folder f_one false true None
              = Ok (mkFilterResult (selected res) (cutoff_stars res)
                      (SelectImages.rated res) (SelectImages.unrated res) (stats res)))
    by (rewrite Hres; destruct res; reflexivity).
  vm_compute in E. injection E as E1 E2 _ _ _.
  split; [symmetry; exact E2|]. split; [symmetry; exact E1 | exact Hsel].
Defined.

End CutoffFacts.

(** ** write_metadata.py: a second run *)

Module RerunFacts.
Import Py WriteMetadata Aux WriteFacts RowFacts CsvFile.
Local Open Scope string_scope.

Lemma row_get_zipped (l : list (string * string)) (d : list (string * string)) (k : string) :
  NoDup (map fst l) ->
  row_get k (fold_left (fun d hc => dict_set String.eqb (fst hc) (snd hc) d) l d)
  = match dict_get String.eqb k l with
    | Some c => c
    | None => row_get k d
    end.
Proof.
revert d. induction l as [|[a c] l IH]; intros d Hnd; [reflexivity|].
cbn [fold_left fst snd dict_get map] in *. inversion Hnd as [|? ? Hnin Hnd']; subst.
rewrite IH by exact Hnd'.
destruct (String.eqb k a) eqn:E.
- apply String.eqb_eq in E. subst a.
  assert (Hnone : dict_get String.eqb k l = None).
  { clear - Hnin. induction l as [|[a w] l IH]; [reflexivity|].
    cbn [dict_get]. destruct (String.eqb_spec k a) as [->|Hne].
    - exfalso. apply Hnin. left. reflexivity.
    - apply IH. intros H. apply Hnin. right. exact H. }
  rewrite Hnone, row_get_set, String.eqb_refl. reflexivity.
- destruct (dict_get String.eqb k l); [reflexivity|].
  rewrite row_get_set, E. reflexivity.
Qed.

Lemma fst_combine (hs cells : list string) :
  List.length cells = List.length hs -> map fst (combine hs cells) = hs.
Proof.
revert cells. induction hs as [|h hs IH]; intros [|c cells] H; try discriminate;
  [reflexivity|]. cbn. rewrite IH; [reflexivity|]. cbn in H. lia.
Qed.

(** Reading a row back gives its cells again. *)
Lemma zip_row_cells (hs cells : list string) :
  NoDup hs -> List.length cells = List.length hs ->
  map (fun h => row_get h (zip_row hs cells)) hs = cells.
Proof.
intros Hnd Hlen. unfold zip_row.
rewrite (map_ext_in _ (fun h => match dict_get String.eqb h (combine hs cells) with
                                | Some c => c | None => "" end)).
2:{ intros h _. rewrite row_get_zipped; [reflexivity|]. rewrite fst_combine; assumption. }
revert cells Hlen. induction Hnd as [|h hs Hnin Hnd IH]; intros [|c cells] Hlen;
  try discriminate; [reflexivity|].
cbn [combine map dict_get]. rewrite String.eqb_refl. f_equal.
etransitivity; [|apply (IH cells); cbn in Hlen; lia].
apply map_ext_in. intros k Hk.
destruct (String.eqb_spec k h) as [->|Hne]; [contradiction | reflexivity].
Qed.

Section Rerun.
Variable repr : pyval -> string.

Lemma header_NoDup (input : option CsvTable) (R : list (list (string * pyval)))
    (add keep : bool) :
  NoDup (snd (_read_existing_csv input)) ->
  NoDup (header (append_records_to_csv repr input R add keep)).
Proof.
intros Hnd. rewrite append_header.
set (H := snd (_read_existing_csv input)) in *.
apply NoDup_app; [exact Hnd | |].
- destruct (add || is_nil H); [apply first_seen_NoDup | constructor].
- intros k Hk Hk'. destruct (add || is_nil H); [|destruct Hk'].
  unfold new_columns in Hk'. apply (proj1 (first_seen_In _ _)) in Hk'.
  apply filter_In in Hk'. destruct Hk' as [_ Hm].
  apply mem_In in Hk. rewrite Hk in Hm. discriminate.
Qed.

Lemma data_width (input : option CsvTable) (R : list (list (string * pyval)))
    (add keep : bool) (cells : list string) :
  In cells (data (append_records_to_csv repr input R add keep)) ->
  List.length cells = List.length (header (append_records_to_csv repr input R add keep)).
Proof.
unfold append_records_to_csv.
destruct (_read_existing_csv input) as [rows0 hs0].
destruct (build_rows repr add R _) as [h rows]. cbn [data header].
intros Hin. apply in_map_iff in Hin. destruct Hin as [r [Hr _]]. subst cells.
apply length_map.
Qed.

(** X24.  Running the writer again on the file it wrote, with the same
    records, changes no column and loses no row: the header is the same,
    every row of the first output is there again, cell for cell, and the
    rows of the records follow once more. *)
Theorem rerun_appends_again (input : option CsvTable)
    (R : list (list (string * pyval))) :
  NoDup (snd (_read_existing_csv input)) ->
  Forall (fun rec => NoDup (dict_keys rec)) R ->
  let out := append_records_to_csv repr input R true true in
  let again := append_records_to_csv repr (Some (read_back out)) R true true in
  header out <> [] ->
  header again = header out /\
  data again
  = (data out ++ map (fun rec => map (cell_of repr rec) (header out)) R)%list.
Proof.
intros HndH HndR out again Hne.
assert (Hhead : header again = header out).
{ subst again. rewrite append_header. cbn [_read_existing_csv read_back fieldnames snd orb].
  rewrite (new_columns_covered (header out) R); [apply app_nil_r|].
  intros k Hk. subst out. rewrite append_header. cbn [orb].
  apply new_columns_cover. exact Hk. }
split; [exact Hhead|].
destruct (append_data repr (Some (read_back out)) R true) as (new_rows & _ & Hall).
destruct (Hall true) as [Hnew Hdata]. fold again in Hnew, Hdata.
rewrite Hdata, (Hnew HndR), Hhead. f_equal.
cbn [_read_existing_csv read_back body fst].
destruct (header out) as [|h hs] eqn:Eh; [congruence|]. rewrite <- Eh.
rewrite map_map.
rewrite <- (map_id (data out)) at 2. apply map_ext_in. intros cells Hcells.
apply zip_row_cells.
- subst out. apply header_NoDup. exact HndH.
- apply data_width. exact Hcells.
Qed.

End Rerun.

Lemma rerun_appends_again_witness :
  data (append_records_to_csv (fun _ => "")
          (Some (read_back
                   (append_records_to_csv (fun _ => "")
                      (Some (mkCsvTable ["title"] [[("title", "old")]]))
                      [[("title", VStr "Sunset"); ("number", VInt 3)]] true true)))
          [[("title", VStr "Sunset"); ("number", VInt 3)]] true true)
  = [["old"; ""]; ["Sunset"; "3"]; ["Sunset"; "3"]].
Proof.
refine (proj2 (rerun_appends_again (fun _ => "")
                 (Some (mkCsvTable ["title"] [[("title", "old")]]))
                 [[("title", VStr "Sunset"); ("number", VInt 3)]] _ _ _)).
- repeat constructor. intros [].
- repeat constructor; cbn; intuition discriminate.
- discriminate.
Defined.

End RerunFacts.

(** ** select_images.py: the files collected *)

Module CollectFacts.
Import Py SelectImages.
Local Open Scope string_scope.

Lemma lower_char_idem (c : ascii) : lower_char (lower_char c) = lower_char c.
Proof.
destruct c as [[] [] [] [] [] [] [] []]; vm_compute; reflexivity.
Qed.

Lemma lower_idem (s : string) : lower (lower s) = lower s.
Proof.
induction s as [|c s IH]; [reflexivity|]. cbn [lower].
rewrite lower_char_idem, IH. reflexivity.
Qed.

Lemma norm_ext_lower (e : string) : norm_ext (lower e) = norm_ext e.
Proof. unfold norm_ext. rewrite lower_idem. reflexivity. Qed.

Lemma norm_ext_dot (e : string) : norm_ext (String "." e) = norm_ext e.
Proof. reflexivity. Qed.

Lemma collect_files_by_norm (w : World) (folder : Path) (recursive : bool)
    (exts exts' : list string) :
  exts <> [] -> map norm_ext exts' = map norm_ext exts ->
  collect_files w folder recursive (Some exts')
  = collect_files w folder recursive (Some exts).
Proof.
intros Hne Hmap. unfold collect_files.
destruct exts as [|e es]; [congruence|].
destruct exts' as [|e' es']; [discriminate|].
rewrite Hmap. reflexivity.
Qed.

Lemma collect_files_with (w : World) (folder : Path) (recursive : bool)
    (exts : list string) :
  exts <> [] ->
  collect_files w folder recursive (Some exts)
  = if negb (is_dir w folder) then Raise ValueError
    else Ok (filter (fun p => existsb (String.eqb (norm_ext (suffix p)))
                                      (map norm_ext exts))
                    (filter (is_file w)
                            (if recursive then rglob w folder else iterdir w folder))).
Proof. intros Hne. destruct exts; [congruence | reflexivity]. Qed.

(** X25.  The extensions given to [collect_files] are matched without
    regard to case and to leading dots, on both sides: writing them in
    lower case or with a dot in front changes nothing, and a file is
    returned exactly when it is a file of the listing whose suffix, lower
    cased and without its dots in front, is that of one of the
    extensions. *)
Theorem collect_files_spelling (w : World) (folder : Path) (recursive : bool)
    (exts : list string) :
  exts <> [] ->
  collect_files w folder recursive (Some (map lower exts))
  = collect_files w folder recursive (Some exts) /\
  collect_files w folder recursive (Some (map (String ".") exts))
  = collect_files w folder recursive (Some exts) /\
  (forall files,
     collect_files w folder recursive (Some exts) = Ok files ->
     forall p,
       In p files <->
       In p (if recursive then rglob w folder else iterdir w folder) /\
       is_file w p = true /\
       exists e, In e exts /\
                 lstrip_with (fun c => Ascii.eqb c ".") (lower (suffix p))
                 = lstrip_with (fun c => Ascii.eqb c ".") (lower e)).
Proof.
intros Hne. split; [|split].
- apply collect_files_by_norm; [exact Hne|]. rewrite map_map.
  apply map_ext. intros e. apply norm_ext_lower.
- apply collect_files_by_norm; [exact Hne|]. rewrite map_map.
  apply map_ext. intros e. apply norm_ext_dot.
- intros files H p. rewrite (collect_files_with _ _ _ _ Hne) in H.
  destruct (is_dir w folder); [|discriminate]. cbn [negb] in H. injection H as <-.
  rewrite filter_In. cbv beta. rewrite filter_In, existsb_exists. split.
  + intros [[Hl Hf] (x & Hx & Hex)]. split; [exact Hl|]. split; [exact Hf|].
    apply in_map_iff in Hx. destruct Hx as (e0 & <- & He0).
    exists e0. split; [exact He0|]. apply String.eqb_eq in Hex. exact Hex.
  + intros (Hl & Hf & e0 & He0 & Heq). split; [split; assumption|].
    exists (norm_ext e0). split; [apply in_map; exact He0|].
    apply String.eqb_eq. exact Heq.
Qed.

Lemma collect_files_spelling_witness :
  collect_files Demo.world Demo.folder true (Some [".JPG"])
  = collect_files Demo.world Demo.folder true (Some ["JPG"]).
Proof.
exact (proj1 (proj2 (collect_files_spelling Demo.world Demo.folder true ["JPG"]
                       ltac:(discriminate)))).
Defined.

End CollectFacts.
